(** * Jiminy simulation core: a shallow embedding of [Engine.cc] and
      [MemoryDevice.cc], and the properties of their specification.

    The C++ sources are embedded as Rocq functions.  Integers of fixed
    width are [Z] with the wrap-around written out, byte buffers are
    [list Byte.byte], Eigen vectors are [list R].  The type [float64_t]
    is idealised as the real numbers [R]: every arithmetic statement below
    is a statement about the formulas the code evaluates, not about their
    rounding. *)

From Stdlib Require Import ZArith List Bool Lia Reals Lra.
From Stdlib Require Import Init.Byte.
From stdpp Require Import base list.
Import ListNotations.

(** ** Return codes ([result_t]) *)

Inductive result_t : Set :=
| SUCCESS
| ERROR_GENERIC
| ERROR_BAD_INPUT
| ERROR_INIT_FAILED.

(** ** [MemoryDevice.cc] *)

Module MemoryDevice.

Local Open Scope Z_scope.

(** [int64_t] and [size_t] conversions of a mathematical integer. *)
Definition to_int64 (z : Z) : Z := (z + 2 ^ 63) mod 2 ^ 64 - 2 ^ 63.
Definition to_size_t (z : Z) : Z := z mod 2 ^ 64.

Definition int64_max : Z := 2 ^ 63 - 1.

(** The two data members of the class ([supportedModes_] and [modes_] of
    the base class play no part in the functions below). *)
Record t : Type := mk {
  buffer_ : list byte;
  currentPos_ : Z
}.

(** [MemoryDevice::MemoryDevice(int64_t size)]: a value-initialised
    buffer, position 0. *)
Definition create (size : Z) : t :=
  mk (replicate (Z.to_nat (to_size_t size)) x00) 0.

(** [(int64_t) buffer_.size()] *)
Definition size (d : t) : Z := to_int64 (Z.of_nat (length (buffer_ d))).

(** Modelled from the spec: [bytesAvailable()] is declared in
    [MemoryDevice.h], which is not part of the sources at hand; it is the
    number of bytes remaining between the current position and the end of
    the buffer. *)
Definition bytesAvailable (d : t) : Z := to_int64 (size d - currentPos_ d).

(** [result_t MemoryDevice::seek(int64_t pos)] *)
Definition seek (d : t) (pos : Z) : result_t * t :=
  if (pos <? 0) || (pos >=? size d)
  then (ERROR_GENERIC, d)
  else (SUCCESS, mk (buffer_ d) pos).

(** [std::memcpy(dst, buf + off, n)]: the [n] bytes of [buf] from offset
    [off]; [None] when the range leaves the buffer (undefined
    behaviour). *)
Definition memcpy_from (buf : list byte) (off n : Z) : option (list byte) :=
  if (0 <=? off) && (off + n <=? Z.of_nat (length buf))
  then Some (take (Z.to_nat n) (drop (Z.to_nat off) buf))
  else None.

(** [std::memcpy(buf + off, src, n)]: [buf] with [n] bytes from offset
    [off] overwritten by the first [n] bytes of [src]; [None] when either
    range leaves its array. *)
Definition memcpy_to (buf : list byte) (off : Z) (src : list byte) (n : Z)
  : option (list byte) :=
  if (0 <=? off) && (off + n <=? Z.of_nat (length buf))
     && (n <=? Z.of_nat (length src))
  then Some (take (Z.to_nat off) buf ++ take (Z.to_nat n) src
             ++ drop (Z.to_nat (off + n)) buf)
  else None.

(** [int64_t MemoryDevice::readData(void* data, int64_t dataSize)]:
    the returned count, the bytes stored at [data], the device after. *)
Definition readData (d : t) (dataSize : Z) : option (Z * list byte * t) :=
  let toRead := bytesAvailable d in
  let toRead := if dataSize <? toRead then dataSize else toRead in
  match memcpy_from (buffer_ d) (currentPos_ d) (to_size_t toRead) with
  | Some data =>
      Some (toRead, data, mk (buffer_ d) (to_int64 (currentPos_ d + toRead)))
  | None => None
  end.

(** [int64_t MemoryDevice::writeData(void const* data, int64_t dataSize)]:
    the returned count and the device after. *)
Definition writeData (d : t) (data : list byte) (dataSize : Z)
  : option (Z * t) :=
  let toWrite := bytesAvailable d in
  let toWrite := if dataSize <? toWrite then dataSize else toWrite in
  match memcpy_to (buffer_ d) (currentPos_ d) data (to_size_t toWrite) with
  | Some buf' => Some (toWrite, mk buf' (to_int64 (currentPos_ d + toWrite)))
  | None => None
  end.

(** [void MemoryDevice::resize(int64_t size)] *)
Definition resize (d : t) (sz : Z) : t :=
  let n := Z.to_nat (to_size_t sz) in
  mk (take n (buffer_ d) ++ replicate (n - length (buffer_ d)) x00)
     (currentPos_ d).

(** The state every constructor establishes and [seek], [readData] and
    [writeData] keep: the position lies inside the buffer or at its end,
    and the buffer is no longer than [std::vector] allows. *)
Definition wf (d : t) : Prop :=
  0 <= currentPos_ d <= Z.of_nat (length (buffer_ d))
  /\ Z.of_nat (length (buffer_ d)) <= int64_max.

(** [result_t MemoryDevice::doOpen(enum OpenMode modes)]; the flags of
    [OpenMode] are declared in [AbstractIODevice.h], which is not part of
    the sources at hand, so the bit [APPEND] is a parameter. *)
Definition doOpen (APPEND : Z) (d : t) (modes : Z) : result_t * t :=
  if Z.land modes APPEND =? 0
  then (SUCCESS, mk (buffer_ d) 0)
  else (SUCCESS, d).

End MemoryDevice.

(** ** [Engine.cc]: numbers, vectors and rigid transformations *)

Local Open Scope R_scope.

Abbreviation float64_t := R.

(** Comparisons of the source as booleans. *)
Definition Rltb (a b : R) : bool := if Rlt_dec a b then true else false.
Definition Rgtb (a b : R) : bool := Rltb b a.

(** [std::numeric_limits<float64_t>::epsilon()], that is [2^-52]. *)
Definition epsilon : R := / 4503599627370496.

(** [boost::algorithm::clamp(val, lo, hi)] *)
Definition clamp (val lo hi : R) : R :=
  if Rltb val lo then lo else if Rltb hi val then hi else val.

(** [std::round]: to the nearest integer, halves away from zero. *)
Definition round (x : R) : R :=
  if Rltb x 0 then - IZR (Int_part (- x + / 2)) else IZR (Int_part (x + / 2)).

(** [vectorN_t]: an Eigen vector of run-time size.  Reading outside a
    vector is undefined in the source; here it reads 0 and a write there
    changes nothing, and the theorems that depend on an index state that
    it is in range. *)
Abbreviation vectorN_t := (list R).

Definition Zero (n : nat) : vectorN_t := replicate n 0.
Definition coeff (v : vectorN_t) (i : Z) : R :=
  if (i <? 0)%Z then 0 else nth (Z.to_nat i) v 0.
Definition head (n : nat) (v : vectorN_t) : vectorN_t := take n v.
Definition tail (n : nat) (v : vectorN_t) : vectorN_t :=
  drop (length v - n) v.
Definition vadd (a b : vectorN_t) : vectorN_t := zip_with Rplus a b.
Definition vsub (a b : vectorN_t) : vectorN_t := zip_with Rminus a b.
Definition vscale (a : vectorN_t) (k : R) : vectorN_t := map (fun x => x * k) a.
Definition vdiv (a : vectorN_t) (k : R) : vectorN_t := map (fun x => x / k) a.

(** [v(i) += f] *)
Definition add_at (v : vectorN_t) (i : Z) (f : R) : vectorN_t :=
  if (i <? 0)%Z then v else alter (fun x => x + f) (Z.to_nat i) v.
(** [v[i] = f] *)
Definition set_at {A} (v : list A) (i : Z) (f : A) : list A :=
  if (i <? 0)%Z then v else <[Z.to_nat i := f]> v.

Record Vector3d : Type := V3 { c0 : R; c1 : R; c2 : R }.
Record Matrix3d : Type := M3 { row0 : Vector3d; row1 : Vector3d; row2 : Vector3d }.

Definition dot3 (a b : Vector3d) : R := c0 a * c0 b + c1 a * c1 b + c2 a * c2 b.
Definition mulMV (m : Matrix3d) (v : Vector3d) : Vector3d :=
  V3 (dot3 (row0 m) v) (dot3 (row1 m) v) (dot3 (row2 m) v).
Definition transpose (m : Matrix3d) : Matrix3d :=
  M3 (V3 (c0 (row0 m)) (c0 (row1 m)) (c0 (row2 m)))
     (V3 (c1 (row0 m)) (c1 (row1 m)) (c1 (row2 m)))
     (V3 (c2 (row0 m)) (c2 (row1 m)) (c2 (row2 m))).
Definition mulMM (a b : Matrix3d) : Matrix3d :=
  let bt := transpose b in
  M3 (V3 (dot3 (row0 a) (row0 bt)) (dot3 (row0 a) (row1 bt)) (dot3 (row0 a) (row2 bt)))
     (V3 (dot3 (row1 a) (row0 bt)) (dot3 (row1 a) (row1 bt)) (dot3 (row1 a) (row2 bt)))
     (V3 (dot3 (row2 a) (row0 bt)) (dot3 (row2 a) (row1 bt)) (dot3 (row2 a) (row2 bt))).
Definition cross (a b : Vector3d) : Vector3d :=
  V3 (c1 a * c2 b - c2 a * c1 b)
     (c2 a * c0 b - c0 a * c2 b)
     (c0 a * c1 b - c1 a * c0 b).
Definition Identity3 : Matrix3d := M3 (V3 1 0 0) (V3 0 1 0) (V3 0 0 1).
Definition Zero3 : Vector3d := V3 0 0 0.

(** [Eigen::Vector2d::norm()] *)
Definition norm2 (x y : R) : R := sqrt (x * x + y * y).

(** [pinocchio::SE3]: a rotation and a translation. *)
Record SE3 : Type := mkSE3 { rotation : Matrix3d; translation : Vector3d }.

(** [pinocchio::Force]: a spatial force, linear part then angular part. *)
Record Force : Type := mkForce { linear : Vector3d; angular : Vector3d }.

Definition Force_Zero : Force := mkForce Zero3 Zero3.
Definition Force_add (a b : Force) : Force :=
  mkForce (V3 (c0 (linear a) + c0 (linear b)) (c1 (linear a) + c1 (linear b))
              (c2 (linear a) + c2 (linear b)))
          (V3 (c0 (angular a) + c0 (angular b)) (c1 (angular a) + c1 (angular b))
              (c2 (angular a) + c2 (angular b))).
(** [pinocchio::Force(v)] for a vector of six entries. *)
Definition Force_of_vector (v : vectorN_t) : Force :=
  mkForce (V3 (coeff v 0) (coeff v 1) (coeff v 2))
          (V3 (coeff v 3) (coeff v 4) (coeff v 5)).
(** The six entries [head<3>()] then [tail<3>()] of a [vectorN_t]. *)
Definition vector6 (h t : Vector3d) : vectorN_t :=
  [c0 h; c1 h; c2 h; c0 t; c1 t; c2 t].

(** ** Options: the typed views of [Engine.h], as [Engine.cc] reads them *)

Record contactOptions_t : Type := {
  frictionViscous : R;
  frictionDry : R;
  dryFrictionVelEps : R;
  stiffness : R;
  damping : R;
  transitionEps : R
}.

Record jointOptions_t : Type := {
  boundStiffness : R;
  boundDamping : R;
  boundTransitionEps : R
}.

Record worldOptions_t : Type := { gravity : vectorN_t }.

Record stepperOptions_t : Type := {
  randomSeed : Z;
  tolAbs : R;
  tolRel : R;
  sensorsUpdatePeriod : R;
  controllerUpdatePeriod : R
}.

Record telemetryOptions_t : Type := {
  logConfiguration : bool;
  logVelocity : bool;
  logAcceleration : bool;
  logCommand : bool
}.

Record engineOptions_t : Type := {
  telemetry : telemetryOptions_t;
  stepper : stepperOptions_t;
  world : worldOptions_t;
  joints : jointOptions_t;
  contacts : contactOptions_t
}.

(** ** The rigid-body model ([Model.h]) and the collaborators *)

(** [pinocchio::Frame], the two members the engine reads. *)
Record Frame : Type := { parent : Z; placement : SE3 }.

(** [pinocchio::Model], the members the engine reads or writes. *)
Record pinocchio_Model : Type := {
  pnc_gravity : vectorN_t;
  effortLimit : vectorN_t;
  frames : list Frame;
  njoints : nat
}.

Definition frame_at (pm : pinocchio_Model) (i : Z) : Frame :=
  if (i <? 0)%Z then {| parent := 0; placement := mkSE3 Identity3 Zero3 |}
  else nth (Z.to_nat i) (frames pm)
           {| parent := 0; placement := mkSE3 Identity3 Zero3 |}.

(** The rigid-body library: its workspace [pinocchio::Data] and the
    algorithms the engine calls.  Each algorithm that writes to the
    workspace returns the new one. *)
Class Pinocchio : Type := {
  Data : Type;
  Data_new : pinocchio_Model -> Data;
  oMf : Data -> Z -> SE3;
  getFrameVelocity_linear : pinocchio_Model -> Data -> Z -> Vector3d;
  forwardKinematics :
    pinocchio_Model -> Data -> vectorN_t -> vectorN_t -> Data;
  framesForwardKinematics : pinocchio_Model -> Data -> Data;
  aba : pinocchio_Model -> Data -> vectorN_t -> vectorN_t -> vectorN_t ->
        list Force -> Data * vectorN_t;
  rnea : pinocchio_Model -> Data -> vectorN_t -> vectorN_t -> vectorN_t ->
         Data * vectorN_t;
  integrate : pinocchio_Model -> vectorN_t -> vectorN_t -> vectorN_t;
  kineticEnergy : pinocchio_Model -> Data -> vectorN_t -> vectorN_t -> Data * R;
  potentialEnergy : pinocchio_Model -> Data -> vectorN_t -> Data * R
}.

(** The sensor registry held by the model. *)
Class SensorRegistry : Type := {
  sensorsGroupHolder_t : Type;
  sensors_setData : sensorsGroupHolder_t -> R -> vectorN_t -> vectorN_t ->
                    vectorN_t -> vectorN_t -> sensorsGroupHolder_t;
  sensors_reset : sensorsGroupHolder_t -> sensorsGroupHolder_t;
  sensors_telemetry : sensorsGroupHolder_t -> list R
}.

(** [Model::jointOptions_t] *)
Record Model_jointOptions_t : Type := {
  boundsFromUrdf : bool;
  boundsMin : vectorN_t;
  boundsMax : vectorN_t
}.

(** The outcome of a call that may throw: its result, or the state [W] it
    leaves behind when it throws; [OutOfFuel] when the model of a loop was
    given too little fuel to reach either. *)
Inductive outcome (W A : Type) : Type :=
| Returned (a : A)
| Thrown (w : W)
| OutOfFuel.
Arguments Returned {W A} a.
Arguments Thrown {W A} w.
Arguments OutOfFuel {W A}.

Section EngineModel.
Context `{Pin : Pinocchio} `{Sen : SensorRegistry}.

(** [class Model] *)
Record Model : Type := mkModel {
  pncModel_ : pinocchio_Model;
  pncData_ : Data;
  mdlOptions_joints : Model_jointOptions_t;
  contactForces_ : list Force;
  Model_isInitialized_ : bool;
  sensorsGroupHolder_ : sensorsGroupHolder_t;
  contactFramesIdx_ : list Z;
  jointsPositionIdx_ : list Z;
  jointsVelocityIdx_ : list Z;
  nq_ : nat;
  nv_ : nat;
  nx_ : nat
}.

Definition nq (m : Model) : nat := nq_ m.
Definition nv (m : Model) : nat := nv_ m.
Definition nx (m : Model) : nat := nx_ m.

Definition Model_with_pncData (m : Model) (d : Data) : Model :=
  mkModel (pncModel_ m) d (mdlOptions_joints m) (contactForces_ m)
          (Model_isInitialized_ m) (sensorsGroupHolder_ m) (contactFramesIdx_ m)
          (jointsPositionIdx_ m) (jointsVelocityIdx_ m) (nq_ m) (nv_ m) (nx_ m).
Definition Model_with_contactForces (m : Model) (f : list Force) : Model :=
  mkModel (pncModel_ m) (pncData_ m) (mdlOptions_joints m) f
          (Model_isInitialized_ m) (sensorsGroupHolder_ m) (contactFramesIdx_ m)
          (jointsPositionIdx_ m) (jointsVelocityIdx_ m) (nq_ m) (nv_ m) (nx_ m).
Definition Model_with_sensors (m : Model) (s : sensorsGroupHolder_t) : Model :=
  mkModel (pncModel_ m) (pncData_ m) (mdlOptions_joints m) (contactForces_ m)
          (Model_isInitialized_ m) s (contactFramesIdx_ m)
          (jointsPositionIdx_ m) (jointsVelocityIdx_ m) (nq_ m) (nv_ m) (nx_ m).
(** [model.pncModel_.gravity = g] *)
Definition Model_with_gravity (m : Model) (g : vectorN_t) : Model :=
  mkModel {| pnc_gravity := g; effortLimit := effortLimit (pncModel_ m);
             frames := frames (pncModel_ m); njoints := njoints (pncModel_ m) |}
          (pncData_ m) (mdlOptions_joints m) (contactForces_ m)
          (Model_isInitialized_ m) (sensorsGroupHolder_ m) (contactFramesIdx_ m)
          (jointsPositionIdx_ m) (jointsVelocityIdx_ m) (nq_ m) (nv_ m) (nx_ m).

(** [Model::setSensorsData] *)
Definition setSensorsData (m : Model) (t : R) (q v a u : vectorN_t) : Model :=
  Model_with_sensors m (sensors_setData (sensorsGroupHolder_ m) t q v a u).

(** ** [Engine::contactDynamics] *)

(** The normal force [fextInWorld(2)] of a penetrating frame. *)
Definition contact_normalForce (contactOptions_ : contactOptions_t)
    (posFrame vFrameInWorld : Vector3d) : R :=
  let damping :=
    if Rltb (c2 vFrameInWorld) 0
    then - damping contactOptions_ * c2 vFrameInWorld
    else 0 in
  - stiffness contactOptions_ * c2 posFrame + damping.

(** The local [frictionCoeff] as a function of [vNorm]. *)
Definition contact_frictionCoeff (contactOptions_ : contactOptions_t)
    (vNorm : R) : R :=
  if Rgtb vNorm (dryFrictionVelEps contactOptions_) then
    if Rltb vNorm (1.5 * dryFrictionVelEps contactOptions_) then
      -2.0 * vNorm * (frictionDry contactOptions_ - frictionViscous contactOptions_)
        / dryFrictionVelEps contactOptions_
      + 3.0 * frictionDry contactOptions_
      - 2.0 * frictionViscous contactOptions_
    else frictionViscous contactOptions_
  else vNorm * frictionDry contactOptions_ / dryFrictionVelEps contactOptions_.

(** The local [fextInWorld] once the three components are set and the
    tangential ones limited to 1e5 N. *)
Definition contact_fextInWorld (contactOptions_ : contactOptions_t)
    (posFrame vFrameInWorld : Vector3d) : Vector3d :=
  let fz := contact_normalForce contactOptions_ posFrame vFrameInWorld in
  let vxy0 := c0 vFrameInWorld in
  let vxy1 := c1 vFrameInWorld in
  let vNorm := norm2 vxy0 vxy1 in
  let frictionCoeff := contact_frictionCoeff contactOptions_ vNorm in
  let fx := - vxy0 * frictionCoeff * fz in
  let fy := - vxy1 * frictionCoeff * fz in
  let limit := fun x : R => Rmin (Rmax x (-1e5)) 1e5 in
  V3 (limit fx) (limit fy) fz.

Definition contactDynamics (engineOptions_ : engineOptions_t) (model_ : Model)
    (frameId : Z) : vectorN_t :=
  let contactOptions_ := contacts engineOptions_ in
  let tformFrameRot := rotation (oMf (pncData_ model_) frameId) in
  let posFrame := translation (oMf (pncData_ model_) frameId) in
  if Rltb (c2 posFrame) 0.0 then
    let tformFrameJointRot :=
      rotation (placement (frame_at (pncModel_ model_) frameId)) in
    let posFrameJoint :=
      translation (placement (frame_at (pncModel_ model_) frameId)) in
    let motionFrame :=
      getFrameVelocity_linear (pncModel_ model_) (pncData_ model_) frameId in
    let vFrameInWorld := mulMV tformFrameRot motionFrame in
    let fextInWorld := contact_fextInWorld contactOptions_ posFrame vFrameInWorld in
    let fextLocal_head :=
      mulMV (mulMM tformFrameJointRot (transpose tformFrameRot)) fextInWorld in
    let fextLocal_tail := cross posFrameJoint fextLocal_head in
    let blendingFactor := - c2 posFrame / transitionEps contactOptions_ in
    let blendingLaw := tanh (2 * blendingFactor) in
    vscale (vector6 fextLocal_head fextLocal_tail) blendingLaw
  else Zero 6.

(** ** [Engine::boundsDynamics] *)

(** One pass of the loop body: the blended [forceJoint]. *)
Definition bounds_forceJoint (engineJointOptions_ : jointOptions_t)
    (qJoint vJoint qJointMin qJointMax : R) : R :=
  let '(forceJoint, qJointError) :=
    if Rgtb qJoint qJointMax then
      let qJointError := qJoint - qJointMax in
      let damping := - boundDamping engineJointOptions_ * Rmax vJoint 0.0 in
      (- boundStiffness engineJointOptions_ * qJointError + damping, qJointError)
    else if Rltb qJoint qJointMin then
      let qJointError := qJointMin - qJoint in
      let damping := - boundDamping engineJointOptions_ * Rmin vJoint 0.0 in
      (boundStiffness engineJointOptions_ * qJointError + damping, qJointError)
    else (0, 0) in
  let blendingFactor := qJointError / boundTransitionEps engineJointOptions_ in
  let blendingLaw := tanh (2 * blendingFactor) in
  forceJoint * blendingLaw.

Definition boundsDynamics (engineOptions_ : engineOptions_t) (model_ : Model)
    (q v : vectorN_t) : vectorN_t :=
  let mdlJointOptions_ := mdlOptions_joints model_ in
  let engineJointOptions_ := joints engineOptions_ in
  let jointsPositionIdx := jointsPositionIdx_ model_ in
  let jointsVelocityIdx := jointsVelocityIdx_ model_ in
  fold_left
    (fun (u : vectorN_t) (i : nat) =>
       let qJoint := coeff q (nth i jointsPositionIdx 0%Z) in
       let vJoint := coeff v (nth i jointsVelocityIdx 0%Z) in
       let qJointMin := coeff (boundsMin mdlJointOptions_) (Z.of_nat i) in
       let qJointMax := coeff (boundsMax mdlJointOptions_) (Z.of_nat i) in
       add_at u (nth i jointsVelocityIdx 0%Z)
              (bounds_forceJoint engineJointOptions_ qJoint vJoint qJointMin qJointMax))
    (seq 0 (length jointsPositionIdx))
    (Zero (nv model_)).

(** ** The stepper state, the controller and the error-controlled stepper *)

(** Modelled from the spec: [stepperState_t] is declared in [Engine.h],
    which is not part of the sources at hand.  It holds the current ODE
    state [x], its derivative, the three force vectors of the dynamics and
    the last published snapshot [(t, q, v, a, u, u_cmd, E, iter)], the
    snapshot being written only after an integrator step. *)
Record stepperState_t : Type := mkStepperState {
  iterLast : Z;
  tLast : R;
  qLast : vectorN_t;
  vLast : vectorN_t;
  aLast : vectorN_t;
  uLast : vectorN_t;
  uCommandLast : vectorN_t;
  energyLast : R;
  x : vectorN_t;
  dxdt : vectorN_t;
  uControl : vectorN_t;
  uInternal : vectorN_t;
  uBounds : vectorN_t
}.

Definition to_uint32 (z : Z) : Z := (z mod 2 ^ 32)%Z.

(** Modelled from the spec: [stepperState_t::initialize(model)], every
    buffer zero at the size the model gives and the iteration count 0. *)
Definition stepperState_initialize (model : Model) : stepperState_t :=
  mkStepperState 0 0 (Zero (nq model)) (Zero (nv model)) (Zero (nv model))
    (Zero (nv model)) (Zero (length (jointsVelocityIdx_ model))) 0
    (Zero (nx model)) (Zero (nx model))
    (Zero (nv model)) (Zero (nv model)) (Zero (nv model)).

(** Modelled from the spec: [stepperState_t::initialize(model, x_init)],
    the same with the state and the snapshot taken from [x_init]. *)
Definition stepperState_initialize_x (model : Model) (x_init : vectorN_t)
  : stepperState_t :=
  let s := stepperState_initialize model in
  mkStepperState (iterLast s) (tLast s)
    (head (nq model) x_init) (tail (nv model) x_init) (aLast s) (uLast s)
    (uCommandLast s) (energyLast s) x_init (dxdt s)
    (uControl s) (uInternal s) (uBounds s).

(** Modelled from the spec: [stepperState_t::updateLast], which stores the
    snapshot and counts one more iteration. *)
Definition updateLast (s : stepperState_t) (t : R) (q v a u uCommand : vectorN_t)
    (energy : R) : stepperState_t :=
  mkStepperState (to_uint32 (iterLast s + 1)) t q v a u uCommand energy
    (x s) (dxdt s) (uControl s) (uInternal s) (uBounds s).

Definition with_uCommandLast (s : stepperState_t) (u : vectorN_t) :=
  mkStepperState (iterLast s) (tLast s) (qLast s) (vLast s) (aLast s) (uLast s)
    u (energyLast s) (x s) (dxdt s) (uControl s) (uInternal s) (uBounds s).
Definition with_uControl (s : stepperState_t) (u : vectorN_t) :=
  mkStepperState (iterLast s) (tLast s) (qLast s) (vLast s) (aLast s) (uLast s)
    (uCommandLast s) (energyLast s) (x s) (dxdt s) u (uInternal s) (uBounds s).
Definition with_uInternal (s : stepperState_t) (u : vectorN_t) :=
  mkStepperState (iterLast s) (tLast s) (qLast s) (vLast s) (aLast s) (uLast s)
    (uCommandLast s) (energyLast s) (x s) (dxdt s) (uControl s) u (uBounds s).
Definition with_uBounds (s : stepperState_t) (u : vectorN_t) :=
  mkStepperState (iterLast s) (tLast s) (qLast s) (vLast s) (aLast s) (uLast s)
    (uCommandLast s) (energyLast s) (x s) (dxdt s) (uControl s) (uInternal s) u.
Definition with_uLast (s : stepperState_t) (u : vectorN_t) :=
  mkStepperState (iterLast s) (tLast s) (qLast s) (vLast s) (aLast s) u
    (uCommandLast s) (energyLast s) (x s) (dxdt s) (uControl s) (uInternal s)
    (uBounds s).
Definition with_x (s : stepperState_t) (x' : vectorN_t) :=
  mkStepperState (iterLast s) (tLast s) (qLast s) (vLast s) (aLast s) (uLast s)
    (uCommandLast s) (energyLast s) x' (dxdt s) (uControl s) (uInternal s)
    (uBounds s).
Definition with_dxdt (s : stepperState_t) (d : vectorN_t) :=
  mkStepperState (iterLast s) (tLast s) (qLast s) (vLast s) (aLast s) (uLast s)
    (uCommandLast s) (energyLast s) (x s) d (uControl s) (uInternal s)
    (uBounds s).

(** [AbstractController]: the command and the internal dynamics write
    the vector they are handed; [controller_t] is whatever state the
    controller keeps. *)
Class AbstractController : Type := {
  controller_t : Type;
  compute_command : controller_t -> Model -> R -> vectorN_t -> vectorN_t ->
                    vectorN_t -> controller_t * vectorN_t;
  internalDynamics : controller_t -> Model -> R -> vectorN_t -> vectorN_t ->
                     vectorN_t -> controller_t * vectorN_t;
  controller_reset : controller_t -> controller_t
}.

(** [boost::numeric::odeint::controlled_step_result] *)
Inductive controlled_step_result : Set := success | fail.

(** One call of [try_step]: the stepper evaluates the right-hand side a
    finite number of times, each time at a state and a time of its
    choice, and ends with its verdict and the new values of the four
    references [x], [dxdt], [t] and [dt]. *)
Inductive StepperProg : Type :=
| step_done (res : controlled_step_result) (x dxdt : vectorN_t) (t dt : R)
| step_rhs (x : vectorN_t) (t : R) (k : vectorN_t -> StepperProg).

(** [make_controlled(tolAbs, tolRel, stepper_t())] *)
Class ControlledStepper : Type := {
  try_step : R -> R -> vectorN_t -> vectorN_t -> R -> R -> StepperProg
}.

(** [configHolder_t] and the constructor of the typed view
    [engineOptions_t(configHolder_t const &)], which throws when a key is
    absent or holds a value of another type ([None]). *)
Class ConfigHolder : Type := {
  configHolder_t : Type;
  engineOptions_t_ctor : configHolder_t -> option engineOptions_t
}.

Context `{Ctl : AbstractController} `{Stp : ControlledStepper}
        `{Cfg : ConfigHolder}.

(** One row of the telemetry recorder: the time and the channels that the
    telemetry flags select. *)
Record telemetryRow : Type := mkRow {
  row_time : R;
  row_q : option vectorN_t;
  row_v : option vectorN_t;
  row_a : option vectorN_t;
  row_uCommand : option vectorN_t;
  row_energy : R;
  row_sensors : list R
}.

(** [class Engine]; the telemetry sender, data and recorder are the rows
    recorded so far, oldest first. *)
Record Engine : Type := mkEngine {
  engineOptions_ : engineOptions_t;
  isInitialized_ : bool;
  engineOptionsHolder_ : configHolder_t;
  callbackFct_ : R -> vectorN_t -> bool;
  telemetryRecorder_ : list telemetryRow;
  stepperState_ : stepperState_t
}.

(** The engine together with the objects it borrows: [*model_],
    [*controller_], and the seed of the random generators. *)
Record World : Type := mkWorld {
  engine : Engine;
  model_ : Model;
  controller_ : controller_t;
  randGenerators : Z
}.

Definition Engine_with_stepperState (e : Engine) (s : stepperState_t) : Engine :=
  mkEngine (engineOptions_ e) (isInitialized_ e) (engineOptionsHolder_ e)
           (callbackFct_ e) (telemetryRecorder_ e) s.
Definition Engine_with_telemetry (e : Engine) (l : list telemetryRow) : Engine :=
  mkEngine (engineOptions_ e) (isInitialized_ e) (engineOptionsHolder_ e)
           (callbackFct_ e) l (stepperState_ e).
Definition with_stepperState (w : World) (s : stepperState_t) : World :=
  mkWorld (Engine_with_stepperState (engine w) s) (model_ w) (controller_ w)
          (randGenerators w).
Definition with_telemetry (w : World) (l : list telemetryRow) : World :=
  mkWorld (Engine_with_telemetry (engine w) l) (model_ w) (controller_ w)
          (randGenerators w).
Definition with_model (w : World) (m : Model) : World :=
  mkWorld (engine w) m (controller_ w) (randGenerators w).
Definition with_controller (w : World) (c : controller_t) : World :=
  mkWorld (engine w) (model_ w) c (randGenerators w).

(** ** [Engine::setOptions] *)

Definition setOptions (w : World) (engineOptions : configHolder_t)
  : outcome World World :=
  let e := engine w in
  let e := mkEngine (engineOptions_ e) (isInitialized_ e) engineOptions
                    (callbackFct_ e) (telemetryRecorder_ e) (stepperState_ e) in
  match engineOptions_t_ctor engineOptions with
  | None => Thrown (mkWorld e (model_ w) (controller_ w) (randGenerators w))
  | Some o =>
      let e := mkEngine o (isInitialized_ e) (engineOptionsHolder_ e)
                        (callbackFct_ e) (telemetryRecorder_ e) (stepperState_ e) in
      let m := if isInitialized_ e
               then Model_with_gravity (model_ w) (gravity (world o))
               else model_ w in
      Returned (mkWorld e m (controller_ w) (randGenerators w))
  end.

(** [Engine::getOptions] *)
Definition getOptions (w : World) : configHolder_t :=
  engineOptionsHolder_ (engine w).

(** ** [Engine::systemDynamics] *)

(** The saturation loop that follows each call of [compute_command], in
    [simulate] and in [systemDynamics] alike: entry [i] of the command is
    limited by the effort limit of its joint and copied to the row of the
    joint in [uControl].  [saturate_step] is the body of the loop. *)
Definition saturate_step (model : Model) (s : stepperState_t) (i : nat)
  : stepperState_t :=
  let jointId := to_uint32 (nth i (jointsVelocityIdx_ model) 0%Z) in
  let torque_max := coeff (effortLimit (pncModel_ model)) jointId in
  let ui := clamp (nth i (uCommandLast s) 0) (- torque_max) torque_max in
  let s := with_uCommandLast s (<[i := ui]> (uCommandLast s)) in
  with_uControl s (set_at (uControl s) jointId ui).

Definition saturateCommand (model : Model) (s : stepperState_t)
  : stepperState_t :=
  fold_left (saturate_step model) (seq 0 (length (jointsVelocityIdx_ model))) s.

(** The loop over the contact frames: the export buffer
    [model_->contactForces_] and the accumulator [fext]. *)
Definition contactForcesLoop (engineOptions : engineOptions_t) (model : Model)
  : list Force * list Force :=
  let contactFramesIdx := contactFramesIdx_ model in
  fold_left
    (fun (acc : list Force * list Force) (i : nat) =>
       let '(contactForces, fext) := acc in
       let contactFrameIdx := nth i contactFramesIdx 0%Z in
       let f := Force_of_vector (contactDynamics engineOptions model contactFrameIdx) in
       let contactForces := <[i := f]> contactForces in
       let parentIdx := parent (frame_at (pncModel_ model) contactFrameIdx) in
       let fext :=
         if (parentIdx <? 0)%Z then fext
         else alter (fun g => Force_add g f) (Z.to_nat parentIdx) fext in
       (contactForces, fext))
    (seq 0 (length contactFramesIdx))
    (contactForces_ model, replicate (njoints (pncModel_ model)) Force_Zero).

Definition systemDynamics (w : World) (t : R) (x : vectorN_t)
  : World * vectorN_t :=
  let opts := engineOptions_ (engine w) in
  let model := model_ w in
  let q := head (nq model) x in
  let v := tail (nv model) x in
  (* kinematics *)
  let data := forwardKinematics (pncModel_ model) (pncData_ model) q v in
  let data := framesForwardKinematics (pncModel_ model) data in
  let model := Model_with_pncData model data in
  (* external forces *)
  let '(contactForces, fext) := contactForcesLoop opts model in
  let model := Model_with_contactForces model contactForces in
  let s := stepperState_ (engine w) in
  (* sensors, for an infinite update frequency *)
  let model :=
    if Rltb (sensorsUpdatePeriod (stepper opts)) epsilon
    then setSensorsData model t q v (aLast s) (uLast s)
    else model in
  (* command, for an infinite update frequency *)
  let '(ctrl, s) :=
    if Rltb (controllerUpdatePeriod (stepper opts)) epsilon
    then
      let '(ctrl, u) :=
        compute_command (controller_ w) model t q v (uCommandLast s) in
      (ctrl, saturateCommand model (with_uCommandLast s u))
    else (controller_ w, s) in
  (* internal dynamics and bounds *)
  let '(ctrl, uInt) := internalDynamics ctrl model t q v (uInternal s) in
  let s := with_uInternal s uInt in
  let s := with_uBounds s (boundsDynamics opts model q v) in
  let u := vadd (vadd (uBounds s) (uInternal s)) (uControl s) in
  (* dynamics *)
  let '(data, a) := aba (pncModel_ model) (pncData_ model) q v u fext in
  let model := Model_with_pncData model data in
  let dt := Rmax 1e-5 (t - tLast s) in
  let qNext := integrate (pncModel_ model) q (vscale v dt) in
  let qDot := vdiv (vsub qNext q) dt in
  (mkWorld (Engine_with_stepperState (engine w) s) model ctrl (randGenerators w),
   qDot ++ a).

(** A call of [try_step] with [rhsBind] as the system: every evaluation
    of the right-hand side is a call of [systemDynamics] on the engine. *)
Fixpoint run_try_step (p : StepperProg) (w : World)
  : World * (controlled_step_result * vectorN_t * vectorN_t * R * R) :=
  match p with
  | step_done res x' dxdt' t' dt' => (w, (res, x', dxdt', t', dt'))
  | step_rhs x t k =>
      let '(w, d) := systemDynamics w t x in
      run_try_step (k d) w
  end.

(** ** [Engine::simulate] *)

(** The outer break-point period [updatePeriod]. *)
Definition updatePeriod_of (o : stepperOptions_t) : R :=
  if Rltb (sensorsUpdatePeriod o) epsilon then controllerUpdatePeriod o
  else if Rltb (controllerUpdatePeriod o) epsilon then sensorsUpdatePeriod o
  else Rmin (sensorsUpdatePeriod o) (controllerUpdatePeriod o).

(** The initial time step. *)
Definition initial_dt (updatePeriod : R) : R :=
  if Rgtb updatePeriod 0 then updatePeriod else 5e-4.

(** The variables local to the integration loop; [fail_checker] is the
    count of consecutive failed steps. *)
Record locals : Type := mkLocals {
  dt : R;
  current_time : R;
  next_time : R;
  fail_checker : nat
}.

(** The head of the loop: the telemetry row for the last snapshot. *)
Definition flushDataSnapshot (w : World) : World :=
  let e := engine w in
  let tel := telemetry (engineOptions_ e) in
  let s := stepperState_ e in
  let gate (b : bool) (v : vectorN_t) := if b then Some v else None in
  with_telemetry w
    (telemetryRecorder_ e ++
     [mkRow (tLast s)
            (gate (logConfiguration tel) (qLast s))
            (gate (logVelocity tel) (vLast s))
            (gate (logAcceleration tel) (aLast s))
            (gate (logCommand tel) (uCommandLast s))
            (energyLast s)
            (sensors_telemetry (sensorsGroupHolder_ (model_ w)))]).

(** The condition of the [break]. *)
Definition stop_condition (end_time : R) (w : World) (l : locals) : bool :=
  Rltb (Rabs (end_time - current_time l)) epsilon
  || negb (callbackFct_ (engine w) (current_time l) (x (stepperState_ (engine w))))
  || (100000 <=? iterLast (stepperState_ (engine w)))%Z.

(** [stepper.try_step(rhsBind, stepperState_.x, stepperState_.dxdt, t, dt)] *)
Definition call_try_step (w : World) (t dt : R)
  : World * (controlled_step_result * R * R) :=
  let o := stepper (engineOptions_ (engine w)) in
  let s := stepperState_ (engine w) in
  let '(w, (res, x', dxdt', t', dt')) :=
    run_try_step (try_step (tolAbs o) (tolRel o) (x s) (dxdt s) t dt) w in
  (with_stepperState w (with_dxdt (with_x (stepperState_ (engine w)) x') dxdt'),
   (res, t', dt')).

(** [failed_step_checker::operator()]: throws once 500 steps failed. *)
Definition fail_checker_call (n : nat) : option nat :=
  if (500 <=? n)%nat then None else Some (S n).

(** The sensor and controller updates at a break-point. *)
Definition breakpoint_updates (w : World) (l : locals) : World :=
  let o := stepper (engineOptions_ (engine w)) in
  let w :=
    if Rgtb (sensorsUpdatePeriod o) 0 then
      let next_time_update_sensor :=
        round (current_time l / sensorsUpdatePeriod o) * sensorsUpdatePeriod o in
      if Rltb (Rabs (current_time l - next_time_update_sensor)) 1e-8 then
        let s := stepperState_ (engine w) in
        with_model w (setSensorsData (model_ w) (tLast s) (qLast s) (vLast s)
                                     (aLast s) (uLast s))
      else w
    else w in
  if Rgtb (controllerUpdatePeriod o) 0 then
    let next_time_update_controller :=
      round (current_time l / controllerUpdatePeriod o) * controllerUpdatePeriod o in
    if Rltb (Rabs (current_time l - next_time_update_controller)) 1e-8 then
      let s := stepperState_ (engine w) in
      let '(ctrl, u) :=
        compute_command (controller_ w) (model_ w) (tLast s) (qLast s) (vLast s)
                        (uCommandLast s) in
      let s := saturateCommand (model_ w) (with_uCommandLast s u) in
      let w := with_stepperState (with_controller w ctrl) s in
      let '(w, d) := systemDynamics w (current_time l) (x s) in
      with_stepperState w (with_dxdt (stepperState_ (engine w)) d)
    else w
  else w.

(** [while (current_time < next_time)] *)
Fixpoint breakpoint_steps (fuel : nat) (w : World) (l : locals)
  : outcome World (World * locals) :=
  match fuel with
  | O => OutOfFuel
  | S fuel =>
      if Rltb (current_time l) (next_time l) then
        let current_dt := Rmin (dt l) (next_time l - current_time l) in
        let '(w, (res, t', dt')) := call_try_step w (current_time l) current_dt in
        match res with
        | success =>
            breakpoint_steps fuel w (mkLocals (Rmax (dt l) dt') t' (next_time l) 0)
        | fail =>
            match fail_checker_call (fail_checker l) with
            | None => Thrown w
            | Some n => breakpoint_steps fuel w (mkLocals dt' t' (next_time l) n)
            end
        end
      else Returned (w, l)
  end.

(** [while (res == fail)] *)
Fixpoint free_steps (fuel : nat) (w : World) (l : locals)
  : outcome World (World * locals) :=
  match fuel with
  | O => OutOfFuel
  | S fuel =>
      let '(w, (res, t', dt')) := call_try_step w (current_time l) (dt l) in
      match res with
      | success => Returned (w, mkLocals dt' t' (next_time l) 0)
      | fail =>
          match fail_checker_call (fail_checker l) with
          | None => Thrown w
          | Some n => free_steps fuel w (mkLocals dt' t' (next_time l) n)
          end
      end
  end.

(** The update of the snapshot that ends an iteration. *)
Definition update_internal_state (w : World) (l : locals) : World :=
  let model := model_ w in
  let s := stepperState_ (engine w) in
  let q := head (nq model) (x s) in
  let v := tail (nv model) (x s) in
  let a := tail (nv model) (dxdt s) in
  let '(data, u) := rnea (pncModel_ model) (pncData_ model) q v a in
  let s := with_uLast s u in
  let '(data, ek) := kineticEnergy (pncModel_ model) data q v in
  let '(data, ep) := potentialEnergy (pncModel_ model) data q in
  let energy := ek + ep in
  let s := updateLast s (current_time l) q v a (uLast s) (uCommandLast s) energy in
  with_stepperState (with_model w (Model_with_pncData model data)) s.

(** One iteration of [while (true)] past the [break]. *)
Definition loop_body (fuel : nat) (end_time updatePeriod : R) (w : World)
    (l : locals) : outcome World (World * locals) :=
  let r :=
    if Rgtb updatePeriod 0 then
      let current_time' := next_time l in
      let next_time' :=
        next_time l + Rmin updatePeriod (end_time - current_time') in
      let l := mkLocals (dt l) current_time' next_time' (fail_checker l) in
      breakpoint_steps fuel (breakpoint_updates w l) l
    else
      let l := mkLocals (Rmin (dt l) (end_time - current_time l))
                        (current_time l) (next_time l) (fail_checker l) in
      free_steps fuel w l in
  match r with
  | Returned (w, l) => Returned (update_internal_state w l, l)
  | Thrown w => Thrown w
  | OutOfFuel => OutOfFuel
  end.

(** [while (true)] *)
Fixpoint integration_loop (fuel : nat) (end_time updatePeriod : R) (w : World)
    (l : locals) : outcome World (World * locals) :=
  match fuel with
  | O => OutOfFuel
  | S fuel =>
      let w := flushDataSnapshot w in
      if stop_condition end_time w l then Returned (w, l)
      else
        match loop_body fuel end_time updatePeriod w l with
        | Returned (w, l) => integration_loop fuel end_time updatePeriod w l
        | Thrown w => Thrown w
        | OutOfFuel => OutOfFuel
        end
  end.

(** The world on entry of the integration loop: random generators,
    model, controller and stepper state reset, the first derivative
    computed, the recorder emptied. *)
Definition simulate_setup (w : World) (x_init : vectorN_t) : World :=
  let o := engineOptions_ (engine w) in
  let model := model_ w in
  let model := Model_with_sensors model (sensors_reset (sensorsGroupHolder_ model)) in
  let model := Model_with_pncData model (Data_new (pncModel_ model)) in
  let w := mkWorld (engine w) model (controller_reset (controller_ w))
                   (randomSeed (stepper o)) in
  let w := with_stepperState w (stepperState_initialize_x model x_init) in
  let '(w, d) := systemDynamics w 0 (x (stepperState_ (engine w))) in
  let w := with_stepperState w (with_dxdt (stepperState_ (engine w)) d) in
  with_telemetry w [].

Definition simulate (fuel : nat) (w : World) (x_init : vectorN_t) (end_time : R)
  : outcome World (result_t * World) :=
  if negb (isInitialized_ (engine w)) then Returned (ERROR_INIT_FAILED, w)
  else if negb (length x_init =? nx (model_ w))%nat
  then Returned (ERROR_BAD_INPUT, w)
  else if Rltb end_time 5e-2 then Returned (ERROR_BAD_INPUT, w)
  else
    let updatePeriod := updatePeriod_of (stepper (engineOptions_ (engine w))) in
    let l := mkLocals (initial_dt updatePeriod) 0 0 0 in
    match integration_loop fuel end_time updatePeriod (simulate_setup w x_init) l with
    | Returned (w, _) => Returned (SUCCESS, w)
    | Thrown w => Thrown w
    | OutOfFuel => OutOfFuel
    end.

(** ** Vocabulary of the properties *)

(** The effort limit that the saturation loop reads for motor [i]. *)
Definition torque_max_of (m : Model) (i : nat) : R :=
  coeff (effortLimit (pncModel_ m)) (to_uint32 (nth i (jointsVelocityIdx_ m) 0%Z)).

(** A command vector within the effort limits of the model. *)
Definition cmd_saturated (m : Model) (u : vectorN_t) : Prop :=
  length u = length (jointsVelocityIdx_ m)
  /\ forall i, (i < length (jointsVelocityIdx_ m))%nat ->
       Rabs (nth i u 0) <= torque_max_of m i.

(** The first [k] passes of the saturation loop. *)
Definition saturate_prefix (model : Model) (k : nat) (s : stepperState_t)
  : stepperState_t :=
  fold_left (saturate_step model) (seq 0 k) s.

(** [stable w w']: from [w] to [w'] the iteration count, the recorded
    rows, the options, the callback, the motor rows and the effort limits
    did not change. *)
Definition stable (w w' : World) : Prop :=
  iterLast (stepperState_ (engine w')) = iterLast (stepperState_ (engine w))
  /\ telemetryRecorder_ (engine w') = telemetryRecorder_ (engine w)
  /\ engineOptions_ (engine w') = engineOptions_ (engine w)
  /\ callbackFct_ (engine w') = callbackFct_ (engine w)
  /\ jointsVelocityIdx_ (model_ w') = jointsVelocityIdx_ (model_ w)
  /\ effortLimit (pncModel_ (model_ w')) = effortLimit (pncModel_ (model_ w)).

(** The world an outcome leaves behind, when there is one. *)
Definition outcome_world {A} (r : outcome World (World * A)) : option World :=
  match r with
  | Returned (w, _) => Some w
  | Thrown w => Some w
  | OutOfFuel => None
  end.

(** The motors of [m] are those of [m0], with the same effort limits. *)
Definition same_motors (m0 m : Model) : Prop :=
  jointsVelocityIdx_ m = jointsVelocityIdx_ m0
  /\ effortLimit (pncModel_ m) = effortLimit (pncModel_ m0).

(** The stored command of [w] is within the effort limits of [m0], whose
    motors the model of [w] has. *)
Definition cmd_inv (m0 : Model) (w : World) : Prop :=
  same_motors m0 (model_ w)
  /\ cmd_saturated m0 (uCommandLast (stepperState_ (engine w))).

(** Every command recorded by the telemetry is within the effort limits
    of [m0]. *)
Definition rows_saturated (m0 : Model) (w : World) : Prop :=
  Forall (fun row => forall u, row_uCommand row = Some u -> cmd_saturated m0 u)
         (telemetryRecorder_ (engine w)).

(** The controller contract: a command has one entry for each motor. *)
Definition command_sized : Prop :=
  forall c m t q v u,
    length (snd (compute_command c m t q v u)) = length (jointsVelocityIdx_ m).

(** A run of the integration loop: [loop_run e p w l n w' l'] when the
    loop entered with [w] and [l] leaves by its [break] with [w'] and [l']
    after [n] complete iterations; the condition of the [break] is false
    at the head of each of them and true at the head that follows the
    last. *)
Inductive loop_run (end_time updatePeriod : R)
  : World -> locals -> nat -> World -> locals -> Prop :=
| loop_run_break w l :
    stop_condition end_time (flushDataSnapshot w) l = true ->
    loop_run end_time updatePeriod w l 0 (flushDataSnapshot w) l
| loop_run_iter w l fuel w1 l1 n w' l' :
    stop_condition end_time (flushDataSnapshot w) l = false ->
    loop_body fuel end_time updatePeriod (flushDataSnapshot w) l
      = Returned (w1, l1) ->
    loop_run end_time updatePeriod w1 l1 n w' l' ->
    loop_run end_time updatePeriod w l (S n) w' l'.

End EngineModel.

(** ** The joint-limit force when the transition scale may be zero

    The quotient [qJointError / boundTransitionEps] is where the
    idealisation by real numbers leaves [float64_t]: the division of
    IEEE 754 is defined at zero, [x / 0] being an infinity for [x <> 0]
    and NaN for [x = 0], where the division of [R] gives 0.  The body of
    the loop of [Engine::boundsDynamics] is embedded here a second time
    with this division; the two embeddings agree whenever
    [boundTransitionEps] is not zero. *)

(** A [float64_t] that may be an infinity or NaN. *)
Inductive float64_ext : Type :=
| Finite (r : R)
| Infinite (negative : bool)
| NaN.

(** [a / b] for finite [a] and [b]; a divisor that is zero is [+0.0]. *)
Definition fdiv (a b : R) : float64_ext :=
  if Req_dec_T b 0 then
    if Req_dec_T a 0 then NaN else Infinite (Rltb a 0)
  else Finite (a / b).

(** [std::tanh(2 * x)] *)
Definition ftanh2 (x : float64_ext) : float64_ext :=
  match x with
  | Finite r => Finite (tanh (2 * r))
  | Infinite negative => Finite (if negative then -1 else 1)
  | NaN => NaN
  end.

(** [f *= x] for a finite [f]. *)
Definition fmul (f : R) (x : float64_ext) : float64_ext :=
  match x with
  | Finite r => Finite (f * r)
  | Infinite negative =>
      if Req_dec_T f 0 then NaN else Infinite (xorb negative (Rltb f 0))
  | NaN => NaN
  end.

Definition bounds_forceJoint_ieee (engineJointOptions_ : jointOptions_t)
    (qJoint vJoint qJointMin qJointMax : R) : float64_ext :=
  let '(forceJoint, qJointError) :=
    if Rgtb qJoint qJointMax then
      let qJointError := qJoint - qJointMax in
      let damping := - boundDamping engineJointOptions_ * Rmax vJoint 0.0 in
      (- boundStiffness engineJointOptions_ * qJointError + damping, qJointError)
    else if Rltb qJoint qJointMin then
      let qJointError := qJointMin - qJoint in
      let damping := - boundDamping engineJointOptions_ * Rmin vJoint 0.0 in
      (boundStiffness engineJointOptions_ * qJointError + damping, qJointError)
    else (0, 0) in
  let blendingFactor := fdiv qJointError (boundTransitionEps engineJointOptions_) in
  let blendingLaw := ftanh2 blendingFactor in
  fmul forceJoint blendingLaw.

(** ** [Engine::getLogData] *)

(** [matrixN_t] as the list of its rows; a coefficient that [resize] has
    left uninitialised is [None]. *)
Abbreviation matrixN_t := (list (list (option R))).

(** [logData.block(i, j, 1, n) = vals], [n] being the size of [vals]; a
    block that leaves the matrix is undefined ([None]). *)
Definition block_assign (m : matrixN_t) (i j : nat) (vals : list R)
  : option matrixN_t :=
  match m !! i with
  | Some row =>
      if (j + length vals <=? length row)%nat
      then Some (<[i := take j row ++ map Some vals
                        ++ drop (j + length vals) row]> m)
      else None
  | None => None
  end.

(** [for (i = 0; i < data.size(); i++) logData.block(i, j, 1, data[i].size()) = data[i]] *)
Definition assign_rows (j : nat) (data : list (list R)) (m : matrixN_t)
  : option matrixN_t :=
  fold_left
    (fun (acc : option matrixN_t) (i : nat) =>
       match acc with
       | Some m => block_assign m i j (nth i data [])
       | None => None
       end)
    (seq 0 (length data)) (Some m).

(** [Engine::getLogData], from what [telemetryRecorder_->getData] hands
    over: the time stamps and, for each of them, the integer and the
    floating-point variables; the header goes through unchanged.  The
    casts to [float64_t] are exact.  Reading [intData[0]] or
    [floatData[0]] in an empty vector is undefined ([None]). *)
Definition getLogData (timestamps : list R) (intData : list (list Z))
    (floatData : list (list R)) : option matrixN_t :=
  match intData, floatData with
  | intData0 :: _, floatData0 :: _ =>
      let cols := (1 + length intData0 + length floatData0)%nat in
      (* resize, and the column of the time stamps *)
      let logData :=
        map (fun t : R => Some t :: replicate (cols - 1) None) timestamps in
      match assign_rows 1 (map (map IZR) intData) logData with
      | Some logData => assign_rows (1 + length intData0) floatData logData
      | None => None
      end
  | _, _ => None
  end.

(** ** Vocabulary of the further properties *)

Section EngineModelMore.
Context `{Pin : Pinocchio} `{Sen : SensorRegistry} `{Ctl : !AbstractController}
        `{Stp : !ControlledStepper} `{Cfg : !ConfigHolder}.

(** The row of [uControl] that the saturation loop writes for motor [i]. *)
Definition jointId_of (m : Model) (i : nat) : Z :=
  to_uint32 (nth i (jointsVelocityIdx_ m) 0%Z).

(** [held w w']: from [w] to [w'] the options, the stored command and its
    scatter in [uControl] did not change. *)
Definition held (w w' : World) : Prop :=
  engineOptions_ (engine w') = engineOptions_ (engine w)
  /\ uCommandLast (stepperState_ (engine w'))
     = uCommandLast (stepperState_ (engine w))
  /\ uControl (stepperState_ (engine w')) = uControl (stepperState_ (engine w)).

(** [sensors_kept w w']: from [w] to [w'] the options and the data of
    the sensors did not change. *)
Definition sensors_kept (w w' : World) : Prop :=
  engineOptions_ (engine w') = engineOptions_ (engine w)
  /\ sensorsGroupHolder_ (model_ w') = sensorsGroupHolder_ (model_ w).

(** [unaltered w w']: from [w] to [w'] nothing changed in the description
    of the model (the rigid-body model with its gravity, the joint
    options, the index tables, the sizes) nor in the settings of the
    engine (options, holder, callback, initialisation flag). *)
Definition unaltered (w w' : World) : Prop :=
  pncModel_ (model_ w') = pncModel_ (model_ w)
  /\ mdlOptions_joints (model_ w') = mdlOptions_joints (model_ w)
  /\ Model_isInitialized_ (model_ w') = Model_isInitialized_ (model_ w)
  /\ contactFramesIdx_ (model_ w') = contactFramesIdx_ (model_ w)
  /\ jointsPositionIdx_ (model_ w') = jointsPositionIdx_ (model_ w)
  /\ jointsVelocityIdx_ (model_ w') = jointsVelocityIdx_ (model_ w)
  /\ (nq_ (model_ w'), nv_ (model_ w'), nx_ (model_ w'))
     = (nq_ (model_ w), nv_ (model_ w), nx_ (model_ w))
  /\ engineOptions_ (engine w') = engineOptions_ (engine w)
  /\ engineOptionsHolder_ (engine w') = engineOptionsHolder_ (engine w)
  /\ isInitialized_ (engine w') = isInitialized_ (engine w)
  /\ callbackFct_ (engine w') = callbackFct_ (engine w).

(** [verdicts P p]: whatever the right-hand side answers, the call [p]
    of the stepper ends with a verdict that satisfies [P]. *)
Fixpoint verdicts (P : controlled_step_result -> Prop) (p : StepperProg)
  : Prop :=
  match p with
  | step_done res _ _ _ _ => P res
  | step_rhs _ _ k => forall d, verdicts P (k d)
  end.

(** A stepper all of whose calls end with the verdict [res]. *)
Definition stepper_always (res : controlled_step_result) : Prop :=
  forall a r x0 d t dt0, verdicts (eq res) (try_step a r x0 d t dt0).

(** ** [Engine::initialize] *)

(** What [Engine::initialize] asks of the controller it is handed beyond
    the two calls of [AbstractController]: its initialisation flag, and
    whether a call made on it ends by an exception, the calls being made
    in a [try] block whose handler is [catch (std::exception& e)]: an
    exception derived from [std::exception], which the handler catches
    ([_throws]), or an exception of another type, such as the one that
    Boost.Python raises for an error in a Python controller, which goes
    through the handler ([_escapes]). *)
Class ControllerProbe : Type := {
  controller_getIsInitialized : controller_t -> bool;
  compute_command_throws :
    controller_t -> Model -> R -> vectorN_t -> vectorN_t -> vectorN_t -> bool;
  internalDynamics_throws :
    controller_t -> Model -> R -> vectorN_t -> vectorN_t -> vectorN_t -> bool;
  compute_command_escapes :
    controller_t -> Model -> R -> vectorN_t -> vectorN_t -> vectorN_t -> bool;
  internalDynamics_escapes :
    controller_t -> Model -> R -> vectorN_t -> vectorN_t -> vectorN_t -> bool
}.

(** Modelled from the spec: [Model::configureTelemetry], which rebinds
    the telemetry channels of the sensors of the model. *)
Class SensorTelemetry : Type := {
  sensors_configureTelemetry : sensorsGroupHolder_t -> sensorsGroupHolder_t
}.

Context `{Prb : !ControllerProbe} `{Tel : !SensorTelemetry}.

(** The cast [(int32_t)] of a size. *)
Definition to_int32 (z : Z) : Z := ((z + 2 ^ 31) mod 2 ^ 32 - 2 ^ 31)%Z.

Definition is_success (r : result_t) : bool :=
  match r with SUCCESS => true | _ => false end.

Definition Engine_with_isInitialized (e : Engine) (b : bool) : Engine :=
  mkEngine (engineOptions_ e) b (engineOptionsHolder_ e) (callbackFct_ e)
           (telemetryRecorder_ e) (stepperState_ e).
Definition Engine_with_callbackFct (e : Engine) (f : R -> vectorN_t -> bool)
  : Engine :=
  mkEngine (engineOptions_ e) (isInitialized_ e) (engineOptionsHolder_ e) f
           (telemetryRecorder_ e) (stepperState_ e).
Definition with_engine (w : World) (e : Engine) : World :=
  mkWorld e (model_ w) (controller_ w) (randGenerators w).

(** The [try] block of [initialize]: the two calls of the controller on
    zero vectors and the check of the size of what each of them wrote; an
    exception derived from [std::exception] in either call is caught and
    gives [ERROR_GENERIC].  The second component is the state in which
    the calls leave the controller that was handed in, which the engine
    binds on [SUCCESS] only. *)
Definition probe_controller (model : Model) (controller : controller_t)
  : result_t * controller_t :=
  let returnCode := SUCCESS in
  let t := 0 in
  let q := Zero (nq model) in
  let v := Zero (nv model) in
  let uCommand := Zero (length (jointsVelocityIdx_ model)) in
  let uInternal := Zero (nv model) in
  if compute_command_throws controller model t q v uCommand
  then (ERROR_GENERIC, controller)
  else
    let '(controller, uCommand) :=
      compute_command controller model t q v uCommand in
    let returnCode :=
      if negb (Z.of_nat (length uCommand)
               =? to_int32 (Z.of_nat (length (jointsVelocityIdx_ model))))%Z
      then ERROR_BAD_INPUT else returnCode in
    if internalDynamics_throws controller model t q v uInternal
    then (ERROR_GENERIC, controller)
    else
      let '(controller, uInternal) :=
        internalDynamics controller model t q v uInternal in
      let returnCode :=
        if negb (length uInternal =? nv model)%nat
        then ERROR_BAD_INPUT else returnCode in
      (returnCode, controller).

(** The exception that goes through the [try] block of [initialize], if
    one of the two calls raises one: [Some] of the state in which it
    leaves the controller.  The second call is made only if the first one
    has returned.  A call that ends by an exception is taken to leave the
    controller as it found it, here and in [probe_controller]. *)
Definition probe_escape (model : Model) (controller : controller_t)
  : option controller_t :=
  let t := 0 in
  let q := Zero (nq model) in
  let v := Zero (nv model) in
  let uCommand := Zero (length (jointsVelocityIdx_ model)) in
  let uInternal := Zero (nv model) in
  if compute_command_escapes controller model t q v uCommand
  then Some controller
  else if compute_command_throws controller model t q v uCommand
  then None
  else
    let '(controller, _) := compute_command controller model t q v uCommand in
    if internalDynamics_escapes controller model t q v uInternal
    then Some controller
    else None.

(** The controller that [initialize] is handed.  The engine keeps a
    pointer to its controller and [initialize] takes a reference: the
    object handed in is the one that the engine has bound already, and
    the calls of [initialize] are then made on the controller of the
    world, or it is another object. *)
Inductive handed_controller : Type :=
| the_bound_controller
| another_controller (controller : controller_t).

(** The state of the controller handed in. *)
Definition handed_state (w : World) (h : handed_controller) : controller_t :=
  match h with
  | the_bound_controller => controller_ w
  | another_controller controller => controller
  end.

(** What the world sees of the calls made on the controller handed in,
    which they leave in the state [controller]. *)
Definition with_handed (w : World) (h : handed_controller)
    (controller : controller_t) : World :=
  match h with
  | the_bound_controller => with_controller w controller
  | another_controller _ => w
  end.

(** [Engine::initialize(model, controller, callbackFct)].  The model
    handed in becomes the model of the world as soon as it has passed the
    first test; the controller handed in becomes the controller of the
    world on [SUCCESS] only, but the two calls that probe it are made on
    it before, and an exception that the handler of the [try] block does
    not catch leaves [initialize] from there.  The first initialisation
    of the stepper state is made with the zero vector of the size of the
    model, for which it returns [SUCCESS].  The registration of the
    telemetry channels leaves no trace here, a row carrying the channels
    that the flags select when it is written;
    [telemetryRecorder_->initialize()] empties the recorder, as in
    [simulate].  [setOptions] may throw. *)
Definition initialize_handed (w : World) (model : Model)
    (handed : handed_controller) (callbackFct : R -> vectorN_t -> bool)
  : outcome World (result_t * World) :=
  if negb (Model_isInitialized_ model) then Returned (ERROR_INIT_FAILED, w)
  else
    let w := with_model w model in
    let w :=
      with_stepperState w
        (stepperState_initialize_x (model_ w) (Zero (nx (model_ w)))) in
    let controller := handed_state w handed in
    if negb (controller_getIsInitialized controller)
    then Returned (ERROR_INIT_FAILED, w)
    else
      match probe_escape (model_ w) controller with
      | Some controller => Thrown (with_handed w handed controller)
      | None =>
          let '(returnCode, controller) :=
            probe_controller (model_ w) controller in
          let w := with_handed w handed controller in
          let w := if is_success returnCode then with_controller w controller
                   else w in
          let w := if is_success returnCode
                   then with_engine w
                          (Engine_with_callbackFct (engine w) callbackFct)
                   else w in
          let r := if is_success returnCode
                   then setOptions
                          (with_engine w
                             (Engine_with_isInitialized (engine w) true))
                          (engineOptionsHolder_ (engine w))
                   else Returned w in
          match r with
          | Returned w =>
              (* the logger *)
              let w :=
                with_stepperState w (stepperState_initialize (model_ w)) in
              let w :=
                with_model w
                  (Model_with_sensors (model_ w)
                     (sensors_configureTelemetry
                        (sensorsGroupHolder_ (model_ w)))) in
              let w := with_telemetry w [] in
              Returned (returnCode, w)
          | Thrown w => Thrown w
          | OutOfFuel => OutOfFuel
          end
      end.

(** [initialize] on a controller that is not the one the engine has
    bound. *)
Definition initialize (w : World) (model : Model) (controller : controller_t)
    (callbackFct : R -> vectorN_t -> bool) : outcome World (result_t * World) :=
  initialize_handed w model (another_controller controller) callbackFct.

End EngineModelMore.

(** ** A small concrete system

    One body that slides on the ground: the workspace of the rigid-body
    library is the pose and the velocity of its only frame, the
    controller asks for 5 N.m on every motor, and the stepper is the
    explicit Euler scheme, which accepts every step. *)

Module Scenario.

#[export] Instance pinocchio : Pinocchio := {|
  Data := SE3 * Vector3d;
  Data_new := fun _ => (mkSE3 Identity3 (V3 0 0 (-1)), V3 2 0 0);
  oMf := fun d _ => fst d;
  getFrameVelocity_linear := fun _ d _ => snd d;
  forwardKinematics := fun _ d _ _ => d;
  framesForwardKinematics := fun _ d => d;
  aba := fun _ d _ v _ _ => (d, map (fun _ => 0) v);
  rnea := fun _ d _ v _ => (d, map (fun _ => 0) v);
  integrate := fun _ q v => q;
  kineticEnergy := fun _ d _ _ => (d, 0);
  potentialEnergy := fun _ d _ => (d, 0)
|}.

#[export] Instance sensors : SensorRegistry := {|
  sensorsGroupHolder_t := unit;
  sensors_setData := fun s _ _ _ _ _ => s;
  sensors_reset := fun s => s;
  sensors_telemetry := fun _ => []
|}.

#[export] Instance controller : AbstractController := {|
  controller_t := unit;
  compute_command := fun c m _ _ _ _ =>
    (c, replicate (length (jointsVelocityIdx_ m)) 5);
  internalDynamics := fun c _ _ _ _ u => (c, map (fun _ => 0) u);
  controller_reset := fun c => c
|}.

#[export] Instance euler : ControlledStepper := {|
  try_step := fun _ _ x dxdt t dt =>
    step_rhs x t (fun d => step_done success (vadd x (vscale d dt)) d (t + dt) dt)
|}.

#[export] Instance config : ConfigHolder := {|
  configHolder_t := engineOptions_t;
  engineOptions_t_ctor := Some
|}.

Definition contactOptions : contactOptions_t := {|
  frictionViscous := 1; frictionDry := 1; dryFrictionVelEps := 1;
  stiffness := 1; damping := 0; transitionEps := 1
|}.

Definition options (Ds Dc : R) : engineOptions_t := {|
  telemetry := {| logConfiguration := true; logVelocity := true;
                  logAcceleration := true; logCommand := true |};
  stepper := {| randomSeed := 0; tolAbs := 1e-5; tolRel := 1e-4;
                sensorsUpdatePeriod := Ds; controllerUpdatePeriod := Dc |};
  world := {| gravity := [0; 0; -9.81; 0; 0; 0] |};
  joints := {| boundStiffness := 1; boundDamping := 1; boundTransitionEps := 1 |};
  contacts := contactOptions
|}.

(** One joint with one coordinate, limits [[-1, 1]], effort limit 1, and
    one contact frame carried by joint 0. *)
Definition model : Model := {|
  pncModel_ := {| pnc_gravity := [0; 0; 0; 0; 0; 0]; effortLimit := [1];
                  frames := [ {| parent := 0;
                                 placement := mkSE3 Identity3 Zero3 |} ];
                  njoints := 1 |};
  pncData_ := (mkSE3 Identity3 (V3 0 0 (-1)), V3 2 0 0);
  mdlOptions_joints := {| boundsFromUrdf := false; boundsMin := [-1];
                          boundsMax := [1] |};
  contactForces_ := [Force_Zero];
  Model_isInitialized_ := true;
  sensorsGroupHolder_ := tt;
  contactFramesIdx_ := [0%Z];
  jointsPositionIdx_ := [0%Z];
  jointsVelocityIdx_ := [0%Z];
  nq_ := 1;
  nv_ := 1;
  nx_ := 2
|}.

Definition engine0 (initialized : bool) (callback : R -> vectorN_t -> bool)
  : Engine := {|
  engineOptions_ := options 0 0;
  isInitialized_ := initialized;
  engineOptionsHolder_ := options 0 0;
  callbackFct_ := callback;
  telemetryRecorder_ := [];
  stepperState_ := stepperState_initialize model
|}.

Definition world0 (initialized : bool) (callback : R -> vectorN_t -> bool)
  : World := {|
  engine := engine0 initialized callback;
  model_ := model;
  controller_ := tt;
  randGenerators := 0
|}.

End Scenario.

(** The controller of the concrete system is initialised and throws no
    exception; [stubborn] is a stepper that refuses every step. *)
Module ScenarioInit.
Import Scenario.

Definition stubborn : ControlledStepper := {|
  try_step := fun _ _ x dxdt t dt => step_done fail x dxdt t dt
|}.

#[export] Instance probe : ControllerProbe := {|
  controller_getIsInitialized := fun _ => true;
  compute_command_throws := fun _ _ _ _ _ _ => false;
  internalDynamics_throws := fun _ _ _ _ _ _ => false;
  compute_command_escapes := fun _ _ _ _ _ _ => false;
  internalDynamics_escapes := fun _ _ _ _ _ _ => false
|}.

(** A controller whose internal dynamics fails with an exception that is
    not a [std::exception]. *)
Definition probe_escaping : ControllerProbe := {|
  controller_getIsInitialized := fun _ => true;
  compute_command_throws := fun _ _ _ _ _ _ => false;
  internalDynamics_throws := fun _ _ _ _ _ _ => false;
  compute_command_escapes := fun _ _ _ _ _ _ => false;
  internalDynamics_escapes := fun _ _ _ _ _ _ => true
|}.

#[export] Instance sensorTelemetry : SensorTelemetry := {|
  sensors_configureTelemetry := fun s => s
|}.

(** The model of the concrete system before its initialisation. *)
Definition model_raw : Model := {|
  pncModel_ := pncModel_ model;
  pncData_ := pncData_ model;
  mdlOptions_joints := mdlOptions_joints model;
  contactForces_ := contactForces_ model;
  Model_isInitialized_ := false;
  sensorsGroupHolder_ := tt;
  contactFramesIdx_ := contactFramesIdx_ model;
  jointsPositionIdx_ := jointsPositionIdx_ model;
  jointsVelocityIdx_ := jointsVelocityIdx_ model;
  nq_ := 1;
  nv_ := 1;
  nx_ := 2
|}.

(** The same body one metre above the ground. *)
Definition model_airborne : Model :=
  Model_with_pncData model (mkSE3 Identity3 (V3 0 0 1), V3 2 0 0).

(** The concrete system with sensors and a controller that are updated
    every second. *)
Definition world_sampled (callback : R -> vectorN_t -> bool) : World := {|
  engine := {| engineOptions_ := options 1 1;
               isInitialized_ := true;
               engineOptionsHolder_ := options 1 1;
               callbackFct_ := callback;
               telemetryRecorder_ := [];
               stepperState_ := stepperState_initialize model |};
  model_ := model;
  controller_ := tt;
  randGenerators := 0
|}.

(** A holder that may hold nothing that parses. *)
Definition strict : ConfigHolder := {|
  configHolder_t := option engineOptions_t;
  engineOptions_t_ctor := fun h => h
|}.

Definition world_strict : @World _ _ _ strict := {|
  engine := {| engineOptions_ := options 0 0;
               isInitialized_ := false;
               engineOptionsHolder_ := None : @configHolder_t strict;
               callbackFct_ := fun _ _ => true;
               telemetryRecorder_ := [];
               stepperState_ := stepperState_initialize model |};
  model_ := model;
  controller_ := tt;
  randGenerators := 0
|}.

End ScenarioInit.

(** * Properties *)

(** ** [MemoryDevice] *)

Module MemoryDeviceFacts.
Import MemoryDevice.
Local Open Scope Z_scope.

Lemma to_int64_id z : - 2 ^ 63 <= z < 2 ^ 63 -> to_int64 z = z.
Proof.
  intros Hz. unfold to_int64.
  rewrite Z.mod_small by lia. lia.
Qed.

Lemma to_size_t_id z : 0 <= z < 2 ^ 64 -> to_size_t z = z.
Proof. intros Hz. unfold to_size_t. now rewrite Z.mod_small. Qed.

Lemma size_length d :
  Z.of_nat (length (buffer_ d)) <= int64_max ->
  size d = Z.of_nat (length (buffer_ d)).
Proof.
  intros Hlen. unfold size. apply to_int64_id. unfold int64_max in Hlen. lia.
Qed.

Lemma bytesAvailable_wf d :
  wf d -> bytesAvailable d = Z.of_nat (length (buffer_ d)) - currentPos_ d.
Proof.
  intros [Hpos Hlen]. unfold bytesAvailable.
  rewrite size_length by assumption.
  apply to_int64_id. unfold int64_max in Hlen. lia.
Qed.

(** The bytes a transfer of [dataSize] bytes moves on a well-formed
    device. *)
Lemma transfer_count d dataSize :
  wf d -> 0 <= dataSize ->
  (if dataSize <? bytesAvailable d then dataSize else bytesAvailable d)
  = Z.min dataSize (Z.of_nat (length (buffer_ d)) - currentPos_ d).
Proof.
  intros Hwf Hn. rewrite bytesAvailable_wf by assumption.
  destruct (Z.ltb_spec dataSize (Z.of_nat (length (buffer_ d)) - currentPos_ d)); lia.
Qed.

(** C9, as the code has it: [seek] fails exactly when the position is
    negative or not below the buffer size, the failure is reported by the
    code [ERROR_GENERIC] and leaves the device as it was; every position
    inside the buffer becomes the current position and [SUCCESS] is
    returned. *)
Theorem seek_spec (d : t) (pos : Z) :
  Z.of_nat (length (buffer_ d)) <= int64_max ->
  (pos < 0 \/ pos >= Z.of_nat (length (buffer_ d)) ->
     seek d pos = (ERROR_GENERIC, d))
  /\ (0 <= pos < Z.of_nat (length (buffer_ d)) ->
     seek d pos = (SUCCESS, mk (buffer_ d) pos))
  /\ (fst (seek d pos) <> SUCCESS <->
     pos < 0 \/ pos >= Z.of_nat (length (buffer_ d))).
Proof.
  intros Hlen. unfold seek. rewrite size_length by assumption.
  destruct (Z.ltb_spec pos 0) as [Hneg | Hnn]; cbn [orb];
    [|destruct (Z.geb_spec pos (Z.of_nat (length (buffer_ d)))) as [Hge | Hlt]];
    cbn [fst]; (split; [|split; [|split]]);
    try (intros; reflexivity); try (intros; lia);
    try (intros; discriminate); try (intros Hc; now elim Hc).
Qed.

(** [seek] keeps a well-formed device well formed. *)
Lemma seek_wf d pos : wf d -> wf (snd (seek d pos)).
Proof.
  intros [Hpos Hlen]. unfold seek. rewrite size_length by assumption.
  destruct (Z.ltb_spec pos 0); cbn [orb]; [now split|].
  destruct (Z.geb_spec pos (Z.of_nat (length (buffer_ d)))); [now split|].
  split; cbn; [lia | assumption].
Qed.

(** The transfers on a well-formed device. *)
Lemma readData_eq d n :
  wf d -> 0 <= n ->
  let pos := currentPos_ d in
  let k := Z.min n (Z.of_nat (length (buffer_ d)) - pos) in
  readData d n
  = Some (k, take (Z.to_nat k) (drop (Z.to_nat pos) (buffer_ d)),
          mk (buffer_ d) (pos + k)).
Proof.
  intros Hwf Hn pos k.
  pose proof Hwf as [Hpos Hlen]. unfold int64_max in Hlen. fold pos in Hpos.
  unfold readData. rewrite transfer_count by assumption. fold pos k.
  rewrite to_size_t_id by lia. unfold memcpy_from.
  destruct (Z.leb_spec 0 pos); [|lia].
  destruct (Z.leb_spec (pos + k) (Z.of_nat (length (buffer_ d)))); [|lia].
  cbn [andb]. rewrite to_int64_id by lia. reflexivity.
Qed.

Lemma writeData_eq d data n :
  wf d -> 0 <= n <= Z.of_nat (length data) ->
  let pos := currentPos_ d in
  let k := Z.min n (Z.of_nat (length (buffer_ d)) - pos) in
  writeData d data n
  = Some (k, mk (take (Z.to_nat pos) (buffer_ d) ++ take (Z.to_nat k) data
                 ++ drop (Z.to_nat (pos + k)) (buffer_ d)) (pos + k)).
Proof.
  intros Hwf [Hn Hdata] pos k.
  pose proof Hwf as [Hpos Hlen]. unfold int64_max in Hlen. fold pos in Hpos.
  unfold writeData. rewrite transfer_count by assumption. fold pos k.
  rewrite to_size_t_id by lia. unfold memcpy_to.
  destruct (Z.leb_spec 0 pos); [|lia].
  destruct (Z.leb_spec (pos + k) (Z.of_nat (length (buffer_ d)))); [|lia].
  destruct (Z.leb_spec k (Z.of_nat (length data))); [|lia].
  cbn [andb]. rewrite to_int64_id by lia. reflexivity.
Qed.

(** A write replaces bytes in place: the buffer keeps its length. *)
Lemma write_length (buf data : list byte) (pos k : Z) :
  0 <= pos -> 0 <= k -> pos + k <= Z.of_nat (length buf) ->
  k <= Z.of_nat (length data) ->
  length (take (Z.to_nat pos) buf ++ take (Z.to_nat k) data
          ++ drop (Z.to_nat (pos + k)) buf) = length buf.
Proof.
  intros Hpos Hk Hend Hdata.
  rewrite !length_app, !length_take, length_drop. lia.
Qed.

(** C10: on a well-formed device a transfer of [n >= 0] bytes moves
    [k = min n (size - position)] bytes, all inside the buffer, advances
    the position by [k] and returns [k]; a read delivers the [k] bytes at
    the position, a write replaces exactly those [k] bytes and keeps the
    length of the buffer. *)
Theorem readData_writeData_spec (d : t) (n : Z) :
  wf d -> 0 <= n ->
  let pos := currentPos_ d in
  let k := Z.min n (Z.of_nat (length (buffer_ d)) - pos) in
  0 <= k /\ pos + k <= Z.of_nat (length (buffer_ d))
  /\ (pos = Z.of_nat (length (buffer_ d)) -> k = 0)
  /\ readData d n
     = Some (k, take (Z.to_nat k) (drop (Z.to_nat pos) (buffer_ d)),
             mk (buffer_ d) (pos + k))
  /\ forall data : list byte,
       n <= Z.of_nat (length data) ->
       let buf' := take (Z.to_nat pos) (buffer_ d) ++ take (Z.to_nat k) data
                   ++ drop (Z.to_nat (pos + k)) (buffer_ d) in
       writeData d data n = Some (k, mk buf' (pos + k))
       /\ length buf' = length (buffer_ d)
       /\ length (take (Z.to_nat k) data) = Z.to_nat k.
Proof.
  intros Hwf Hn pos k.
  pose proof Hwf as [Hpos Hlen]. fold pos in Hpos.
  assert (Hk0 : 0 <= k) by (subst k; lia).
  assert (Hk1 : pos + k <= Z.of_nat (length (buffer_ d))) by (subst k; lia).
  split; [assumption|]. split; [assumption|].
  split; [subst k; lia|].
  split; [now apply readData_eq|].
  intros data Hdata buf'.
  assert (Hkd : k <= Z.of_nat (length data)) by (subst k; lia).
  split; [|split].
  - apply writeData_eq; [assumption | lia].
  - apply write_length; lia.
  - rewrite length_take. lia.
Qed.

(** Both transfers keep a well-formed device well formed. *)
Lemma readData_wf d n r data d' :
  wf d -> 0 <= n -> readData d n = Some (r, data, d') -> wf d'.
Proof.
  intros Hwf Hn Hr. rewrite (readData_eq d n Hwf Hn) in Hr.
  injection Hr as <- <- <-.
  destruct Hwf as [Hpos Hlen]. split; cbn [buffer_ currentPos_]; [lia | assumption].
Qed.

Lemma writeData_wf d data n r d' :
  wf d -> 0 <= n <= Z.of_nat (length data) ->
  writeData d data n = Some (r, d') -> wf d'.
Proof.
  intros Hwf Hn Hr. rewrite (writeData_eq d data n Hwf Hn) in Hr.
  injection Hr as <- <-.
  destruct Hwf as [Hpos Hmax]. cbv zeta.
  split; cbn [buffer_ currentPos_]; rewrite write_length; lia.
Qed.

(** Every constructor starts at position 0. *)
Lemma create_wf sz : 0 <= sz <= int64_max -> wf (create sz).
Proof.
  intros Hsz. unfold int64_max in Hsz. unfold wf, create. cbn [buffer_ currentPos_].
  rewrite length_replicate, to_size_t_id by lia. unfold int64_max. lia.
Qed.

(** [resize] does not move the position: shrinking the buffer below it
    leaves a device on which [bytesAvailable] is negative. *)
Example resize_below_position :
  bytesAvailable (resize (snd (seek (create 10) 9)) 5) = -4.
Proof. reflexivity. Qed.

End MemoryDeviceFacts.

(** ** Comparisons and limits *)

Lemma Rltb_spec (a b : R) : reflect (a < b) (Rltb a b).
Proof. unfold Rltb. destruct (Rlt_dec a b); constructor; assumption. Qed.

Lemma Rgtb_spec (a b : R) : reflect (a > b) (Rgtb a b).
Proof. unfold Rgtb. apply Rltb_spec. Qed.

Lemma Rltb_lt a b : a < b -> Rltb a b = true.
Proof. intros Hab. destruct (Rltb_spec a b); [reflexivity | contradiction]. Qed.

Lemma Rltb_ge a b : b <= a -> Rltb a b = false.
Proof. intros Hab. destruct (Rltb_spec a b); [lra | reflexivity]. Qed.

Lemma Rgtb_gt a b : a > b -> Rgtb a b = true.
Proof. intros Hab. now apply Rltb_lt. Qed.

Lemma Rgtb_le a b : a <= b -> Rgtb a b = false.
Proof. intros Hab. now apply Rltb_ge. Qed.

Lemma clamp_bounds val lo hi : lo <= hi -> lo <= clamp val lo hi <= hi.
Proof.
  intros Hlh. unfold clamp.
  destruct (Rltb_spec val lo); [lra|].
  destruct (Rltb_spec hi val); lra.
Qed.

Lemma clamp_abs val m : 0 <= m -> Rabs (clamp val (- m) m) <= m.
Proof.
  intros Hm. apply Rabs_le. apply clamp_bounds. lra.
Qed.

(** The limitation of the tangential force is [clamp] between the two
    bounds. *)
Lemma min_max_clamp v : Rmin (Rmax v (-1e5)) 1e5 = clamp v (-1e5) 1e5.
Proof.
  unfold clamp, Rmin, Rmax.
  destruct (Rltb_spec v (-1e5)), (Rltb_spec 1e5 v), (Rle_dec v (-1e5));
    try lra; destruct (Rle_dec _ _); lra.
Qed.

(** Case analysis on the innermost test or pair that blocks a goal. *)
Ltac simple_scrutinee e :=
  lazymatch e with
  | context [if _ then _ else _] => fail
  | context [match _ with pair _ _ => _ end] => fail
  | _ => idtac
  end.

Ltac destruct_lets :=
  repeat (match goal with
          | |- context [if ?b then _ else _] =>
              simple_scrutinee b; destruct b eqn:?
          | |- context [match ?e with pair _ _ => _ end] =>
              simple_scrutinee e; destruct e eqn:?
          end; cbv beta iota).

(** Reduction of the projections of a record that has just been built. *)
Ltac proj_simpl :=
  cbn [fst snd engine model_ controller_ randGenerators
       stepperState_ telemetryRecorder_ engineOptions_ callbackFct_
       isInitialized_ engineOptionsHolder_
       iterLast tLast qLast vLast aLast uLast uCommandLast energyLast x dxdt
       uControl uInternal uBounds
       jointsVelocityIdx_ jointsPositionIdx_ contactFramesIdx_ pncModel_
       pncData_ mdlOptions_joints contactForces_ Model_isInitialized_
       sensorsGroupHolder_ nq_ nv_ nx_ effortLimit pnc_gravity frames njoints
       Engine_with_stepperState Engine_with_telemetry with_stepperState
       with_telemetry with_model with_controller
       with_uCommandLast with_uControl with_uInternal with_uBounds with_uLast
       with_x with_dxdt updateLast
       Model_with_pncData Model_with_contactForces Model_with_sensors
       Model_with_gravity setSensorsData
       dt current_time next_time fail_checker] in *.

(** The two embeddings of the joint-limit force agree when the transition
    scale is not zero. *)
Lemma bounds_forceJoint_ieee_finite (jo : jointOptions_t) (q v qmin qmax : R) :
  boundTransitionEps jo <> 0 ->
  bounds_forceJoint_ieee jo q v qmin qmax
  = Finite (bounds_forceJoint jo q v qmin qmax).
Proof.
  intros He. unfold bounds_forceJoint_ieee, bounds_forceJoint.
  destruct (if Rgtb q qmax then _ else _) as [forceJoint qJointError].
  unfold fdiv. destruct (Req_dec_T (boundTransitionEps jo) 0); [contradiction|].
  reflexivity.
Qed.

Section EngineFacts.
Context `{Pin : Pinocchio} `{Sen : SensorRegistry} `{Ctl : !AbstractController}
        `{Stp : !ControlledStepper} `{Cfg : !ConfigHolder}.

(** ** Contacts *)

(** C1: a frame at or above the ground gives the zero wrench; below it
    the vertical world force is [-k pz + d max(0, -vz)] and the wrench at
    the origin of the parent joint, force then moment, is entirely
    multiplied by [tanh(2 (-pz) / transitionEps)]. *)
Theorem contactDynamics_spec (o : engineOptions_t) (m : Model) (frameId : Z) :
  let oMf_frame := oMf (pncData_ m) frameId in
  let pz := c2 (translation oMf_frame) in
  let vFrameInWorld :=
    mulMV (rotation oMf_frame)
          (getFrameVelocity_linear (pncModel_ m) (pncData_ m) frameId) in
  let vz := c2 vFrameInWorld in
  let fextInWorld :=
    contact_fextInWorld (contacts o) (translation oMf_frame) vFrameInWorld in
  let jMf := placement (frame_at (pncModel_ m) frameId) in
  let f := mulMV (mulMM (rotation jMf) (transpose (rotation oMf_frame)))
                 fextInWorld in
  (pz >= 0 -> contactDynamics o m frameId = [0; 0; 0; 0; 0; 0])
  /\ (pz < 0 ->
      c2 fextInWorld
      = - stiffness (contacts o) * pz + damping (contacts o) * Rmax 0 (- vz)
      /\ contactDynamics o m frameId
         = map (Rmult (tanh (2 * (- pz) / transitionEps (contacts o))))
               (vector6 f (cross (translation jMf) f))).
Proof.
  intros oMf_frame pz vFrameInWorld vz fextInWorld jMf f.
  unfold contactDynamics. fold oMf_frame. fold pz.
  split.
  - intros Hpz. rewrite Rltb_ge by lra. reflexivity.
  - intros Hpz. rewrite Rltb_lt by lra. split.
    + unfold fextInWorld, contact_fextInWorld, contact_normalForce. cbn [c2].
      fold vz. fold pz. unfold Rmax.
      destruct (Rltb_spec vz 0), (Rle_dec 0 (- vz)); try lra; try ring.
      replace vz with 0 by lra. ring.
    + fold vFrameInWorld. fold fextInWorld. fold jMf. fold f.
      unfold vscale. apply map_ext. intros a.
      replace (2 * (- pz / transitionEps (contacts o)))
        with (2 * - pz / transitionEps (contacts o)) by (unfold Rdiv; ring).
      apply Rmult_comm.
Qed.

(** C2, as the code has it: for a regularisation scale [eps > 0] the
    friction coefficient follows the three regimes of the tangential
    speed [s], and each tangential component of the world force is the
    velocity component itself, not divided by [s], times [- mu Fz],
    limited to [[-1e5, 1e5]]. *)
Theorem contact_friction_spec (co : contactOptions_t) (posFrame v : Vector3d) :
  0 < dryFrictionVelEps co ->
  let eps := dryFrictionVelEps co in
  let s := norm2 (c0 v) (c1 v) in
  let mu := contact_frictionCoeff co s in
  let Fz := c2 (contact_fextInWorld co posFrame v) in
  (s <= eps -> mu = s / eps * frictionDry co)
  /\ (eps < s < 1.5 * eps ->
      mu = -2 * s * (frictionDry co - frictionViscous co) / eps
           + 3 * frictionDry co - 2 * frictionViscous co)
  /\ (s >= 1.5 * eps -> mu = frictionViscous co)
  /\ c0 (contact_fextInWorld co posFrame v) = clamp (- c0 v * mu * Fz) (-1e5) 1e5
  /\ c1 (contact_fextInWorld co posFrame v) = clamp (- c1 v * mu * Fz) (-1e5) 1e5.
Proof.
  intros Heps eps s mu Fz.
  repeat split.
  - intros Hs. unfold mu, contact_frictionCoeff. fold eps.
    rewrite Rgtb_le by assumption. unfold Rdiv. ring.
  - intros [Hs1 Hs2]. unfold mu, contact_frictionCoeff. fold eps.
    rewrite Rgtb_gt by assumption. rewrite Rltb_lt by assumption. lra.
  - intros Hs. unfold mu, contact_frictionCoeff. fold eps.
    rewrite Rgtb_gt by (unfold eps in *; lra).
    rewrite Rltb_ge by lra. reflexivity.
  - unfold Fz, mu, s, contact_fextInWorld. cbn [c0 c2]. apply min_max_clamp.
  - unfold Fz, mu, s, contact_fextInWorld. cbn [c1 c2]. apply min_max_clamp.
Qed.

(** ** Joint limits *)

Lemma length_add_at u j f : length (add_at u j f) = length u.
Proof. unfold add_at. destruct (j <? 0)%Z; [reflexivity | apply length_alter]. Qed.

Lemma coeff_add_at_same u j f :
  (0 <= j < Z.of_nat (length u))%Z -> coeff (add_at u j f) j = coeff u j + f.
Proof.
  intros Hj. unfold coeff, add_at.
  destruct (Z.ltb_spec j 0); [lia|]. cbv iota.
  rewrite !nth_lookup, list_lookup_alter_eq.
  destruct (lookup_lt_is_Some_2 u (Z.to_nat j)) as [a Ha]; [lia|].
  rewrite Ha. reflexivity.
Qed.

Lemma coeff_add_at_other u j k f : j <> k -> coeff (add_at u j f) k = coeff u k.
Proof.
  intros Hjk. unfold coeff, add_at.
  destruct (Z.ltb_spec k 0); [reflexivity|].
  destruct (Z.ltb_spec j 0); [reflexivity|]. cbv iota.
  rewrite !nth_lookup, list_lookup_alter_ne by lia. reflexivity.
Qed.

Lemma coeff_Zero n j : coeff (Zero n) j = 0.
Proof.
  unfold coeff, Zero. destruct (j <? 0)%Z; [reflexivity|].
  rewrite nth_lookup. destruct (replicate n 0 !! Z.to_nat j) eqn:E; [|reflexivity].
  apply lookup_replicate in E as [-> _]. reflexivity.
Qed.

Lemma map_nth_seq {A} (l : list A) (d : A) :
  map (fun i => nth i l d) (seq 0 (length l)) = l.
Proof.
  induction l as [|a l IH]; [reflexivity|].
  cbn [length]. rewrite <- cons_seq, <- seq_shift. cbn [map nth].
  rewrite map_map. cbn [nth]. now rewrite IH.
Qed.

Section Deposit.
(** The rows and the forces of a loop that runs [u(idx i) += F i]. *)
Variables (idx : nat -> Z) (F : nat -> R).

Let deposit (js : list nat) (u0 : vectorN_t) : vectorN_t :=
  fold_left (fun u i => add_at u (idx i) (F i)) js u0.

Lemma deposit_length js u0 : length (deposit js u0) = length u0.
Proof.
  revert u0. induction js as [|i js IH]; intros u0; [reflexivity|].
  cbn. unfold deposit in IH. rewrite IH. apply length_add_at.
Qed.

Lemma deposit_other js u0 j :
  (forall i, In i js -> idx i <> j) -> coeff (deposit js u0) j = coeff u0 j.
Proof.
  revert u0. induction js as [|i js IH]; intros u0 Hj; [reflexivity|].
  cbn. unfold deposit in IH. rewrite IH.
  - apply coeff_add_at_other. apply Hj. now left.
  - intros i' Hi'. apply Hj. now right.
Qed.

Lemma deposit_hit js u0 i0 :
  NoDup (map idx js) -> In i0 js ->
  (0 <= idx i0 < Z.of_nat (length u0))%Z ->
  coeff (deposit js u0) (idx i0) = coeff u0 (idx i0) + F i0.
Proof.
  revert u0. induction js as [|i js IH]; intros u0 Hnd Hin Hrange; [easy|].
  cbn [map] in Hnd. inversion Hnd as [|? ? Hni Hnd']; subst.
  cbn. destruct Hin as [-> | Hin].
  - change (coeff (deposit js (add_at u0 (idx i0) (F i0))) (idx i0)
            = coeff u0 (idx i0) + F i0).
    rewrite deposit_other.
    + now apply coeff_add_at_same.
    + intros i' Hi' Heq. apply Hni. rewrite <- Heq.
      apply list_elem_of_In. now apply in_map.
  - unfold deposit in IH. rewrite IH; try assumption.
    + f_equal. apply coeff_add_at_other. intros Heq. apply Hni.
      rewrite Heq. apply list_elem_of_In. now apply in_map.
    + now rewrite length_add_at.
Qed.
End Deposit.

(** C3: with a transition scale that is not zero, the actuated joints on
    distinct rows of the velocity vector and every limit interval
    non-empty, the row of joint [i] carries the blended penalty of the
    side on which the position left the interval, or 0 inside it, which
    is the finite value that the division of [float64_t] gives, and no
    other row carries anything. *)
Theorem boundsDynamics_spec (o : engineOptions_t) (m : Model) (q v : vectorN_t) :
  let pidx := jointsPositionIdx_ m in
  let vidx := jointsVelocityIdx_ m in
  let qmin := fun i : nat => coeff (boundsMin (mdlOptions_joints m)) (Z.of_nat i) in
  let qmax := fun i : nat => coeff (boundsMax (mdlOptions_joints m)) (Z.of_nat i) in
  let kb := boundStiffness (joints o) in
  let db := boundDamping (joints o) in
  let eb := boundTransitionEps (joints o) in
  eb <> 0 ->
  length vidx = length pidx ->
  NoDup vidx ->
  (forall j, In j vidx -> (0 <= j < Z.of_nat (nv m))%Z) ->
  (forall i, (i < length pidx)%nat -> qmin i <= qmax i) ->
  let u := boundsDynamics o m q v in
  length u = nv m
  /\ (forall i, (i < length pidx)%nat ->
      let qi := coeff q (nth i pidx 0%Z) in
      let vi := coeff v (nth i vidx 0%Z) in
      let row := coeff u (nth i vidx 0%Z) in
      (qi > qmax i ->
       row = tanh (2 * (qi - qmax i) / eb)
             * (- kb * (qi - qmax i) - db * Rmax 0 vi))
      /\ (qi < qmin i ->
          row = tanh (2 * (qmin i - qi) / eb)
                * (kb * (qmin i - qi) - db * Rmin 0 vi))
      /\ (qmin i <= qi <= qmax i -> row = 0)
      /\ bounds_forceJoint_ieee (joints o) qi vi (qmin i) (qmax i)
         = Finite row)
  /\ (forall j, ~ In j vidx -> coeff u j = 0).
Proof.
  intros pidx vidx qmin qmax kb db eb Heb Hlen Hnd Hrange Hord u.
  set (idx := fun i : nat => nth i vidx 0%Z).
  set (Fj := fun i : nat =>
    bounds_forceJoint (joints o) (coeff q (nth i pidx 0%Z)) (coeff v (idx i))
                      (qmin i) (qmax i)).
  assert (Hu : u = fold_left (fun u i => add_at u (idx i) (Fj i))
                             (seq 0 (length pidx)) (Zero (nv m)))
    by reflexivity.
  assert (Hmap : map idx (seq 0 (length pidx)) = vidx).
  { rewrite <- Hlen. apply map_nth_seq. }
  split; [|split].
  - rewrite Hu, deposit_length. apply length_replicate.
  - intros i Hi qi vi row.
    assert (Hrow : row = Fj i).
    { unfold row. change (nth i vidx 0%Z) with (idx i). rewrite Hu.
      rewrite deposit_hit.
      - rewrite coeff_Zero. ring.
      - now rewrite Hmap.
      - apply in_seq. lia.
      - unfold Zero. rewrite length_replicate. apply Hrange.
        apply nth_In. lia. }
    rewrite Hrow. specialize (Hord i Hi).
    split; [|split; [|split]];
      [| | |unfold Fj; apply bounds_forceJoint_ieee_finite; exact Heb];
      unfold Fj, bounds_forceJoint; fold qi; fold vi;
      change (coeff v (idx i)) with vi; fold kb; fold db; fold eb.
    + intros Hq. rewrite Rgtb_gt by assumption.
      replace (2 * ((qi - qmax i) / eb)) with (2 * (qi - qmax i) / eb)
        by (unfold Rdiv; ring).
      rewrite (Rmax_comm 0 vi). replace 0.0 with 0 by lra. ring.
    + intros Hq. rewrite Rgtb_le by lra. rewrite Rltb_lt by assumption.
      replace (2 * ((qmin i - qi) / eb)) with (2 * (qmin i - qi) / eb)
        by (unfold Rdiv; ring).
      rewrite (Rmin_comm 0 vi). replace 0.0 with 0 by lra. ring.
    + intros [Hq1 Hq2]. rewrite Rgtb_le by assumption.
      rewrite Rltb_ge by assumption. ring.
  - intros j Hj. rewrite Hu, deposit_other.
    + apply coeff_Zero.
    + intros i Hi Heq. apply Hj. rewrite <- Hmap, <- Heq. now apply in_map.
Qed.

(** ** Break-point period, early returns and options *)


(** C7: [simulate] answers [ERROR_INIT_FAILED] on an engine that is not
    initialised, and [ERROR_BAD_INPUT] on an initialised one when the
    initial state has not [nx] entries or the end time is below 0.05 s;
    in each case the engine, the model and the controller are returned
    as they were received, whatever fuel the run is given. *)
Theorem simulate_early_return (fuel : nat) (w : World) (x_init : vectorN_t)
    (end_time : R) :
  (isInitialized_ (engine w) = false ->
   simulate fuel w x_init end_time = Returned (ERROR_INIT_FAILED, w))
  /\ (isInitialized_ (engine w) = true ->
      length x_init <> nx (model_ w) \/ end_time < 0.05 ->
      simulate fuel w x_init end_time = Returned (ERROR_BAD_INPUT, w)).
Proof.
  unfold simulate. split.
  - intros ->. reflexivity.
  - intros -> Hbad. cbn [negb].
    destruct (Nat.eqb_spec (length x_init) (nx (model_ w))) as [Hlen | Hlen];
      cbn [negb]; [|reflexivity].
    destruct Hbad as [Hbad | Hbad]; [contradiction|].
    rewrite Rltb_lt by lra. reflexivity.
Qed.

(** C8: [setOptions] stores its argument as the options holder whether
    or not the typed view can be built from it; it leaves the model
    untouched on an engine that is not initialised, and on an
    initialised one it changes the gravity of the model, and nothing
    else in it, to the gravity of the new options. *)
Theorem setOptions_spec (w : World) (engineOptions : configHolder_t) :
  (forall w', setOptions w engineOptions = Returned w'
              \/ setOptions w engineOptions = Thrown w' ->
     engineOptionsHolder_ (engine w') = engineOptions
     /\ isInitialized_ (engine w') = isInitialized_ (engine w)
     /\ (isInitialized_ (engine w) = false -> model_ w' = model_ w))
  /\ (forall o, engineOptions_t_ctor engineOptions = Some o ->
      exists w', setOptions w engineOptions = Returned w'
        /\ engineOptions_ (engine w') = o
        /\ (isInitialized_ (engine w) = true ->
            model_ w' = Model_with_gravity (model_ w) (gravity (world o))
            /\ pnc_gravity (pncModel_ (model_ w')) = gravity (world o)))
  /\ setOptions w engineOptions <> OutOfFuel.
Proof.
  unfold setOptions. cbn [isInitialized_ engineOptionsHolder_].
  destruct (engineOptions_t_ctor engineOptions) as [o|] eqn:Hctor.
  - split; [|split].
    + intros w' [Hw | Hw]; [|discriminate]. injection Hw as <-.
      cbn. repeat split. intros ->. reflexivity.
    + intros o' Ho. injection Ho as <-. eexists. split; [reflexivity|].
      cbn. split; [reflexivity|]. intros ->. split; reflexivity.
    + discriminate.
  - split; [|split].
    + intros w' [Hw | Hw]; [discriminate|]. injection Hw as <-.
      cbn. repeat split.
    + intros o' Ho. discriminate.
    + discriminate.
Qed.

(** ** Saturation of the command *)

Lemma saturateCommand_prefix m s :
  saturateCommand m s = saturate_prefix m (length (jointsVelocityIdx_ m)) s.
Proof. reflexivity. Qed.

Lemma saturate_prefix_S m k s :
  saturate_prefix m (S k) s = saturate_step m (saturate_prefix m k s) k.
Proof.
  unfold saturate_prefix. rewrite seq_S, fold_left_app. reflexivity.
Qed.

Lemma saturate_prefix_iterLast m k s :
  iterLast (saturate_prefix m k s) = iterLast s.
Proof.
  induction k as [|k IH]; [reflexivity|].
  rewrite saturate_prefix_S. exact IH.
Qed.

Lemma saturate_prefix_length m k s :
  length (uCommandLast (saturate_prefix m k s)) = length (uCommandLast s).
Proof.
  induction k as [|k IH]; [reflexivity|].
  rewrite saturate_prefix_S. cbn. rewrite length_insert. exact IH.
Qed.

(** After [k] passes the first [k] entries are clamped and the others are
    as the controller left them. *)
Lemma saturate_prefix_nth m k s i :
  (k <= length (uCommandLast s))%nat ->
  nth i (uCommandLast (saturate_prefix m k s)) 0
  = if (i <? k)%nat
    then clamp (nth i (uCommandLast s) 0) (- torque_max_of m i) (torque_max_of m i)
    else nth i (uCommandLast s) 0.
Proof.
  induction k as [|k IH]; intros Hk; [reflexivity|].
  rewrite saturate_prefix_S. cbn [saturate_step uCommandLast with_uControl
                                  with_uCommandLast].
  specialize (IH ltac:(lia)).
  destruct (Nat.eq_dec i k) as [-> | Hik].
  - rewrite nth_lookup, list_lookup_insert_eq
      by (rewrite saturate_prefix_length; lia).
    cbn [default]. rewrite IH.
    destruct (Nat.ltb_spec k k); [lia|].
    destruct (Nat.ltb_spec k (S k)); [|lia]. reflexivity.
  - rewrite nth_lookup, list_lookup_insert_ne by congruence.
    rewrite <- nth_lookup, IH.
    destruct (Nat.ltb_spec i k), (Nat.ltb_spec i (S k)); try lia; reflexivity.
Qed.

Lemma saturateCommand_iterLast m s :
  iterLast (saturateCommand m s) = iterLast s.
Proof. apply saturate_prefix_iterLast. Qed.

Lemma saturateCommand_nth m s i :
  length (uCommandLast s) = length (jointsVelocityIdx_ m) ->
  (i < length (jointsVelocityIdx_ m))%nat ->
  nth i (uCommandLast (saturateCommand m s)) 0
  = clamp (nth i (uCommandLast s) 0) (- torque_max_of m i) (torque_max_of m i).
Proof.
  intros Hlen Hi. rewrite saturateCommand_prefix, saturate_prefix_nth by lia.
  destruct (Nat.ltb_spec i (length (jointsVelocityIdx_ m))); [reflexivity | lia].
Qed.

Lemma saturateCommand_saturated m s :
  length (uCommandLast s) = length (jointsVelocityIdx_ m) ->
  (forall i, (i < length (jointsVelocityIdx_ m))%nat -> 0 <= torque_max_of m i) ->
  cmd_saturated m (uCommandLast (saturateCommand m s)).
Proof.
  intros Hlen Hpos. split.
  - rewrite saturateCommand_prefix, saturate_prefix_length. exact Hlen.
  - intros i Hi. rewrite saturateCommand_nth by assumption.
    apply clamp_abs. now apply Hpos.
Qed.

(** ** What the dynamics and the stepper leave alone *)

Lemma stable_refl w : stable w w.
Proof. repeat split. Qed.

Lemma stable_trans w1 w2 w3 : stable w1 w2 -> stable w2 w3 -> stable w1 w3.
Proof.
  intros (A1 & A2 & A3 & A4 & A5 & A6) (B1 & B2 & B3 & B4 & B5 & B6).
  repeat split; congruence.
Qed.

Lemma systemDynamics_stable w t x0 : stable w (fst (systemDynamics w t x0)).
Proof.
  unfold systemDynamics, stable. destruct_lets; proj_simpl;
    rewrite ?saturateCommand_iterLast; repeat split.
Qed.

(** The command stored after an evaluation of the dynamics: the saturated
    answer of the controller in continuous mode, the command stored
    before otherwise. *)
Lemma systemDynamics_uCommandLast w t x0 :
  let o := stepper (engineOptions_ (engine w)) in
  let s := stepperState_ (engine w) in
  let w' := fst (systemDynamics w t x0) in
  exists m', jointsVelocityIdx_ m' = jointsVelocityIdx_ (model_ w)
    /\ effortLimit (pncModel_ m') = effortLimit (pncModel_ (model_ w))
    /\ uCommandLast (stepperState_ (engine w'))
       = if Rltb (controllerUpdatePeriod o) epsilon
         then uCommandLast
                (saturateCommand m'
                   (with_uCommandLast s
                      (snd (compute_command (controller_ w) m' t
                              (head (nq (model_ w)) x0) (tail (nv (model_ w)) x0)
                              (uCommandLast s)))))
         else uCommandLast s.
Proof.
  intros o s w'. unfold w', systemDynamics. fold o. fold s.
  destruct (contactForcesLoop _ _) as [cf fext] eqn:Hcf.
  destruct (Rltb (controllerUpdatePeriod o) epsilon) eqn:Hc.
  - match goal with
    | |- context [compute_command ?c ?m ?t ?q ?v ?u] =>
        exists m; destruct (compute_command c m t q v u) as [c' u'] eqn:Hcc
    end.
    destruct_lets; proj_simpl; (split; [reflexivity|]);
      (split; [reflexivity|]); reflexivity.
  - exists (model_ w). destruct_lets; proj_simpl; repeat split.
Qed.

Section Preserved.
(** A property of the world that the dynamics keep and that does not
    read the state [x] and its derivative is kept by every sequence of
    integration steps. *)
Variable P : World -> Prop.
Hypothesis P_dynamics : forall w t x0, P w -> P (fst (systemDynamics w t x0)).
Hypothesis P_state : forall w x' d',
  P w -> P (with_stepperState w (with_dxdt (with_x (stepperState_ (engine w)) x') d')).

Lemma run_try_step_preserves p w : P w -> P (fst (run_try_step p w)).
Proof.
  revert w. induction p as [res x' d' t' dt' | x0 t k IH]; intros w Hw.
  - exact Hw.
  - cbn [run_try_step].
    destruct (systemDynamics w t x0) as [w1 d] eqn:Hd.
    apply IH. change w1 with (fst (w1, d)). rewrite <- Hd.
    now apply P_dynamics.
Qed.

Lemma call_try_step_preserves w t dt0 : P w -> P (fst (call_try_step w t dt0)).
Proof.
  intros Hw. unfold call_try_step.
  match goal with
  | |- context [run_try_step ?p w] =>
      pose proof (run_try_step_preserves p w Hw) as Hrun;
      destruct (run_try_step p w) as [w1 [[[[res x'] d'] t'] dt']]
  end.
  cbn [fst] in *. now apply P_state.
Qed.

Lemma breakpoint_steps_preserves fuel w l w' :
  P w -> outcome_world (breakpoint_steps fuel w l) = Some w' -> P w'.
Proof.
  revert w l. induction fuel as [|fuel IH]; intros w l Hw Hr; [discriminate|].
  cbn [breakpoint_steps] in Hr.
  destruct (Rltb (current_time l) (next_time l)).
  - match type of Hr with
    | context [call_try_step w ?t ?d] =>
        pose proof (call_try_step_preserves w t d Hw) as Hstep;
        destruct (call_try_step w t d) as [w1 [[res t'] dt']]
    end.
    cbn [fst] in Hstep. destruct res.
    + eapply IH; eassumption.
    + destruct (fail_checker_call (fail_checker l)).
      * eapply IH; eassumption.
      * cbn in Hr. now injection Hr as <-.
  - cbn in Hr. now injection Hr as <-.
Qed.

Lemma free_steps_preserves fuel w l w' :
  P w -> outcome_world (free_steps fuel w l) = Some w' -> P w'.
Proof.
  revert w l. induction fuel as [|fuel IH]; intros w l Hw Hr; [discriminate|].
  cbn [free_steps] in Hr.
  match type of Hr with
  | context [call_try_step w ?t ?d] =>
      pose proof (call_try_step_preserves w t d Hw) as Hstep;
      destruct (call_try_step w t d) as [w1 [[res t'] dt']]
  end.
  cbn [fst] in Hstep. destruct res.
  - cbn in Hr. now injection Hr as <-.
  - destruct (fail_checker_call (fail_checker l)).
    + eapply IH; eassumption.
    + cbn in Hr. now injection Hr as <-.
Qed.
End Preserved.

Lemma stable_dynamics w0 w t x0 :
  stable w0 w -> stable w0 (fst (systemDynamics w t x0)).
Proof. intros Hw. eapply stable_trans; [exact Hw | apply systemDynamics_stable]. Qed.

Lemma stable_state w0 w x' d' :
  stable w0 w ->
  stable w0 (with_stepperState w (with_dxdt (with_x (stepperState_ (engine w)) x') d')).
Proof. intros Hw. exact Hw. Qed.

Lemma breakpoint_updates_stable w l : stable w (breakpoint_updates w l).
Proof.
  unfold breakpoint_updates.
  set (o := stepper (engineOptions_ (engine w))).
  match goal with
  | |- context [if Rgtb (sensorsUpdatePeriod o) 0 then ?a else w] =>
      set (w1 := if Rgtb (sensorsUpdatePeriod o) 0 then a else w)
  end.
  assert (H1 : stable w w1).
  { unfold w1. destruct_lets; unfold stable; proj_simpl; repeat split. }
  clearbody w1.
  destruct (Rgtb (controllerUpdatePeriod o) 0); [|exact H1].
  destruct (Rltb _ 1e-8); [|exact H1].
  destruct (compute_command _ _ _ _ _ _) as [ctrl u].
  match goal with
  | |- context [systemDynamics ?w2 ?t ?x0] =>
      pose proof (systemDynamics_stable w2 t x0) as H2;
      destruct (systemDynamics w2 t x0) as [w3 d]
  end.
  eapply stable_trans; [exact H1|].
  destruct H1 as (A1 & A2 & A3 & A4 & A5 & A6).
  destruct H2 as (B1 & B2 & B3 & B4 & B5 & B6).
  unfold stable in *. proj_simpl. rewrite saturateCommand_iterLast in B1.
  proj_simpl. repeat split; assumption.
Qed.

(** ** The integration loop *)

Lemma stable_update_internal_state w l :
  let w' := update_internal_state w l in
  iterLast (stepperState_ (engine w'))
  = to_uint32 (iterLast (stepperState_ (engine w)) + 1)
  /\ uCommandLast (stepperState_ (engine w'))
     = uCommandLast (stepperState_ (engine w))
  /\ telemetryRecorder_ (engine w') = telemetryRecorder_ (engine w)
  /\ engineOptions_ (engine w') = engineOptions_ (engine w)
  /\ callbackFct_ (engine w') = callbackFct_ (engine w)
  /\ jointsVelocityIdx_ (model_ w') = jointsVelocityIdx_ (model_ w)
  /\ effortLimit (pncModel_ (model_ w')) = effortLimit (pncModel_ (model_ w)).
Proof.
  unfold update_internal_state. destruct_lets. proj_simpl. repeat split.
Qed.

(** A complete iteration keeps what [stable] lists, the count apart. *)
Lemma loop_body_stable fuel e p w l w' l' :
  loop_body fuel e p w l = Returned (w', l') ->
  exists w1, stable w w1 /\ w' = update_internal_state w1 l'.
Proof.
  unfold loop_body. intros Hr.
  destruct (Rgtb p 0).
  - match type of Hr with
    | context [breakpoint_steps fuel ?w0 ?l0] =>
        pose proof (breakpoint_steps_preserves (stable w) (stable_dynamics w)
                      (stable_state w) fuel w0 l0) as Hpres;
        destruct (breakpoint_steps fuel w0 l0) as [[w1 l1]| |]; try discriminate
    end.
    injection Hr as <- <-. exists w1. split; [|reflexivity].
    apply Hpres; [apply breakpoint_updates_stable | reflexivity].
  - match type of Hr with
    | context [free_steps fuel w ?l0] =>
        pose proof (free_steps_preserves (stable w) (stable_dynamics w)
                      (stable_state w) fuel w l0) as Hpres;
        destruct (free_steps fuel w l0) as [[w1 l1]| |]; try discriminate
    end.
    injection Hr as <- <-. exists w1. split; [|reflexivity].
    apply Hpres; [apply stable_refl | reflexivity].
Qed.

Lemma loop_body_iterLast fuel e p w l w' l' :
  loop_body fuel e p w l = Returned (w', l') ->
  iterLast (stepperState_ (engine w'))
  = to_uint32 (iterLast (stepperState_ (engine w)) + 1).
Proof.
  intros Hr. apply loop_body_stable in Hr as (w1 & Hst & ->).
  destruct (stable_update_internal_state w1 l') as [-> _].
  destruct Hst as [-> _]. reflexivity.
Qed.

Lemma stop_condition_iff e w l :
  stop_condition e w l = true <->
  Rabs (e - current_time l) < epsilon
  \/ callbackFct_ (engine w) (current_time l) (x (stepperState_ (engine w))) = false
  \/ (100000 <= iterLast (stepperState_ (engine w)))%Z.
Proof.
  unfold stop_condition. rewrite !orb_true_iff, negb_true_iff, Z.leb_le.
  destruct (Rltb_spec (Rabs (e - current_time l)) epsilon); intuition congruence.
Qed.

Lemma to_uint32_succ z : (0 <= z < 100000)%Z -> to_uint32 (z + 1) = (z + 1)%Z.
Proof. intros Hz. unfold to_uint32. apply Z.mod_small. lia. Qed.

(** Every run that leaves the loop by its [break] is a [loop_run], and
    the iteration count has grown by the number of its iterations without
    passing 100000. *)
Lemma integration_loop_run fuel e p w l w' l' :
  integration_loop fuel e p w l = Returned (w', l') ->
  (0 <= iterLast (stepperState_ (engine w)) <= 100000)%Z ->
  exists n,
    loop_run e p w l n w' l'
    /\ iterLast (stepperState_ (engine w'))
       = (iterLast (stepperState_ (engine w)) + Z.of_nat n)%Z
    /\ (iterLast (stepperState_ (engine w')) <= 100000)%Z.
Proof.
  revert w l. induction fuel as [|fuel IH]; intros w l Hr Hit; [discriminate|].
  cbn [integration_loop] in Hr.
  destruct (stop_condition e (flushDataSnapshot w) l) eqn:Hstop.
  - injection Hr as <- <-. exists 0%nat. split; [now constructor|].
    cbn. split; lia.
  - destruct (loop_body fuel e p (flushDataSnapshot w) l) as [[w1 l1]| |] eqn:Hb;
      try discriminate.
    assert (Hlt : (iterLast (stepperState_ (engine w)) < 100000)%Z).
    { unfold stop_condition in Hstop.
      apply orb_false_iff in Hstop as [_ Hstop]. apply Z.leb_gt in Hstop.
      exact Hstop. }
    pose proof (loop_body_iterLast _ _ _ _ _ _ _ Hb) as Hit1.
    cbn [flushDataSnapshot with_telemetry engine Engine_with_telemetry
         stepperState_] in Hit1.
    rewrite to_uint32_succ in Hit1 by lia.
    destruct (IH w1 l1 Hr) as (n & Hrun & Hn & Hle); [lia|].
    exists (S n). split; [econstructor; eassumption|].
    split; [lia | exact Hle].
Qed.

(** More fuel does not change an outcome that was reached. *)
Lemma breakpoint_steps_mono f f' w l :
  (f <= f')%nat -> breakpoint_steps f w l <> OutOfFuel ->
  breakpoint_steps f' w l = breakpoint_steps f w l.
Proof.
  revert f' w l. induction f as [|f IH]; intros f' w l Hle Hr; [now elim Hr|].
  destruct f' as [|f']; [lia|]. cbn [breakpoint_steps] in *.
  destruct (Rltb (current_time l) (next_time l)); [|reflexivity].
  destruct (call_try_step w (current_time l) _) as [w1 [[res t'] dt']].
  destruct res.
  - apply IH; [lia | exact Hr].
  - destruct (fail_checker_call (fail_checker l)); [|reflexivity].
    apply IH; [lia | exact Hr].
Qed.

Lemma free_steps_mono f f' w l :
  (f <= f')%nat -> free_steps f w l <> OutOfFuel ->
  free_steps f' w l = free_steps f w l.
Proof.
  revert f' w l. induction f as [|f IH]; intros f' w l Hle Hr; [now elim Hr|].
  destruct f' as [|f']; [lia|]. cbn [free_steps] in *.
  destruct (call_try_step w (current_time l) (dt l)) as [w1 [[res t'] dt']].
  destruct res; [reflexivity|].
  destruct (fail_checker_call (fail_checker l)); [|reflexivity].
  apply IH; [lia | exact Hr].
Qed.

Lemma loop_body_mono f f' e p w l :
  (f <= f')%nat -> loop_body f e p w l <> OutOfFuel ->
  loop_body f' e p w l = loop_body f e p w l.
Proof.
  intros Hle Hr. unfold loop_body in *.
  destruct (Rgtb p 0).
  - rewrite (breakpoint_steps_mono f f'); [reflexivity | exact Hle |].
    intros Hout. rewrite Hout in Hr. now elim Hr.
  - rewrite (free_steps_mono f f'); [reflexivity | exact Hle |].
    intros Hout. rewrite Hout in Hr. now elim Hr.
Qed.

Lemma integration_loop_mono f f' e p w l :
  (f <= f')%nat -> integration_loop f e p w l <> OutOfFuel ->
  integration_loop f' e p w l = integration_loop f e p w l.
Proof.
  revert f' w l. induction f as [|f IH]; intros f' w l Hle Hr; [now elim Hr|].
  destruct f' as [|f']; [lia|]. cbn [integration_loop] in *.
  destruct (stop_condition e (flushDataSnapshot w) l); [reflexivity|].
  rewrite (loop_body_mono f f') by
    (try lia; intros Hout; rewrite Hout in Hr; now elim Hr).
  destruct (loop_body f e p (flushDataSnapshot w) l) as [[w1 l1]| |];
    try reflexivity.
  apply IH; [lia | exact Hr].
Qed.

(** Every [loop_run] is the outcome of the loop, given fuel enough. *)
Lemma loop_run_integration_loop e p w l n w' l' :
  loop_run e p w l n w' l' ->
  exists fuel, integration_loop fuel e p w l = Returned (w', l').
Proof.
  induction 1 as [w l Hstop | w l fb w1 l1 n w' l' Hstop Hb Hrun [fr IH]].
  - exists 1%nat. cbn [integration_loop]. now rewrite Hstop.
  - exists (S (Nat.max fb fr)). cbn [integration_loop]. rewrite Hstop.
    rewrite (loop_body_mono fb) by (try lia; rewrite Hb; discriminate).
    rewrite Hb.
    rewrite (integration_loop_mono fr) by (try lia; rewrite IH; discriminate).
    exact IH.
Qed.

(** At the exit of a [loop_run] the condition of the [break] holds, and
    the iteration count has grown by one for each iteration. *)
Lemma loop_run_exit e p w l n w' l' :
  loop_run e p w l n w' l' ->
  (0 <= iterLast (stepperState_ (engine w)) <= 100000)%Z ->
  stop_condition e w' l' = true
  /\ iterLast (stepperState_ (engine w'))
     = (iterLast (stepperState_ (engine w)) + Z.of_nat n)%Z
  /\ (iterLast (stepperState_ (engine w')) <= 100000)%Z.
Proof.
  induction 1 as [w l Hstop | w l fb w1 l1 n w' l' Hstop Hb Hrun IH]; intros Hit.
  - split; [exact Hstop|]. cbn. lia.
  - assert (Hlt : (iterLast (stepperState_ (engine w)) < 100000)%Z).
    { unfold stop_condition in Hstop.
      apply orb_false_iff in Hstop as [_ Hstop]. apply Z.leb_gt in Hstop.
      exact Hstop. }
    pose proof (loop_body_iterLast _ _ _ _ _ _ _ Hb) as Hit1.
    cbn [flushDataSnapshot with_telemetry engine Engine_with_telemetry
         stepperState_] in Hit1.
    rewrite to_uint32_succ in Hit1 by lia.
    destruct IH as (Hs & Hn & Hle); [lia|].
    split; [exact Hs|]. split; [lia | exact Hle].
Qed.

Lemma simulate_setup_iterLast w x_init :
  iterLast (stepperState_ (engine (simulate_setup w x_init))) = 0%Z.
Proof.
  unfold simulate_setup.
  match goal with
  | |- context [systemDynamics ?w0 ?t ?x0] =>
      pose proof (systemDynamics_stable w0 t x0) as [Hst _];
      destruct (systemDynamics w0 t x0) as [w1 d]
  end.
  proj_simpl. exact Hst.
Qed.


(** ** Saturation along a run *)

Lemma cmd_saturated_same_motors m0 m u :
  same_motors m0 m -> cmd_saturated m u -> cmd_saturated m0 u.
Proof.
  intros [Hv He] [Hlen Hsat]. unfold cmd_saturated, torque_max_of in *.
  rewrite Hv, He in *. now split.
Qed.

Section SaturationRun.
Hypothesis Hctrl : command_sized.
Variable m0 : Model.
Hypothesis Hpos :
  forall i, (i < length (jointsVelocityIdx_ m0))%nat -> 0 <= torque_max_of m0 i.

(** What a call of the controller followed by the saturation loop
    stores. *)
Lemma controller_call_saturated c m t q v s :
  same_motors m0 m ->
  cmd_saturated m0
    (uCommandLast
       (saturateCommand m
          (with_uCommandLast s (snd (compute_command c m t q v (uCommandLast s)))))).
Proof.
  intros Hm. apply (cmd_saturated_same_motors m0 m); [exact Hm|].
  apply saturateCommand_saturated.
  - proj_simpl. apply Hctrl.
  - destruct Hm as [Hv He]. unfold torque_max_of in *. rewrite Hv, He.
    exact Hpos.
Qed.

Lemma cmd_inv_dynamics w t x0 :
  cmd_inv m0 w -> cmd_inv m0 (fst (systemDynamics w t x0)).
Proof.
  intros [[Hv He] Hsat].
  destruct (systemDynamics_stable w t x0) as (_ & _ & _ & _ & Sv & Se).
  destruct (systemDynamics_uCommandLast w t x0) as (m' & Hv' & He' & Hu).
  split; [split; congruence|].
  cbv zeta in Hu. rewrite Hu.
  destruct (Rltb _ epsilon); [|exact Hsat].
  apply controller_call_saturated. split; congruence.
Qed.

(** In continuous mode an evaluation of the dynamics stores a saturated
    command, whatever was stored before. *)
Lemma systemDynamics_saturates w t x0 :
  same_motors m0 (model_ w) ->
  controllerUpdatePeriod (stepper (engineOptions_ (engine w))) < epsilon ->
  cmd_inv m0 (fst (systemDynamics w t x0)).
Proof.
  intros [Hv He] Hc.
  destruct (systemDynamics_stable w t x0) as (_ & _ & _ & _ & Sv & Se).
  destruct (systemDynamics_uCommandLast w t x0) as (m' & Hv' & He' & Hu).
  split; [split; congruence|].
  cbv zeta in Hu. rewrite Hu, Rltb_lt by exact Hc.
  apply controller_call_saturated. split; congruence.
Qed.

(** The updates at a break-point keep the stored command saturated, and
    make it so at a break-point of the controller. *)
Lemma breakpoint_updates_cmd_inv w l :
  same_motors m0 (model_ w) ->
  let o := stepper (engineOptions_ (engine w)) in
  cmd_inv m0 w
  \/ (controllerUpdatePeriod o > 0
      /\ Rabs (current_time l
               - round (current_time l / controllerUpdatePeriod o)
                 * controllerUpdatePeriod o) < 1e-8) ->
  cmd_inv m0 (breakpoint_updates w l).
Proof.
  intros Hm o Hcase. unfold breakpoint_updates. fold o.
  match goal with
  | |- context [if Rgtb (sensorsUpdatePeriod o) 0 then ?a else w] =>
      set (w1 := if Rgtb (sensorsUpdatePeriod o) 0 then a else w)
  end.
  assert (Hw1 : same_motors m0 (model_ w1)
                /\ uCommandLast (stepperState_ (engine w1))
                   = uCommandLast (stepperState_ (engine w))).
  { unfold w1. destruct_lets; proj_simpl; split; try reflexivity; exact Hm. }
  clearbody w1. destruct Hw1 as [Hm1 Hu1].
  assert (Hkeep : cmd_inv m0 w -> cmd_inv m0 w1).
  { intros [_ Hsat]. split; [exact Hm1 | now rewrite Hu1]. }
  destruct (Rgtb_spec (controllerUpdatePeriod o) 0) as [Hc | Hc];
    [|destruct Hcase as [Hinv | [Hc' _]]; [now apply Hkeep | lra]].
  destruct (Rltb_spec
              (Rabs (current_time l
                     - round (current_time l / controllerUpdatePeriod o)
                       * controllerUpdatePeriod o)) 1e-8) as [Hb | Hb];
    [|destruct Hcase as [Hinv | [_ Hb']]; [now apply Hkeep | lra]].
  pose proof (controller_call_saturated (controller_ w1) (model_ w1)
                (tLast (stepperState_ (engine w1)))
                (qLast (stepperState_ (engine w1)))
                (vLast (stepperState_ (engine w1)))
                (stepperState_ (engine w1)) Hm1) as Hsat.
  destruct (compute_command _ _ _ _ _ _) as [ctrl u].
  match goal with
  | |- context [systemDynamics ?w2 ?t ?x0] =>
      assert (Hinv2 : cmd_inv m0 w2) by (split; [exact Hm1 | exact Hsat]);
      pose proof (cmd_inv_dynamics w2 t x0 Hinv2) as Hinv3;
      destruct (systemDynamics w2 t x0) as [w3 d]
  end.
  exact Hinv3.
Qed.

Lemma cmd_inv_update_internal_state w l :
  cmd_inv m0 w -> cmd_inv m0 (update_internal_state w l).
Proof.
  intros [[Hv He] Hsat].
  destruct (stable_update_internal_state w l)
    as (_ & Hu & _ & _ & _ & Sv & Se).
  split; [split; congruence|]. now rewrite Hu.
Qed.

Lemma flushDataSnapshot_rows w :
  cmd_inv m0 w -> rows_saturated m0 w ->
  cmd_inv m0 (flushDataSnapshot w) /\ rows_saturated m0 (flushDataSnapshot w).
Proof.
  intros Hinv Hrows. split; [exact Hinv|].
  unfold rows_saturated, flushDataSnapshot in *. proj_simpl.
  apply Forall_app. split; [exact Hrows|].
  constructor; [|constructor].
  intros u. cbn [row_uCommand].
  destruct (logCommand _); [|discriminate].
  intros Hu. injection Hu as <-. apply Hinv.
Qed.

(** The invariant of the run: the stored command and every recorded
    command are saturated. *)
Let run_inv (w0 w : World) : Prop :=
  cmd_inv m0 w /\ telemetryRecorder_ (engine w) = telemetryRecorder_ (engine w0).

Lemma run_inv_dynamics w0 w t x0 :
  run_inv w0 w -> run_inv w0 (fst (systemDynamics w t x0)).
Proof.
  intros [Hinv Htel]. split; [now apply cmd_inv_dynamics|].
  destruct (systemDynamics_stable w t x0) as (_ & St & _). congruence.
Qed.

Lemma loop_body_cmd_inv fuel e p w l w' :
  cmd_inv m0 w ->
  outcome_world (loop_body fuel e p w l) = Some w' ->
  cmd_inv m0 w'
  /\ telemetryRecorder_ (engine w') = telemetryRecorder_ (engine w).
Proof.
  intros Hinv Hr. unfold loop_body in Hr.
  destruct (Rgtb p 0).
  - match type of Hr with
    | context [breakpoint_steps fuel ?w1 ?l1] =>
        pose proof (breakpoint_steps_preserves (run_inv w)
                      (run_inv_dynamics w) (fun w2 x' d' Hw2 => Hw2)
                      fuel w1 l1) as Hpres;
        assert (Hstart : run_inv w w1);
        [|destruct (breakpoint_steps fuel w1 l1) as [[w2 l2]|w2|]]
    end.
    + split.
      * apply breakpoint_updates_cmd_inv; [apply Hinv | now left].
      * destruct (breakpoint_updates_stable w
                    (mkLocals (dt l) (next_time l)
                       (next_time l + Rmin p (e - next_time l))
                       (fail_checker l))) as (_ & St & _).
        exact St.
    + cbn in Hr. injection Hr as <-.
      destruct (Hpres w2 Hstart eq_refl) as [Hi Ht].
      split; [now apply cmd_inv_update_internal_state|].
      destruct (stable_update_internal_state w2 l2) as (_ & _ & St & _).
      congruence.
    + cbn in Hr. injection Hr as <-. exact (Hpres w2 Hstart eq_refl).
    + discriminate.
  - match type of Hr with
    | context [free_steps fuel w ?l1] =>
        pose proof (free_steps_preserves (run_inv w)
                      (run_inv_dynamics w) (fun w2 x' d' Hw2 => Hw2)
                      fuel w l1) as Hpres;
        assert (Hstart : run_inv w w) by (split; [exact Hinv | reflexivity]);
        destruct (free_steps fuel w l1) as [[w2 l2]|w2|]
    end.
    + cbn in Hr. injection Hr as <-.
      destruct (Hpres w2 Hstart eq_refl) as [Hi Ht].
      split; [now apply cmd_inv_update_internal_state|].
      destruct (stable_update_internal_state w2 l2) as (_ & _ & St & _).
      congruence.
    + cbn in Hr. injection Hr as <-. exact (Hpres w2 Hstart eq_refl).
    + discriminate.
Qed.

Lemma integration_loop_rows fuel e p w l w' :
  cmd_inv m0 w -> rows_saturated m0 w ->
  outcome_world (integration_loop fuel e p w l) = Some w' ->
  cmd_inv m0 w' /\ rows_saturated m0 w'.
Proof.
  revert w l. induction fuel as [|fuel IH]; intros w l Hinv Hrows Hr;
    [discriminate|].
  cbn [integration_loop] in Hr.
  destruct (flushDataSnapshot_rows w Hinv Hrows) as [Hinv1 Hrows1].
  destruct (stop_condition e (flushDataSnapshot w) l).
  - cbn in Hr. injection Hr as <-. now split.
  - pose proof (loop_body_cmd_inv fuel e p (flushDataSnapshot w) l) as Hb.
    destruct (loop_body fuel e p (flushDataSnapshot w) l) as [[w1 l1]|w1|].
    + destruct (Hb w1 Hinv1 eq_refl) as [Hi Ht].
      apply (IH w1 l1); [exact Hi | | exact Hr].
      unfold rows_saturated in *. now rewrite Ht.
    + cbn in Hr. injection Hr as <-.
      destruct (Hb w1 Hinv1 eq_refl) as [Hi Ht].
      split; [exact Hi|]. unfold rows_saturated in *. now rewrite Ht.
    + discriminate.
Qed.
End SaturationRun.

Lemma Zero_saturated m :
  (forall i, (i < length (jointsVelocityIdx_ m))%nat -> 0 <= torque_max_of m i) ->
  cmd_saturated m (Zero (length (jointsVelocityIdx_ m))).
Proof.
  intros Hpos. split; [apply length_replicate|].
  intros i Hi. unfold Zero. rewrite nth_lookup, lookup_replicate_2 by exact Hi.
  cbn. rewrite Rabs_R0. now apply Hpos.
Qed.

Lemma simulate_setup_cmd_inv w x_init :
  command_sized ->
  (forall i, (i < length (jointsVelocityIdx_ (model_ w)))%nat ->
             0 <= torque_max_of (model_ w) i) ->
  cmd_inv (model_ w) (simulate_setup w x_init)
  /\ rows_saturated (model_ w) (simulate_setup w x_init).
Proof.
  intros Hctrl Hpos. unfold simulate_setup.
  match goal with
  | |- context [systemDynamics ?w0 ?t ?x0] =>
      assert (Hinv0 : cmd_inv (model_ w) w0);
      [|pose proof (cmd_inv_dynamics Hctrl (model_ w) Hpos w0 t x0 Hinv0) as Hinv1;
        destruct (systemDynamics w0 t x0) as [w1 d]]
  end.
  - split; [split; reflexivity|]. proj_simpl.
    unfold stepperState_initialize_x, stepperState_initialize. proj_simpl.
    now apply Zero_saturated.
  - split; [exact Hinv1 | constructor].
Qed.

(** C6: each call of the controller is followed by the saturation loop,
    which replaces entry [i] of the command by its clamp between minus
    and plus the effort limit of motor [i]; with a command of one entry
    for each motor and effort limits that are not negative, the command
    stored by an evaluation of the dynamics in continuous mode and by a
    controller break-point is within the limits, and so is every
    command recorded by the telemetry of a run, whether the run returns
    or is aborted by the stepper. *)
Theorem command_saturation (w : World) :
  command_sized ->
  (forall i, (i < length (jointsVelocityIdx_ (model_ w)))%nat ->
             0 <= torque_max_of (model_ w) i) ->
  let m := model_ w in
  let o := stepper (engineOptions_ (engine w)) in
  (forall s i,
     length (uCommandLast s) = length (jointsVelocityIdx_ m) ->
     (i < length (jointsVelocityIdx_ m))%nat ->
     nth i (uCommandLast (saturateCommand m s)) 0
     = clamp (nth i (uCommandLast s) 0) (- torque_max_of m i) (torque_max_of m i))
  /\ (forall t x0,
      controllerUpdatePeriod o < epsilon ->
      cmd_saturated m
        (uCommandLast (stepperState_ (engine (fst (systemDynamics w t x0))))))
  /\ (forall l,
      controllerUpdatePeriod o > 0 ->
      Rabs (current_time l
            - round (current_time l / controllerUpdatePeriod o)
              * controllerUpdatePeriod o) < 1e-8 ->
      cmd_saturated m
        (uCommandLast (stepperState_ (engine (breakpoint_updates w l)))))
  /\ (forall fuel x_init end_time w',
      simulate fuel w x_init end_time = Returned (SUCCESS, w')
      \/ simulate fuel w x_init end_time = Thrown w' ->
      Forall (fun row =>
                forall u, row_uCommand row = Some u ->
                  length u = length (jointsVelocityIdx_ m)
                  /\ forall i, (i < length (jointsVelocityIdx_ m))%nat ->
                       Rabs (nth i u 0) <= torque_max_of m i)
             (telemetryRecorder_ (engine w'))).
Proof.
  intros Hctrl Hpos m o.
  split; [|split; [|split]].
  - intros s i Hlen Hi. now apply saturateCommand_nth.
  - intros t x0 Hc.
    apply (systemDynamics_saturates Hctrl m Hpos w t x0); [now split | exact Hc].
  - intros l Hc Hb.
    apply (breakpoint_updates_cmd_inv Hctrl m Hpos w l); [now split|].
    right. now split.
  - intros fuel x_init end_time w' Hr.
    assert (Hw' : outcome_world
                    (integration_loop fuel end_time (updatePeriod_of o)
                       (simulate_setup w x_init)
                       (mkLocals (initial_dt (updatePeriod_of o)) 0 0 0))
                  = Some w').
    { unfold simulate in Hr. fold o in Hr.
      destruct (negb (isInitialized_ (engine w)));
        [destruct Hr; discriminate|].
      destruct (negb (length x_init =? nx (model_ w))%nat);
        [destruct Hr; discriminate|].
      destruct (Rltb end_time 5e-2); [destruct Hr; discriminate|].
      destruct (integration_loop _ _ _ _ _) as [[w1 l1]|w1|];
        destruct Hr as [Hr | Hr]; try discriminate;
        injection Hr as <-; reflexivity. }
    destruct (simulate_setup_cmd_inv w x_init Hctrl Hpos) as [Hinv Hrows].
    destruct (integration_loop_rows Hctrl m Hpos _ _ _ _ _ _ Hinv Hrows Hw')
      as [_ Hrows'].
    exact Hrows'.
Qed.

Lemma simulate_setup_callbackFct w x_init :
  callbackFct_ (engine (simulate_setup w x_init)) = callbackFct_ (engine w).
Proof.
  unfold simulate_setup.
  match goal with
  | |- context [systemDynamics ?w0 ?t ?x0] =>
      pose proof (systemDynamics_stable w0 t x0) as (_ & _ & _ & Hst & _);
      destruct (systemDynamics w0 t x0) as [w1 d]
  end.
  proj_simpl. exact Hst.
Qed.

End EngineFacts.

(** * The properties on the concrete system *)

Import Scenario.

Lemma seek_spec_witness :
  (Z.of_nat (length (MemoryDevice.buffer_ (MemoryDevice.create 4)))
   <= MemoryDevice.int64_max)%Z
  /\ MemoryDevice.seek (MemoryDevice.create 4) 2
     = (SUCCESS, MemoryDevice.mk (MemoryDevice.buffer_ (MemoryDevice.create 4)) 2).
Proof.
  assert (Hlen : (Z.of_nat (length (MemoryDevice.buffer_ (MemoryDevice.create 4)))
                  <= MemoryDevice.int64_max)%Z) by (vm_compute; discriminate).
  split; [exact Hlen|].
  apply (MemoryDeviceFacts.seek_spec (MemoryDevice.create 4) 2 Hlen).
  vm_compute. split; [discriminate | reflexivity].
Defined.

(** A position beyond the buffer is refused with [ERROR_GENERIC], which
    is not the return code of a bad input. *)
Lemma seek_beyond_buffer_not_bad_input :
  (4 >= Z.of_nat (length (MemoryDevice.buffer_ (MemoryDevice.create 4))))%Z
  /\ fst (MemoryDevice.seek (MemoryDevice.create 4) 4) = ERROR_GENERIC
  /\ fst (MemoryDevice.seek (MemoryDevice.create 4) 4) <> ERROR_BAD_INPUT.
Proof.
  split; [vm_compute; discriminate|]. split; [reflexivity | discriminate].
Qed.

Lemma readData_writeData_spec_witness :
  MemoryDevice.wf (snd (MemoryDevice.seek (MemoryDevice.create 4) 3))
  /\ (0 <= 2)%Z
  /\ MemoryDevice.readData (snd (MemoryDevice.seek (MemoryDevice.create 4) 3)) 2
     = Some (1%Z, [x00],
             MemoryDevice.mk (MemoryDevice.buffer_ (MemoryDevice.create 4)) 4).
Proof.
  assert (Hwf : MemoryDevice.wf (snd (MemoryDevice.seek (MemoryDevice.create 4) 3))).
  { split; vm_compute; [split|]; discriminate. }
  split; [exact Hwf|]. split; [lia|].
  exact (proj1 (proj2 (proj2 (proj2
    (MemoryDeviceFacts.readData_writeData_spec
       (snd (MemoryDevice.seek (MemoryDevice.create 4) 3)) 2 Hwf ltac:(lia)))))).
Defined.

(** [resize] does not move the position: after [seek 9] on a device of 10
    bytes and [resize 5] the position is beyond the buffer, 4 bytes are
    missing rather than left, and a transfer of 2 bytes asks [memcpy] for
    bytes outside the buffer. *)
Lemma transfer_after_resize_out_of_buffer :
  let d := MemoryDevice.resize
             (snd (MemoryDevice.seek (MemoryDevice.create 10) 9)) 5 in
  (0 <= 2)%Z
  /\ Z.of_nat (length (MemoryDevice.buffer_ d)) = 5%Z
  /\ MemoryDevice.currentPos_ d = 9%Z
  /\ MemoryDevice.bytesAvailable d = (-4)%Z
  /\ MemoryDevice.readData d 2 = None
  /\ MemoryDevice.writeData d [x01; x02] 2 = None.
Proof.
  intros d. split; [lia|]. repeat split; vm_compute; reflexivity.
Qed.

Lemma contactDynamics_spec_witness :
  let o := options 0 0 in
  let oMf_frame := oMf (pncData_ model) 0 in
  let pz := c2 (translation oMf_frame) in
  let vFrameInWorld :=
    mulMV (rotation oMf_frame)
          (getFrameVelocity_linear (pncModel_ model) (pncData_ model) 0) in
  pz < 0
  /\ c2 (contact_fextInWorld (contacts o) (translation oMf_frame) vFrameInWorld)
     = - stiffness (contacts o) * pz
       + damping (contacts o) * Rmax 0 (- c2 vFrameInWorld).
Proof.
  intros o oMf_frame pz vFrameInWorld.
  assert (Hpz : pz < 0) by (cbn; lra).
  split; [exact Hpz|].
  exact (proj1 (proj2 (contactDynamics_spec o model 0) Hpz)).
Defined.

Lemma norm2_2_0 : norm2 2 0 = 2.
Proof.
  unfold norm2. replace (2 * 2 + 0 * 0) with (2 * 2) by ring.
  apply sqrt_square. lra.
Qed.

(** The whole wrench of the sliding frame: its pose is the identity
    moved 1 m below the ground and it is attached at the origin of its
    joint, so the wrench is the world force times [tanh 2], without
    moment. *)
Example contactDynamics_sliding :
  contactDynamics (options 0 0) model 0
  = [-2 * tanh 2; 0 * tanh 2; 1 * tanh 2; 0 * tanh 2; 0 * tanh 2; 0 * tanh 2].
Proof.
  assert (Hv : mulMV Identity3 (V3 2 0 0) = V3 2 0 0).
  { unfold mulMV, dot3, Identity3. cbn [row0 row1 row2 c0 c1 c2].
    f_equal; ring. }
  assert (Hf : contact_fextInWorld contactOptions (V3 0 0 (-1)) (V3 2 0 0)
               = V3 (-2) 0 1).
  { unfold contact_fextInWorld, contact_normalForce. cbn [c0 c1 c2].
    rewrite norm2_2_0.
    assert (Hmu : contact_frictionCoeff contactOptions 2 = 1).
    { unfold contact_frictionCoeff, contactOptions.
      cbn [dryFrictionVelEps frictionViscous frictionDry].
      rewrite Rgtb_gt by lra. rewrite Rltb_ge by lra. reflexivity. }
    rewrite Hmu. unfold contactOptions. cbn [stiffness damping].
    rewrite Rltb_ge by lra. rewrite !min_max_clamp. unfold clamp.
    f_equal; rewrite ?Rltb_ge by lra; lra. }
  unfold contactDynamics.
  change (oMf (pncData_ model) 0) with (mkSE3 Identity3 (V3 0 0 (-1))).
  change (getFrameVelocity_linear (pncModel_ model) (pncData_ model) 0)
    with (V3 2 0 0).
  change (placement (frame_at (pncModel_ model) 0)) with (mkSE3 Identity3 Zero3).
  change (contacts (options 0 0)) with contactOptions.
  cbn [rotation translation c2]. rewrite Rltb_lt by lra.
  rewrite Hv, Hf.
  replace (2 * (- -1 / transitionEps contactOptions)) with 2
    by (unfold contactOptions; cbn [transitionEps]; lra).
  unfold vscale, vector6, cross, mulMV, mulMM, transpose, dot3, Identity3, Zero3.
  cbn [map row0 row1 row2 c0 c1 c2].
  repeat (f_equal; [ring|]). f_equal. ring.
Qed.

Lemma contact_friction_spec_witness :
  0 < dryFrictionVelEps contactOptions
  /\ c0 (contact_fextInWorld contactOptions (V3 0 0 (-1)) (V3 2 0 0))
     = clamp (- 2 * contact_frictionCoeff contactOptions (norm2 2 0)
              * c2 (contact_fextInWorld contactOptions (V3 0 0 (-1)) (V3 2 0 0)))
             (-1e5) 1e5.
Proof.
  assert (Heps : 0 < dryFrictionVelEps contactOptions) by (cbn; lra).
  split; [exact Heps|].
  exact (proj1 (proj2 (proj2 (proj2
    (contact_friction_spec contactOptions (V3 0 0 (-1)) (V3 2 0 0) Heps))))).
Defined.

(** At a tangential speed of 2 m/s, in the viscous regime, the tangential
    force is -2 N, where the velocity divided by the speed would give
    -1 N. *)
Lemma contact_friction_not_normalised :
  let co := contactOptions in
  let posFrame := V3 0 0 (-1) in
  let v := V3 2 0 0 in
  let s := norm2 (c0 v) (c1 v) in
  let mu := contact_frictionCoeff co s in
  let Fz := c2 (contact_fextInWorld co posFrame v) in
  c2 posFrame < 0
  /\ 0 < dryFrictionVelEps co
  /\ c0 (contact_fextInWorld co posFrame v) = -2
  /\ clamp (- (c0 v / s) * mu * Fz) (-1e5) 1e5 = -1
  /\ c0 (contact_fextInWorld co posFrame v)
     <> clamp (- (c0 v / s) * mu * Fz) (-1e5) 1e5.
Proof.
  intros co posFrame v s mu Fz.
  assert (Hs : s = 2) by apply norm2_2_0.
  assert (Hmu : mu = 1).
  { unfold mu. rewrite Hs. unfold contact_frictionCoeff, co. cbn.
    rewrite Rgtb_gt by lra. rewrite Rltb_ge by lra. reflexivity. }
  assert (HFz : Fz = 1).
  { unfold Fz, contact_fextInWorld, contact_normalForce, co. cbn.
    rewrite Rltb_ge by lra. ring. }
  assert (Hcode : c0 (contact_fextInWorld co posFrame v) = -2).
  { assert (Hx : c0 (contact_fextInWorld co posFrame v)
                 = clamp (- c0 v * mu * Fz) (-1e5) 1e5)
      by apply min_max_clamp.
    rewrite Hx, Hmu, HFz. cbn [c0 v].
    unfold clamp. rewrite !Rltb_ge by lra. ring. }
  assert (Hclaim : clamp (- (c0 v / s) * mu * Fz) (-1e5) 1e5 = -1).
  { rewrite Hs, Hmu, HFz. cbn [c0 v]. unfold clamp.
    rewrite !Rltb_ge by lra. lra. }
  split; [cbn; lra|]. split; [cbn; lra|].
  split; [exact Hcode|]. split; [exact Hclaim|].
  rewrite Hcode, Hclaim. lra.
Qed.

Lemma boundsDynamics_spec_witness :
  boundTransitionEps (joints (options 0 0)) <> 0
  /\ length (jointsVelocityIdx_ model) = length (jointsPositionIdx_ model)
  /\ NoDup (jointsVelocityIdx_ model)
  /\ length (boundsDynamics (options 0 0) model [2] [0]) = nv model
  /\ coeff (boundsDynamics (options 0 0) model [2] [0]) 0
     = tanh (2 * (2 - 1) / 1) * (- 1 * (2 - 1) - 1 * Rmax 0 0).
Proof.
  assert (Heb : boundTransitionEps (joints (options 0 0)) <> 0)
    by (change (1 <> 0); lra).
  assert (Hlen : length (jointsVelocityIdx_ model)
                 = length (jointsPositionIdx_ model)) by reflexivity.
  assert (Hnd : NoDup (jointsVelocityIdx_ model)) by apply NoDup_singleton.
  assert (Hrange : forall j, In j (jointsVelocityIdx_ model) ->
                             (0 <= j < Z.of_nat (nv model))%Z).
  { intros j [<- | []]. cbn. lia. }
  assert (Hord : forall i, (i < length (jointsPositionIdx_ model))%nat ->
            coeff (boundsMin (mdlOptions_joints model)) (Z.of_nat i)
            <= coeff (boundsMax (mdlOptions_joints model)) (Z.of_nat i)).
  { intros i Hi. cbn in Hi. assert (i = 0%nat) as -> by lia.
    change (-1 <= 1). lra. }
  destruct (boundsDynamics_spec (options 0 0) model [2] [0] Heb Hlen Hnd Hrange
              Hord) as (Hl & Hrow & _).
  split; [exact Heb|].
  split; [exact Hlen|]. split; [exact Hnd|]. split; [exact Hl|].
  refine (proj1 (Hrow 0%nat _) _); [cbn; lia | change (2 > 1); lra].
Defined.

(** At a transition scale of zero a joint inside its limits receives NaN,
    not 0: the quotient is [0.0 / 0.0]. *)
Lemma boundsDynamics_nan_inside_limits :
  let jo := {| boundStiffness := 1; boundDamping := 1;
               boundTransitionEps := 0 |} in
  -1 <= 0 <= 1
  /\ bounds_forceJoint_ieee jo 0 0 (-1) 1 = NaN
  /\ bounds_forceJoint_ieee jo 0 0 (-1) 1 <> Finite 0.
Proof.
  intros jo.
  assert (H : bounds_forceJoint_ieee jo 0 0 (-1) 1 = NaN).
  { unfold bounds_forceJoint_ieee.
    rewrite Rgtb_le by lra. rewrite Rltb_ge by lra.
    unfold fdiv. change (boundTransitionEps jo) with 0.
    destruct (Req_dec_T 0 0) as [_ | Hne]; [reflexivity | now elim Hne]. }
  split; [lra|]. split; [exact H|]. rewrite H. discriminate.
Qed.



Lemma simulate_early_return_witness :
  isInitialized_ (engine (world0 false (fun _ _ => true))) = false
  /\ simulate 0 (world0 false (fun _ _ => true)) [0; 0] 1
     = Returned (ERROR_INIT_FAILED, world0 false (fun _ _ => true)).
Proof.
  split; [reflexivity|].
  exact (proj1 (simulate_early_return 0 (world0 false (fun _ _ => true)) [0; 0] 1)
               eq_refl).
Defined.

Lemma setOptions_spec_witness :
  engineOptions_t_ctor (options 0 1) = Some (options 0 1)
  /\ isInitialized_ (engine (world0 true (fun _ _ => true))) = true
  /\ exists w',
       setOptions (world0 true (fun _ _ => true)) (options 0 1) = Returned w'
       /\ pnc_gravity (pncModel_ (model_ w')) = [0; 0; -9.81; 0; 0; 0].
Proof.
  split; [reflexivity|]. split; [reflexivity|].
  destruct (proj1 (proj2 (setOptions_spec (world0 true (fun _ _ => true))
                                          (options 0 1)))
                  (options 0 1) eq_refl) as (w' & Hr & _ & Hg).
  exists w'. split; [exact Hr|]. exact (proj2 (Hg eq_refl)).
Defined.

Lemma command_saturation_witness :
  command_sized
  /\ (forall i, (i < length (jointsVelocityIdx_ model))%nat ->
                0 <= torque_max_of model i)
  /\ cmd_saturated model
       (uCommandLast
          (stepperState_
             (engine (fst (systemDynamics (world0 true (fun _ _ => true)) 0 [0; 0]))))).
Proof.
  assert (Hctrl : command_sized).
  { intros c m t q v u. cbn. apply length_replicate. }
  assert (Hpos : forall i, (i < length (jointsVelocityIdx_ model))%nat ->
                           0 <= torque_max_of model i).
  { intros i Hi. cbn in Hi. assert (i = 0%nat) as -> by lia.
    change (0 <= 1). lra. }
  split; [exact Hctrl|]. split; [exact Hpos|].
  refine (proj1 (proj2 (command_saturation (world0 true (fun _ _ => true))
                                           Hctrl Hpos)) 0 [0; 0] _).
  cbn. unfold epsilon. lra.
Defined.

(** A run of one iteration: in free adaptive mode the Euler stepper goes
    from 0 to 0.5 ms, where the callback asks to stop. *)
Lemma one_iteration_from (w0 : World) :
  callbackFct_ (engine w0) = (fun t _ => Rltb t 2e-4) ->
  iterLast (stepperState_ (engine w0)) = 0%Z ->
  exists w' l', loop_run 1 0 w0 (mkLocals 5e-4 0 0 0) 1 w' l'.
Proof.
  intros Hcb0 Hit0.
  set (l0 := mkLocals 5e-4 0 0 0).
  assert (Hmin : Rmin 5e-4 (1 - 0) = 5e-4) by (apply Rmin_left; lra).
  (* the first head: the loop goes on *)
  assert (Hstop0 : stop_condition 1 (flushDataSnapshot w0) l0 = false).
  { apply not_true_is_false. intros Hs.
    apply stop_condition_iff in Hs as [Hs | [Hs | Hs]].
    - unfold l0 in Hs. proj_simpl. unfold epsilon in Hs.
      rewrite Rabs_right in Hs by lra. lra.
    - unfold l0, flushDataSnapshot in Hs. proj_simpl.
      rewrite Hcb0, Rltb_lt in Hs by lra. discriminate.
    - unfold flushDataSnapshot in Hs. proj_simpl. lia. }
  (* the body: one accepted step *)
  assert (Hb : exists w1,
             loop_body 1 1 0 (flushDataSnapshot w0) l0
             = Returned (w1, mkLocals 5e-4 (0 + 5e-4) 0 0)).
  { unfold loop_body. rewrite Rgtb_le by lra.
    unfold l0. proj_simpl. rewrite Hmin.
    cbn [free_steps]. unfold call_try_step. proj_simpl.
    cbn [try_step euler run_try_step].
    destruct (systemDynamics _ _ _) as [w2 d]. cbv beta iota.
    eexists. reflexivity. }
  destruct Hb as [w1 Hb].
  pose proof (loop_body_stable _ _ _ _ _ _ _ Hb) as (w1' & Hst & Hw1).
  assert (Hcb1 : callbackFct_ (engine w1) = fun t _ => Rltb t 2e-4).
  { rewrite Hw1.
    destruct (stable_update_internal_state w1' (mkLocals 5e-4 (0 + 5e-4) 0 0))
      as (_ & _ & _ & _ & -> & _).
    destruct Hst as (_ & _ & _ & -> & _). exact Hcb0. }
  exists (flushDataSnapshot w1), (mkLocals 5e-4 (0 + 5e-4) 0 0).
  eapply loop_run_iter; [exact Hstop0 | exact Hb |].
  constructor. apply stop_condition_iff. right. left.
  unfold flushDataSnapshot. proj_simpl.
  rewrite Hcb1. apply Rltb_ge. lra.
Qed.

Lemma one_iteration_run :
  let w := world0 true (fun t _ => Rltb t 2e-4) in
  let p := updatePeriod_of (stepper (engineOptions_ (engine w))) in
  exists w' l',
    loop_run 1 p (simulate_setup w [0; 0]) (mkLocals (initial_dt p) 0 0 0) 1 w' l'.
Proof.
  intros w p.
  assert (Hp : p = 0).
  { unfold p, updatePeriod_of. cbn. rewrite Rltb_lt by (unfold epsilon; lra).
    reflexivity. }
  assert (Hdt : initial_dt p = 5e-4).
  { rewrite Hp. unfold initial_dt. now rewrite Rgtb_le by lra. }
  rewrite Hdt, Hp.
  apply one_iteration_from.
  - apply simulate_setup_callbackFct.
  - apply simulate_setup_iterLast.
Qed.



(** * Further properties of [MemoryDevice.cc] *)

Module MemoryDeviceMore.
Import MemoryDevice MemoryDeviceFacts.
Local Open Scope Z_scope.

(** X1: the position invariant: the constructor establishes it, and [seek],
    [readData], [writeData] and [doOpen] keep it; on a device that
    satisfies it no transfer of a non-negative size leaves the buffer. *)
Theorem wf_invariant :
  (forall sz, 0 <= sz <= int64_max -> wf (create sz))
  /\ (forall d pos, wf d -> wf (snd (seek d pos)))
  /\ (forall APPEND d modes, wf d -> wf (snd (doOpen APPEND d modes)))
  /\ (forall d n, wf d -> 0 <= n ->
      exists r data d', readData d n = Some (r, data, d') /\ wf d')
  /\ (forall d data n, wf d -> 0 <= n <= Z.of_nat (length data) ->
      exists r d', writeData d data n = Some (r, d') /\ wf d').
Proof.
  split; [exact create_wf|]. split; [exact seek_wf|].
  split; [|split].
  - intros APPEND d modes [Hpos Hlen]. unfold doOpen.
    destruct (Z.land modes APPEND =? 0); cbn [snd]; split;
      cbn [buffer_ currentPos_]; try assumption; lia.
  - intros d n Hwf Hn. pose proof (readData_eq d n Hwf Hn) as Heq.
    cbv zeta in Heq. eexists _, _, _. split; [exact Heq|].
    eapply readData_wf; eassumption.
  - intros d data n Hwf Hn. pose proof (writeData_eq d data n Hwf Hn) as Heq.
    cbv zeta in Heq. eexists _, _. split; [exact Heq|].
    eapply writeData_wf; eassumption.
Qed.

(** X2: what is written is read back: after a write of [n] bytes at a
    position inside the buffer, seeking back to that position and reading
    the count the write returned delivers the first bytes of the data,
    and leaves the device as the write left it. *)
Theorem write_seek_read (d : t) (data : list byte) (n : Z) :
  wf d -> 0 <= n <= Z.of_nat (length data) ->
  currentPos_ d < Z.of_nat (length (buffer_ d)) ->
  exists k d1,
    writeData d data n = Some (k, d1)
    /\ fst (seek d1 (currentPos_ d)) = SUCCESS
    /\ readData (snd (seek d1 (currentPos_ d))) k
       = Some (k, take (Z.to_nat k) data, d1).
Proof.
  intros Hwf Hn Hin. pose proof Hwf as [Hpos Hlen].
  pose proof (writeData_eq d data n Hwf Hn) as Hw. cbv zeta in Hw.
  set (pos := currentPos_ d) in *.
  set (k := Z.min n (Z.of_nat (length (buffer_ d)) - pos)) in *.
  set (buf' := take (Z.to_nat pos) (buffer_ d) ++ take (Z.to_nat k) data
               ++ drop (Z.to_nat (pos + k)) (buffer_ d)) in *.
  assert (Hk : 0 <= k <= Z.of_nat (length data)) by (subst k; lia).
  assert (Hk' : pos + k <= Z.of_nat (length (buffer_ d))) by (subst k; lia).
  assert (Hlen' : length buf' = length (buffer_ d))
    by (apply write_length; lia).
  exists k, (mk buf' (pos + k)). split; [exact Hw|].
  assert (Hseek : seek (mk buf' (pos + k)) pos = (SUCCESS, mk buf' pos)).
  { unfold seek, size. cbn [buffer_]. rewrite Hlen'.
    rewrite to_int64_id by (unfold int64_max in Hlen; lia).
    destruct (Z.ltb_spec pos 0); [lia|].
    destruct (Z.geb_spec pos (Z.of_nat (length (buffer_ d)))); [lia|].
    reflexivity. }
  rewrite Hseek. split; [reflexivity|]. cbn [snd].
  assert (Hwf' : wf (mk buf' pos)).
  { split; cbn [buffer_ currentPos_]; rewrite Hlen'; assumption. }
  rewrite (readData_eq (mk buf' pos) k Hwf') by lia.
  cbn [buffer_ currentPos_]. rewrite Hlen'.
  replace (Z.min k (Z.of_nat (length (buffer_ d)) - pos)) with k by lia.
  f_equal. f_equal. f_equal.
  unfold buf'. rewrite drop_app_length'
    by (rewrite length_take; lia).
  rewrite take_app_length' by (rewrite length_take; lia).
  reflexivity.
Qed.

(** X3: a write touches the bytes it transfers and no other: before the
    position and from the end of the transfer on, every byte of the
    buffer is as it was, and in between it is the byte of the data. *)
Theorem writeData_frame (d : t) (data : list byte) (n : Z) (i : nat) :
  wf d -> 0 <= n <= Z.of_nat (length data) ->
  exists k d',
    writeData d data n = Some (k, d')
    /\ (Z.of_nat i < currentPos_ d \/ currentPos_ d + k <= Z.of_nat i ->
        buffer_ d' !! i = buffer_ d !! i)
    /\ (currentPos_ d <= Z.of_nat i < currentPos_ d + k ->
        buffer_ d' !! i = data !! (i - Z.to_nat (currentPos_ d))%nat).
Proof.
  intros Hwf Hn. pose proof Hwf as [Hpos Hlen].
  pose proof (writeData_eq d data n Hwf Hn) as Hw. cbv zeta in Hw.
  set (pos := currentPos_ d) in *.
  set (k := Z.min n (Z.of_nat (length (buffer_ d)) - pos)) in *.
  assert (Hk : 0 <= k <= Z.of_nat (length data)) by (subst k; lia).
  assert (Hk' : pos + k <= Z.of_nat (length (buffer_ d))) by (subst k; lia).
  eexists _, _. split; [exact Hw|]. cbn [buffer_].
  split.
  - intros [Hi | Hi].
    + rewrite lookup_app_l by (rewrite length_take; lia).
      apply lookup_take_lt. lia.
    + rewrite lookup_app_r by (rewrite length_take; lia).
      rewrite lookup_app_r by (rewrite !length_take; lia).
      rewrite lookup_drop, !length_take. f_equal. lia.
  - intros Hi.
    rewrite lookup_app_r by (rewrite length_take; lia).
    rewrite lookup_app_l by (rewrite !length_take; lia).
    rewrite length_take, lookup_take_lt by lia. f_equal. lia.
Qed.

(** X4: two reads in a row deliver what one read of the two sizes delivers. *)
Theorem readData_compose (d : t) (n1 n2 : Z) :
  wf d -> 0 <= n1 -> 0 <= n2 ->
  exists k1 b1 d1 k2 b2 d2,
    readData d n1 = Some (k1, b1, d1)
    /\ readData d1 n2 = Some (k2, b2, d2)
    /\ readData d (n1 + n2) = Some (k1 + k2, b1 ++ b2, d2).
Proof.
  intros Hwf Hn1 Hn2. pose proof Hwf as [Hpos Hlen].
  pose proof (readData_eq d n1 Hwf Hn1) as H1. cbv zeta in H1.
  set (pos := currentPos_ d) in *.
  set (L := Z.of_nat (length (buffer_ d))) in *.
  set (k1 := Z.min n1 (L - pos)) in *.
  assert (Hwf1 : wf (mk (buffer_ d) (pos + k1))).
  { split; cbn [buffer_ currentPos_]; [subst k1; fold L; lia | assumption]. }
  pose proof (readData_eq _ n2 Hwf1 Hn2) as H2. cbv zeta in H2.
  cbn [buffer_ currentPos_] in H2. fold L in H2.
  set (k2 := Z.min n2 (L - (pos + k1))) in *.
  pose proof (readData_eq d (n1 + n2) Hwf ltac:(lia)) as H3. cbv zeta in H3.
  fold pos L in H3.
  assert (Hk : Z.min (n1 + n2) (L - pos) = k1 + k2) by (subst k1 k2; lia).
  rewrite Hk in H3.
  eexists _, _, _, _, _, _. split; [exact H1|]. split; [exact H2|].
  rewrite H3. f_equal. f_equal; [f_equal|].
  - rewrite Z2Nat.inj_add by (subst k1 k2; lia).
    rewrite <- take_take_drop. f_equal. rewrite drop_drop. f_equal.
    f_equal. subst k1. lia.
  - f_equal. lia.
Qed.

(** X5: the end of the buffer is where a complete transfer leaves the
    position, and [seek] refuses it: on an empty device every [seek]
    fails, and after a read that reaches the end, seeking to the current
    position fails. *)
Theorem seek_end_refused :
  (forall d pos, buffer_ d = [] -> seek d pos = (ERROR_GENERIC, d))
  /\ (forall d n r data d',
      wf d -> Z.of_nat (length (buffer_ d)) - currentPos_ d <= n ->
      readData d n = Some (r, data, d') ->
      currentPos_ d' = Z.of_nat (length (buffer_ d'))
      /\ seek d' (currentPos_ d') = (ERROR_GENERIC, d')).
Proof.
  split.
  - intros d pos Hb. unfold seek, size. rewrite Hb. cbn [length].
    change (to_int64 (Z.of_nat 0)) with 0.
    destruct (Z.ltb_spec pos 0); [reflexivity|].
    destruct (Z.geb_spec pos 0); [reflexivity | lia].
  - intros d n r data d' Hwf Hn Hr. pose proof Hwf as [Hpos Hlen].
    rewrite (readData_eq d n Hwf ltac:(lia)) in Hr. injection Hr as <- <- <-.
    cbn [buffer_ currentPos_].
    assert (He : currentPos_ d
                 + Z.min n (Z.of_nat (length (buffer_ d)) - currentPos_ d)
                 = Z.of_nat (length (buffer_ d))) by lia.
    rewrite He. split; [reflexivity|].
    unfold seek, size. cbn [buffer_].
    rewrite to_int64_id by (unfold int64_max in Hlen; lia).
    destruct (Z.ltb_spec (Z.of_nat (length (buffer_ d))) 0); [reflexivity|].
    destruct (Z.geb_spec (Z.of_nat (length (buffer_ d)))
                         (Z.of_nat (length (buffer_ d)))); [reflexivity | lia].
Qed.

(** X6: [resize] sets the length, keeps the bytes that remain, fills the new
    ones with zero and does not move the position; so the resized device
    keeps the position invariant exactly when the new size is not below
    the position. *)
Theorem resize_spec (d : t) (sz : Z) :
  0 <= sz <= int64_max ->
  let d' := resize d sz in
  Z.of_nat (length (buffer_ d')) = sz
  /\ currentPos_ d' = currentPos_ d
  /\ (forall i : nat, Z.of_nat i < sz -> (i < length (buffer_ d))%nat ->
      buffer_ d' !! i = buffer_ d !! i)
  /\ (forall i : nat, Z.of_nat i < sz -> (length (buffer_ d) <= i)%nat ->
      buffer_ d' !! i = Some x00)
  /\ (wf d -> (wf d' <-> currentPos_ d <= sz)).
Proof.
  intros Hsz d'. unfold int64_max in Hsz.
  assert (Hn : Z.to_nat (to_size_t sz) = Z.to_nat sz)
    by (rewrite to_size_t_id by lia; reflexivity).
  assert (Hlen : Z.of_nat (length (buffer_ d')) = sz).
  { unfold d', resize. cbn [buffer_]. rewrite Hn.
    rewrite length_app, length_take, length_replicate. lia. }
  split; [exact Hlen|]. split; [reflexivity|].
  split; [|split].
  - intros i Hi Hil. unfold d', resize. cbn [buffer_]. rewrite Hn.
    rewrite lookup_app_l by (rewrite length_take; lia).
    apply lookup_take_lt. lia.
  - intros i Hi Hil. unfold d', resize. cbn [buffer_]. rewrite Hn.
    rewrite lookup_app_r by (rewrite length_take; lia).
    apply lookup_replicate_2. rewrite length_take. lia.
  - intros [Hpos Hmax]. unfold wf. rewrite Hlen.
    change (currentPos_ d') with (currentPos_ d). unfold int64_max. lia.
Qed.

(** X7: neither transfer guards against a negative size: on a well-formed
    device the copy it asks for is larger than any buffer. *)
Theorem negative_size_unguarded (d : t) (n : Z) :
  wf d -> - 2 ^ 63 <= n < 0 ->
  readData d n = None /\ forall data, writeData d data n = None.
Proof.
  intros Hwf Hn. pose proof Hwf as [Hpos Hlen]. unfold int64_max in Hlen.
  pose proof (bytesAvailable_wf d Hwf) as Hav.
  assert (Hsz : to_size_t n = n + 2 ^ 64).
  { unfold to_size_t. symmetry. apply Z.mod_unique_pos with (q := -1); lia. }
  split.
  - unfold readData. rewrite Hav.
    destruct (Z.ltb_spec n (Z.of_nat (length (buffer_ d)) - currentPos_ d));
      [|lia].
    rewrite Hsz. unfold memcpy_from.
    destruct (Z.leb_spec 0 (currentPos_ d)); [|lia].
    destruct (Z.leb_spec (currentPos_ d + (n + 2 ^ 64))
                         (Z.of_nat (length (buffer_ d)))); [lia|].
    reflexivity.
  - intros data. unfold writeData. rewrite Hav.
    destruct (Z.ltb_spec n (Z.of_nat (length (buffer_ d)) - currentPos_ d));
      [|lia].
    rewrite Hsz. unfold memcpy_to.
    destruct (Z.leb_spec 0 (currentPos_ d)); [|lia].
    destruct (Z.leb_spec (currentPos_ d + (n + 2 ^ 64))
                         (Z.of_nat (length (buffer_ d)))); [lia|].
    reflexivity.
Qed.

End MemoryDeviceMore.

(** * Further properties of [Engine.cc] *)

(** ** The blending law *)

Lemma cosh_pos x : 0 < cosh x.
Proof.
  unfold cosh. pose proof (exp_pos x). pose proof (exp_pos (- x)). lra.
Qed.

Lemma sinh_lt_cosh x : sinh x < cosh x.
Proof. unfold sinh, cosh. pose proof (exp_pos (- x)). lra. Qed.

Lemma tanh_pos x : 0 < x -> 0 < tanh x.
Proof.
  intros Hx. unfold tanh. apply Rdiv_lt_0_compat; [|apply cosh_pos].
  rewrite <- sinh_0. now apply sinh_lt.
Qed.

Lemma tanh_lt_1 x : tanh x < 1.
Proof.
  unfold tanh. apply Rmult_lt_reg_r with (cosh x); [apply cosh_pos|].
  unfold Rdiv. rewrite Rmult_assoc, Rinv_l, Rmult_1_r, Rmult_1_l.
  - apply sinh_lt_cosh.
  - pose proof (cosh_pos x). lra.
Qed.

Lemma tanh_0 : tanh 0 = 0.
Proof. unfold tanh. rewrite sinh_0. unfold Rdiv. apply Rmult_0_l. Qed.

Lemma tanh_nonneg x : 0 <= x -> 0 <= tanh x < 1.
Proof.
  intros [Hx | <-]; split; try apply tanh_lt_1.
  - left. now apply tanh_pos.
  - rewrite tanh_0. lra.
Qed.

Lemma clamp_1e5 v : -1e5 <= clamp v (-1e5) 1e5 <= 1e5.
Proof. apply clamp_bounds. lra. Qed.

Section EngineMore.
Context `{Pin : Pinocchio} `{Sen : SensorRegistry} `{Ctl : !AbstractController}
        `{Stp : !ControlledStepper} `{Cfg : !ConfigHolder}.

(** ** Signs and bounds of the penalty forces *)

(** X8: the ground pushes and never pulls: with a stiffness and a damping
    that are not negative, the normal force of a penetrating frame is
    positive, and each tangential component stays within 1e5 N whatever
    the velocity and the friction coefficients. *)
Theorem contact_force_bounds (co : contactOptions_t) (posFrame v : Vector3d) :
  0 < stiffness co -> 0 <= damping co -> c2 posFrame < 0 ->
  let f := contact_fextInWorld co posFrame v in
  0 < c2 f
  /\ - stiffness co * c2 posFrame <= c2 f
  /\ Rabs (c0 f) <= 1e5 /\ Rabs (c1 f) <= 1e5.
Proof.
  intros Hk Hd Hp f.
  assert (Hz : - stiffness co * c2 posFrame <= c2 f).
  { unfold f, contact_fextInWorld, contact_normalForce. cbn [c2].
    destruct (Rltb_spec (c2 v) 0); [|lra]. nra. }
  split; [nra|]. split; [exact Hz|].
  unfold f, contact_fextInWorld. cbn [c0 c1]. rewrite !min_max_clamp.
  split; apply Rabs_le;
    match goal with
    | |- _ <= clamp ?x _ _ <= _ => pose proof (clamp_1e5 x); lra
    end.
Qed.

(** X9: the friction coefficient stays between the viscous and the dry
    coefficient once the speed has passed the regularisation scale, never
    exceeds the dry one, and its three pieces meet at the two knots. *)
Theorem frictionCoeff_bounds (co : contactOptions_t) (s : R) :
  0 < dryFrictionVelEps co ->
  0 <= frictionViscous co <= frictionDry co ->
  0 <= s ->
  let eps := dryFrictionVelEps co in
  0 <= contact_frictionCoeff co s <= frictionDry co
  /\ (eps <= s -> frictionViscous co <= contact_frictionCoeff co s)
  /\ contact_frictionCoeff co eps = frictionDry co
  /\ -2 * eps * (frictionDry co - frictionViscous co) / eps
     + 3 * frictionDry co - 2 * frictionViscous co = frictionDry co
  /\ contact_frictionCoeff co (1.5 * eps) = frictionViscous co
  /\ -2 * (1.5 * eps) * (frictionDry co - frictionViscous co) / eps
     + 3 * frictionDry co - 2 * frictionViscous co = frictionViscous co.
Proof.
  intros Heps0 [Hv Hd] Hs eps.
  assert (Heps : 0 < eps) by exact Heps0.
  assert (Hbridge : forall r, eps <= r <= 1.5 * eps ->
            frictionViscous co
            <= -2.0 * r * (frictionDry co - frictionViscous co) / eps
               + 3.0 * frictionDry co - 2.0 * frictionViscous co
            <= frictionDry co).
  { intros r [Hr1 Hr2].
    replace (-2.0) with (-2) by lra. replace 3.0 with 3 by lra.
    replace 2.0 with 2 by lra.
    replace (-2 * r * (frictionDry co - frictionViscous co) / eps)
      with (-2 * (r / eps) * (frictionDry co - frictionViscous co))
      by (field; lra).
    assert (1 <= r / eps <= 1.5).
    { split.
      - apply Rmult_le_reg_r with eps; [exact Heps|].
        unfold Rdiv. rewrite Rmult_assoc, Rinv_l by lra. lra.
      - apply Rmult_le_reg_r with eps; [exact Heps|].
        unfold Rdiv. rewrite Rmult_assoc, Rinv_l by lra. lra. }
    nra. }
  assert (Hwedge : forall r, 0 <= r <= eps ->
            0 <= r * frictionDry co / eps <= frictionDry co).
  { intros r [Hr1 Hr2].
    replace (r * frictionDry co / eps) with (r / eps * frictionDry co)
      by (field; lra).
    assert (0 <= r / eps <= 1).
    { split.
      - apply Rmult_le_reg_r with eps; [exact Heps|].
        unfold Rdiv. rewrite Rmult_assoc, Rinv_l by lra. lra.
      - apply Rmult_le_reg_r with eps; [exact Heps|].
        unfold Rdiv. rewrite Rmult_assoc, Rinv_l by lra. lra. }
    nra. }
  split; [|split; [|split; [|split; [|split]]]].
  - unfold contact_frictionCoeff. fold eps.
    destruct (Rgtb_spec s eps) as [Hgt | Hle].
    + destruct (Rltb_spec s (1.5 * eps)) as [Hlt | Hge]; [|lra].
      specialize (Hbridge s ltac:(lra)). lra.
    + apply Hwedge. lra.
  - intros Hse. unfold contact_frictionCoeff. fold eps.
    destruct (Rgtb_spec s eps) as [Hgt | Hle].
    + destruct (Rltb_spec s (1.5 * eps)) as [Hlt | Hge]; [|lra].
      specialize (Hbridge s ltac:(lra)). lra.
    + assert (s = eps) as -> by lra. field_simplify; lra.
  - unfold contact_frictionCoeff. fold eps. rewrite Rgtb_le by lra.
    field. lra.
  - field. lra.
  - unfold contact_frictionCoeff. fold eps. rewrite Rgtb_gt by lra.
    rewrite Rltb_ge by lra. reflexivity.
  - replace 1.5 with (3 / 2) by lra. field. lra.
Qed.

(** X10: the joint-limit force is restoring: with a stiffness and a damping
    that are not negative and a positive transition scale, it is never
    positive above the upper limit and never negative below the lower
    one, and inside the limits it vanishes. *)
Theorem bounds_force_restoring (jo : jointOptions_t) (q v qmin qmax : R) :
  0 <= boundStiffness jo -> 0 <= boundDamping jo -> 0 < boundTransitionEps jo ->
  qmin <= qmax ->
  let f := bounds_forceJoint jo q v qmin qmax in
  (q > qmax -> f <= 0)
  /\ (q < qmin -> 0 <= f)
  /\ (qmin <= q <= qmax -> f = 0).
Proof.
  intros Hk Hd He Hord f. unfold f, bounds_forceJoint.
  assert (Hblend : forall e, 0 < e -> 0 < tanh (2 * (e / boundTransitionEps jo))).
  { intros e Hpos. apply tanh_pos.
    apply Rmult_lt_0_compat; [lra|]. now apply Rdiv_lt_0_compat. }
  split; [|split].
  - intros Hq. rewrite Rgtb_gt by assumption.
    specialize (Hblend (q - qmax) ltac:(lra)).
    pose proof (Rmax_r v 0.0). pose proof (Rmax_l v 0.0).
    assert (0 <= Rmax v 0.0) by lra.
    assert (- boundStiffness jo * (q - qmax)
            + - boundDamping jo * Rmax v 0.0 <= 0) by nra.
    nra.
  - intros Hq. rewrite Rgtb_le by lra. rewrite Rltb_lt by assumption.
    specialize (Hblend (qmin - q) ltac:(lra)).
    pose proof (Rmin_r v 0.0).
    assert (Rmin v 0.0 <= 0) by lra.
    assert (0 <= boundStiffness jo * (qmin - q)
                 + - boundDamping jo * Rmin v 0.0) by nra.
    nra.
  - intros [Hq1 Hq2]. rewrite Rgtb_le by assumption.
    rewrite Rltb_ge by assumption. ring.
Qed.

(** ** Forces that vanish *)

Lemma add_at_0 (u : vectorN_t) (j : Z) : add_at u j 0 = u.
Proof.
  unfold add_at. destruct (j <? 0)%Z; [reflexivity|].
  apply list_alter_id. intros a. apply Rplus_0_r.
Qed.

Lemma bounds_forceJoint_inside (jo : jointOptions_t) (q v qmin qmax : R) :
  qmin <= q <= qmax -> bounds_forceJoint jo q v qmin qmax = 0.
Proof.
  intros [Hq1 Hq2]. unfold bounds_forceJoint.
  rewrite Rgtb_le by assumption. rewrite Rltb_ge by assumption. ring.
Qed.

(** X11: with a transition scale that is not zero, one velocity index for
    each actuated joint and every one of them a row of the velocity
    vector, if every actuated joint is inside its limits then the force
    of each joint is the finite value 0 and the joint-limit force is the
    zero vector of [nv] entries, whether the rows of the joints are
    distinct or not. *)
Theorem boundsDynamics_inside (o : engineOptions_t) (m : Model) (q v : vectorN_t) :
  boundTransitionEps (joints o) <> 0 ->
  length (jointsVelocityIdx_ m) = length (jointsPositionIdx_ m) ->
  (forall j, In j (jointsVelocityIdx_ m) -> (0 <= j < Z.of_nat (nv m))%Z) ->
  (forall i, (i < length (jointsPositionIdx_ m))%nat ->
     coeff (boundsMin (mdlOptions_joints m)) (Z.of_nat i)
     <= coeff q (nth i (jointsPositionIdx_ m) 0%Z)
     <= coeff (boundsMax (mdlOptions_joints m)) (Z.of_nat i)) ->
  boundsDynamics o m q v = Zero (nv m)
  /\ forall i, (i < length (jointsPositionIdx_ m))%nat ->
       bounds_forceJoint_ieee (joints o)
         (coeff q (nth i (jointsPositionIdx_ m) 0%Z))
         (coeff v (nth i (jointsVelocityIdx_ m) 0%Z))
         (coeff (boundsMin (mdlOptions_joints m)) (Z.of_nat i))
         (coeff (boundsMax (mdlOptions_joints m)) (Z.of_nat i))
       = Finite 0.
Proof.
  intros Heb _ _ Hin. split.
  - unfold boundsDynamics.
    assert (Hfold : forall js u,
      (forall i, In i js -> (i < length (jointsPositionIdx_ m))%nat) ->
      fold_left
        (fun (u : vectorN_t) (i : nat) =>
           add_at u (nth i (jointsVelocityIdx_ m) 0%Z)
             (bounds_forceJoint (joints o)
                (coeff q (nth i (jointsPositionIdx_ m) 0%Z))
                (coeff v (nth i (jointsVelocityIdx_ m) 0%Z))
                (coeff (boundsMin (mdlOptions_joints m)) (Z.of_nat i))
                (coeff (boundsMax (mdlOptions_joints m)) (Z.of_nat i))))
        js u = u).
    { induction js as [|i js IH]; intros u Hjs; [reflexivity|].
      cbn [fold_left]. rewrite bounds_forceJoint_inside
        by (apply Hin, Hjs; now left).
      rewrite add_at_0. apply IH. intros i' Hi'. apply Hjs. now right. }
    apply Hfold. intros i Hi. apply in_seq in Hi. lia.
  - intros i Hi.
    rewrite bounds_forceJoint_ieee_finite by exact Heb.
    now rewrite bounds_forceJoint_inside by (apply Hin; exact Hi).
Qed.

Lemma contactDynamics_airborne (o : engineOptions_t) (m : Model) (frameId : Z) :
  c2 (translation (oMf (pncData_ m) frameId)) >= 0 ->
  contactDynamics o m frameId = Zero 6.
Proof. intros Hz. unfold contactDynamics. now rewrite Rltb_ge by lra. Qed.

Lemma Force_add_Zero : Force_add Force_Zero Force_Zero = Force_Zero.
Proof.
  unfold Force_add, Force_Zero, Zero3. cbn [linear angular c0 c1 c2].
  rewrite Rplus_0_r. reflexivity.
Qed.

Lemma alter_replicate {A} (f : A -> A) (a : A) (n i : nat) :
  f a = a -> alter f i (replicate n a) = replicate n a.
Proof.
  intros Hf. revert i. induction n as [|n IH]; intros i; [reflexivity|].
  destruct i as [|i]; cbn.
  - now rewrite Hf.
  - f_equal. apply IH.
Qed.

(** The loop over the contact frames when all of them are zero: the
    accumulator stays zero and the export buffer receives zeros. *)
Lemma contactForcesLoop_airborne_prefix (o : engineOptions_t) (m : Model) (k : nat) :
  (forall i, (i < k)%nat ->
     c2 (translation (oMf (pncData_ m) (nth i (contactFramesIdx_ m) 0%Z))) >= 0) ->
  fold_left
    (fun (acc : list Force * list Force) (i : nat) =>
       let '(contactForces, fext) := acc in
       let contactFrameIdx := nth i (contactFramesIdx_ m) 0%Z in
       let f := Force_of_vector (contactDynamics o m contactFrameIdx) in
       let contactForces := <[i := f]> contactForces in
       let parentIdx := parent (frame_at (pncModel_ m) contactFrameIdx) in
       let fext :=
         if (parentIdx <? 0)%Z then fext
         else alter (fun g => Force_add g f) (Z.to_nat parentIdx) fext in
       (contactForces, fext))
    (seq 0 k)
    (contactForces_ m, replicate (njoints (pncModel_ m)) Force_Zero)
  = (fold_left (fun cf i => <[i := Force_Zero]> cf) (seq 0 k) (contactForces_ m),
     replicate (njoints (pncModel_ m)) Force_Zero).
Proof.
  induction k as [|k IH]; intros Hz; [reflexivity|].
  rewrite !seq_S, !fold_left_app, IH by (intros i Hi; apply Hz; lia).
  cbn [fold_left Nat.add].
  rewrite contactDynamics_airborne by (apply Hz; lia).
  change (Force_of_vector (Zero 6)) with Force_Zero.
  destruct (_ <? 0)%Z; [reflexivity|].
  rewrite alter_replicate by apply Force_add_Zero. reflexivity.
Qed.

Lemma insert_zeros_length (cf : list Force) (k : nat) :
  length (fold_left (fun cf i => <[i := Force_Zero]> cf) (seq 0 k) cf)
  = length cf.
Proof.
  induction k as [|k IHk]; [reflexivity|].
  rewrite seq_S, fold_left_app. cbn [fold_left Nat.add].
  now rewrite length_insert.
Qed.

Lemma insert_zeros_lookup (cf : list Force) (k i : nat) :
  (i < k)%nat -> (i < length cf)%nat ->
  fold_left (fun cf i => <[i := Force_Zero]> cf) (seq 0 k) cf !! i
  = Some Force_Zero.
Proof.
  induction k as [|k IH]; intros Hik Hil; [lia|].
  rewrite seq_S, fold_left_app. cbn [fold_left Nat.add].
  destruct (Nat.eq_dec i k) as [Heq | Hne].
  - subst i. apply list_lookup_insert_eq. now rewrite insert_zeros_length.
  - rewrite list_lookup_insert_ne by congruence. apply IH; lia.
Qed.

(** X12: contact is off when airborne: if no contact frame is below the
    ground, the accumulator of external forces is zero on every joint and
    the export buffer holds the zero force for every contact frame. *)
Theorem contact_off_when_airborne (o : engineOptions_t) (m : Model) :
  (forall i, (i < length (contactFramesIdx_ m))%nat ->
     c2 (translation (oMf (pncData_ m) (nth i (contactFramesIdx_ m) 0%Z))) >= 0) ->
  snd (contactForcesLoop o m) = replicate (njoints (pncModel_ m)) Force_Zero
  /\ length (fst (contactForcesLoop o m)) = length (contactForces_ m)
  /\ forall i, (i < length (contactFramesIdx_ m))%nat ->
       (i < length (contactForces_ m))%nat ->
       fst (contactForcesLoop o m) !! i = Some Force_Zero.
Proof.
  intros Hz. unfold contactForcesLoop.
  rewrite contactForcesLoop_airborne_prefix by exact Hz. cbn [fst snd].
  split; [reflexivity|]. split.
  - apply insert_zeros_length.
  - intros i Hi Hl. now apply insert_zeros_lookup.
Qed.


(** ** The command in [uControl] *)

Lemma length_set_at {A} (u : list A) (j : Z) (f : A) :
  length (set_at u j f) = length u.
Proof. unfold set_at. destruct (j <? 0)%Z; [reflexivity | apply length_insert]. Qed.

Lemma coeff_set_at_same (u : vectorN_t) (j : Z) (f : R) :
  (0 <= j < Z.of_nat (length u))%Z -> coeff (set_at u j f) j = f.
Proof.
  intros Hj. unfold coeff, set_at. destruct (Z.ltb_spec j 0); [lia|]. cbv iota.
  rewrite nth_lookup, list_lookup_insert_eq by lia. reflexivity.
Qed.

Lemma coeff_set_at_other (u : vectorN_t) (j k : Z) (f : R) :
  j <> k -> coeff (set_at u j f) k = coeff u k.
Proof.
  intros Hjk. unfold coeff, set_at.
  destruct (Z.ltb_spec k 0); [reflexivity|].
  destruct (Z.ltb_spec j 0); [reflexivity|]. cbv iota.
  rewrite !nth_lookup, list_lookup_insert_ne by lia. reflexivity.
Qed.

Lemma nth_insert_eq (l : vectorN_t) (i : nat) (a : R) :
  (i < length l)%nat -> nth i (<[i := a]> l) 0 = a.
Proof.
  intros Hi. rewrite nth_lookup, list_lookup_insert_eq by assumption.
  reflexivity.
Qed.

Lemma jointId_of_nonneg (m : Model) (i : nat) : (0 <= jointId_of m i)%Z.
Proof. unfold jointId_of, to_uint32. apply Z.mod_pos_bound. lia. Qed.

Lemma saturate_prefix_uControl_length m k s :
  length (uControl (saturate_prefix m k s)) = length (uControl s).
Proof.
  induction k as [|k IH]; [reflexivity|].
  rewrite saturate_prefix_S. cbn [saturate_step uControl with_uControl].
  rewrite length_set_at. exact IH.
Qed.

Lemma saturate_prefix_uControl_other m k s j :
  (forall i, (i < k)%nat -> jointId_of m i <> j) ->
  coeff (uControl (saturate_prefix m k s)) j = coeff (uControl s) j.
Proof.
  induction k as [|k IH]; intros Hj; [reflexivity|].
  rewrite saturate_prefix_S. cbn [saturate_step uControl with_uControl].
  rewrite coeff_set_at_other by (apply Hj; lia).
  cbn [uControl with_uCommandLast]. apply IH. intros i Hi. apply Hj. lia.
Qed.

Lemma saturate_prefix_uControl_hit m k s i :
  (k <= length (uCommandLast s))%nat ->
  (i < k)%nat ->
  (forall i', (i' < k)%nat -> jointId_of m i' = jointId_of m i -> i' = i) ->
  (jointId_of m i < Z.of_nat (length (uControl s)))%Z ->
  coeff (uControl (saturate_prefix m k s)) (jointId_of m i)
  = nth i (uCommandLast (saturate_prefix m k s)) 0.
Proof.
  induction k as [|k IH]; intros Hk Hi Hinj Hrange; [lia|].
  rewrite saturate_prefix_S.
  cbn [saturate_step uControl uCommandLast with_uControl with_uCommandLast].
  fold (jointId_of m k).
  destruct (Nat.eq_dec i k) as [-> | Hik].
  - rewrite coeff_set_at_same.
    + symmetry. apply nth_insert_eq. rewrite saturate_prefix_length. lia.
    + rewrite saturate_prefix_uControl_length.
      split; [apply jointId_of_nonneg | exact Hrange].
  - rewrite coeff_set_at_other.
    + rewrite nth_lookup, list_lookup_insert_ne by congruence.
      rewrite <- nth_lookup. apply IH; try lia; try assumption.
      intros i' Hi'. apply Hinj. lia.
    + intros Heq. apply Hik. symmetry. apply Hinj; [lia | exact Heq].
Qed.

(** X13: the saturation loop leaves in [uControl] exactly the saturated
    command: with the motors on distinct rows that exist, the row of
    motor [i] holds entry [i] of the stored command, which is the
    controller's entry clamped to the effort limit of the joint, the size
    of [uControl] is kept and every row that is not a motor's keeps the
    value it had. *)
Theorem saturateCommand_scatter (m : Model) (s : stepperState_t) :
  let n := length (jointsVelocityIdx_ m) in
  length (uCommandLast s) = n ->
  (forall i i', (i < n)%nat -> (i' < n)%nat ->
     jointId_of m i = jointId_of m i' -> i = i') ->
  (forall i, (i < n)%nat ->
     (jointId_of m i < Z.of_nat (length (uControl s)))%Z) ->
  let s' := saturateCommand m s in
  length (uControl s') = length (uControl s)
  /\ (forall i, (i < n)%nat ->
        coeff (uControl s') (jointId_of m i) = nth i (uCommandLast s') 0
        /\ nth i (uCommandLast s') 0
           = clamp (nth i (uCommandLast s) 0)
                   (- torque_max_of m i) (torque_max_of m i))
  /\ (forall j, (forall i, (i < n)%nat -> jointId_of m i <> j) ->
        coeff (uControl s') j = coeff (uControl s) j).
Proof.
  intros n Hlen Hinj Hrange s'. unfold s'. rewrite saturateCommand_prefix.
  fold n. split; [apply saturate_prefix_uControl_length|]. split.
  - intros i Hi. split.
    + apply saturate_prefix_uControl_hit; try lia.
      * intros i' Hi' Heq. now apply Hinj.
      * now apply Hrange.
    + rewrite saturate_prefix_nth by lia.
      destruct (Nat.ltb_spec i n); [reflexivity | lia].
  - intros j Hj. now apply saturate_prefix_uControl_other.
Qed.


(** ** The command between two updates of the controller *)

Lemma held_refl w : held w w.
Proof. repeat split. Qed.

Lemma held_trans w1 w2 w3 : held w1 w2 -> held w2 w3 -> held w1 w3.
Proof. intros (A1 & A2 & A3) (B1 & B2 & B3). repeat split; congruence. Qed.

Lemma systemDynamics_held w t x0 :
  epsilon <= controllerUpdatePeriod (stepper (engineOptions_ (engine w))) ->
  held w (fst (systemDynamics w t x0)).
Proof.
  intros Hc. unfold systemDynamics, held. cbv zeta.
  rewrite (Rltb_ge _ _ Hc).
  destruct_lets; proj_simpl; repeat split.
Qed.

Lemma held_dynamics w0 w t x0 :
  epsilon <= controllerUpdatePeriod (stepper (engineOptions_ (engine w0))) ->
  held w0 w -> held w0 (fst (systemDynamics w t x0)).
Proof.
  intros Hc Hw. eapply held_trans; [exact Hw|].
  apply systemDynamics_held. destruct Hw as [-> _]. exact Hc.
Qed.

(** X14: zero-order hold: when the update period of the controller is not
    below the machine epsilon, no evaluation of the dynamics calls the
    controller, so neither a call of the stepper nor any sequence of
    integration steps between two break-points, accepted or refused,
    completed or aborted, changes the stored command or its copy in
    [uControl]. *)
Theorem command_held (w : World) :
  epsilon <= controllerUpdatePeriod (stepper (engineOptions_ (engine w))) ->
  (forall t x0, held w (fst (systemDynamics w t x0)))
  /\ (forall t dt0, held w (fst (call_try_step w t dt0)))
  /\ (forall fuel l w',
        outcome_world (breakpoint_steps fuel w l) = Some w' -> held w w')
  /\ (forall fuel l w',
        outcome_world (free_steps fuel w l) = Some w' -> held w w').
Proof.
  intros Hc.
  assert (Hdyn : forall w1 t x0,
            held w w1 -> held w (fst (systemDynamics w1 t x0)))
    by (intros w1 t x0; now apply held_dynamics).
  assert (Hstate : forall w1 x' d', held w w1 ->
            held w (with_stepperState w1
                      (with_dxdt (with_x (stepperState_ (engine w1)) x') d')))
    by (intros w1 x' d' Hw1; exact Hw1).
  split; [|split; [|split]].
  - intros t x0. now apply systemDynamics_held.
  - intros t dt0.
    apply (call_try_step_preserves (held w) Hdyn Hstate). apply held_refl.
  - intros fuel l w' Hr.
    apply (breakpoint_steps_preserves (held w) Hdyn Hstate fuel w l);
      [apply held_refl | exact Hr].
  - intros fuel l w' Hr.
    apply (free_steps_preserves (held w) Hdyn Hstate fuel w l);
      [apply held_refl | exact Hr].
Qed.


(** ** What a run leaves alone *)

Lemma unaltered_refl w : unaltered w w.
Proof. repeat split. Qed.

Lemma unaltered_trans w1 w2 w3 :
  unaltered w1 w2 -> unaltered w2 w3 -> unaltered w1 w3.
Proof.
  unfold unaltered.
  intros (A1 & A2 & A3 & A4 & A5 & A6 & A7 & A8 & A9 & A10 & A11)
         (B1 & B2 & B3 & B4 & B5 & B6 & B7 & B8 & B9 & B10 & B11).
  repeat split; congruence.
Qed.

Lemma saturate_prefix_frame m k s :
  let s' := saturate_prefix m k s in
  tLast s' = tLast s /\ qLast s' = qLast s /\ vLast s' = vLast s
  /\ aLast s' = aLast s /\ uLast s' = uLast s /\ energyLast s' = energyLast s
  /\ x s' = x s /\ dxdt s' = dxdt s.
Proof.
  induction k as [|k IH]; [repeat split|].
  cbv zeta. rewrite saturate_prefix_S. exact IH.
Qed.

Lemma systemDynamics_unaltered w t x0 :
  unaltered w (fst (systemDynamics w t x0)).
Proof.
  unfold systemDynamics, unaltered. destruct_lets; proj_simpl; repeat split.
Qed.

Lemma breakpoint_updates_unaltered w l : unaltered w (breakpoint_updates w l).
Proof.
  unfold breakpoint_updates.
  set (o := stepper (engineOptions_ (engine w))).
  match goal with
  | |- context [if Rgtb (sensorsUpdatePeriod o) 0 then ?a else w] =>
      set (w1 := if Rgtb (sensorsUpdatePeriod o) 0 then a else w)
  end.
  assert (H1 : unaltered w w1).
  { unfold w1. destruct_lets; unfold unaltered; proj_simpl; repeat split. }
  clearbody w1.
  destruct (Rgtb (controllerUpdatePeriod o) 0); [|exact H1].
  destruct (Rltb _ 1e-8); [|exact H1].
  destruct (compute_command _ _ _ _ _ _) as [ctrl u].
  match goal with
  | |- context [systemDynamics ?w2 ?t ?x0] =>
      pose proof (systemDynamics_unaltered w2 t x0) as H2;
      destruct (systemDynamics w2 t x0) as [w3 d]
  end.
  eapply unaltered_trans; [exact H1|].
  unfold unaltered in *. proj_simpl. exact H2.
Qed.

Lemma update_internal_state_unaltered w l :
  unaltered w (update_internal_state w l).
Proof.
  unfold update_internal_state, unaltered. destruct_lets. proj_simpl.
  repeat split.
Qed.

Lemma simulate_setup_unaltered w x_init : unaltered w (simulate_setup w x_init).
Proof.
  unfold simulate_setup.
  match goal with
  | |- context [systemDynamics ?w0 ?t ?x0] =>
      pose proof (systemDynamics_unaltered w0 t x0) as H0;
      destruct (systemDynamics w0 t x0) as [w1 d]
  end.
  unfold unaltered in *. proj_simpl. exact H0.
Qed.

Lemma loop_body_unaltered fuel e p w l w' :
  outcome_world (loop_body fuel e p w l) = Some w' -> unaltered w w'.
Proof.
  assert (Hdyn : forall w1 t x0,
            unaltered w w1 -> unaltered w (fst (systemDynamics w1 t x0))).
  { intros w1 t x0 Hw1. eapply unaltered_trans; [exact Hw1|].
    apply systemDynamics_unaltered. }
  assert (Hstate : forall w1 x' d', unaltered w w1 ->
            unaltered w (with_stepperState w1
                           (with_dxdt (with_x (stepperState_ (engine w1)) x') d')))
    by (intros w1 x' d' Hw1; exact Hw1).
  unfold loop_body. intros Hr.
  destruct (Rgtb p 0).
  - match type of Hr with
    | context [breakpoint_steps fuel ?w0 ?l0] =>
        pose proof (breakpoint_steps_preserves (unaltered w) Hdyn Hstate
                      fuel w0 l0) as Hpres;
        destruct (breakpoint_steps fuel w0 l0) as [[w1 l1]|w1|];
          try discriminate;
        cbn [outcome_world] in Hr; injection Hr as <-;
        specialize (Hpres w1 (breakpoint_updates_unaltered _ _) eq_refl)
    end.
    + eapply unaltered_trans; [exact Hpres|].
      apply update_internal_state_unaltered.
    + exact Hpres.
  - match type of Hr with
    | context [free_steps fuel w ?l0] =>
        pose proof (free_steps_preserves (unaltered w) Hdyn Hstate
                      fuel w l0) as Hpres;
        destruct (free_steps fuel w l0) as [[w1 l1]|w1|];
          try discriminate;
        cbn [outcome_world] in Hr; injection Hr as <-;
        specialize (Hpres w1 (unaltered_refl _) eq_refl)
    end.
    + eapply unaltered_trans; [exact Hpres|].
      apply update_internal_state_unaltered.
    + exact Hpres.
Qed.

Lemma integration_loop_unaltered fuel e p w l w' :
  outcome_world (integration_loop fuel e p w l) = Some w' -> unaltered w w'.
Proof.
  revert w l. induction fuel as [|fuel IH]; intros w l Hr; [discriminate|].
  cbn [integration_loop] in Hr.
  assert (Hf : unaltered w (flushDataSnapshot w)) by (repeat split).
  destruct (stop_condition e (flushDataSnapshot w) l).
  - cbn in Hr. injection Hr as <-. exact Hf.
  - pose proof (loop_body_unaltered fuel e p (flushDataSnapshot w) l) as Hb.
    destruct (loop_body fuel e p (flushDataSnapshot w) l) as [[w1 l1]|w1|].
    + eapply unaltered_trans; [exact Hf|].
      eapply unaltered_trans; [exact (Hb w1 eq_refl)|].
      now apply (IH w1 l1).
    + cbn in Hr. injection Hr as <-.
      eapply unaltered_trans; [exact Hf | exact (Hb w1 eq_refl)].
    + discriminate.
Qed.

Lemma result_t_eq_dec (a b : result_t) : {a = b} + {a <> b}.
Proof. decide equality. Qed.

(** What a call of [simulate] did when it ran the loop. *)
Lemma simulate_inv fuel w x_init e w' :
  simulate fuel w x_init e = Returned (SUCCESS, w')
  \/ simulate fuel w x_init e = Thrown w' ->
  let p := updatePeriod_of (stepper (engineOptions_ (engine w))) in
  outcome_world
    (integration_loop fuel e p (simulate_setup w x_init)
       (mkLocals (initial_dt p) 0 0 0)) = Some w'
  /\ (simulate fuel w x_init e = Returned (SUCCESS, w') ->
      exists l', integration_loop fuel e p (simulate_setup w x_init)
                   (mkLocals (initial_dt p) 0 0 0) = Returned (w', l')).
Proof.
  intros Hr p. unfold simulate in *. fold p in Hr |- *.
  destruct (negb (isInitialized_ (engine w)));
    [destruct Hr; discriminate|].
  destruct (negb (length x_init =? nx (model_ w))%nat);
    [destruct Hr; discriminate|].
  destruct (Rltb e 5e-2); [destruct Hr; discriminate|].
  destruct (integration_loop _ _ _ _ _) as [[w1 l1]|w1|];
    destruct Hr as [Hr | Hr]; try discriminate;
    injection Hr as <-; (split; [reflexivity|]); intros Hs;
    try discriminate.
  now exists l1.
Qed.

(** X15: a run of [simulate] changes the state of the simulation only: whether
    it returns, with any code, or is aborted by the stepper, it leaves
    the rigid-body model and its gravity, the joint options, the index
    tables and the sizes of the model, and the options, the option
    holder, the callback and the initialisation flag of the engine as
    they were. *)
Theorem simulate_unaltered (fuel : nat) (w : World) (x_init : vectorN_t)
    (end_time : R) (w' : World) :
  (exists r, simulate fuel w x_init end_time = Returned (r, w'))
  \/ simulate fuel w x_init end_time = Thrown w' ->
  unaltered w w'.
Proof.
  intros Hr.
  assert (Hcase : w' = w
                  \/ simulate fuel w x_init end_time = Returned (SUCCESS, w')
                  \/ simulate fuel w x_init end_time = Thrown w').
  { destruct Hr as [[r Hr] | Hr]; [|now right; right].
    destruct (result_t_eq_dec r SUCCESS) as [-> | Hne];
      [right; left; exact Hr | left].
    unfold simulate in Hr.
    destruct (negb (isInitialized_ (engine w)));
      [injection Hr as _ <-; reflexivity|].
    destruct (negb (length x_init =? nx (model_ w))%nat);
      [injection Hr as _ <-; reflexivity|].
    destruct (Rltb end_time 5e-2); [injection Hr as _ <-; reflexivity|].
    destruct (integration_loop _ _ _ _ _) as [[w1 l1]|w1|];
      try discriminate.
    injection Hr as <- _. now elim Hne. }
  destruct Hcase as [-> | Hrun]; [apply unaltered_refl|].
  destruct (simulate_inv _ _ _ _ _ Hrun) as [Hw' _].
  eapply unaltered_trans; [apply simulate_setup_unaltered|].
  eapply integration_loop_unaltered. exact Hw'.
Qed.

(** ** The recorder and the published snapshot *)

Lemma loop_run_rows e p w l n w' l' :
  loop_run e p w l n w' l' ->
  exists new, telemetryRecorder_ (engine w')
              = telemetryRecorder_ (engine w) ++ new
              /\ length new = S n.
Proof.
  induction 1 as [w l Hstop | w l fb w1 l1 n w' l' Hstop Hb Hrun IH].
  - unfold flushDataSnapshot. proj_simpl. eexists. split; reflexivity.
  - destruct IH as (new & Hnew & Hlen).
    apply loop_body_stable in Hb as (w2 & Hst & ->).
    destruct (stable_update_internal_state w2 l1) as (_ & _ & Ht & _).
    destruct Hst as (_ & Ht2 & _).
    rewrite Ht, Ht2 in Hnew. unfold flushDataSnapshot in Hnew. proj_simpl.
    rewrite <- app_assoc in Hnew.
    eexists. split; [exact Hnew|]. cbn [length app]. now rewrite Hlen.
Qed.

(** X16: the recorder holds one row for the initial state and one for each
    completed iteration: when [simulate] returns [SUCCESS] the number of
    rows is the iteration count plus one, whatever the recorder held
    before the call, and it is at most 100001. *)
Theorem telemetry_row_count (fuel : nat) (w : World) (x_init : vectorN_t)
    (end_time : R) (w' : World) :
  simulate fuel w x_init end_time = Returned (SUCCESS, w') ->
  Z.of_nat (length (telemetryRecorder_ (engine w')))
  = (iterLast (stepperState_ (engine w')) + 1)%Z
  /\ (1 <= Z.of_nat (length (telemetryRecorder_ (engine w'))) <= 100001)%Z.
Proof.
  intros Hr.
  destruct (simulate_inv _ _ _ _ _ (or_introl Hr)) as [_ Hloop].
  destruct (Hloop Hr) as [l' Hl].
  pose proof (simulate_setup_iterLast w x_init) as H0.
  destruct (integration_loop_run _ _ _ _ _ _ _ Hl) as (n & Hrun & Hn & Hle);
    [lia|].
  destruct (loop_run_rows _ _ _ _ _ _ _ Hrun) as (new & Hnew & Hlen).
  assert (Hrows0 : telemetryRecorder_ (engine (simulate_setup w x_init)) = []).
  { unfold simulate_setup. destruct (systemDynamics _ _ _) as [w1 d].
    reflexivity. }
  rewrite Hnew, Hrows0. cbn [app]. rewrite Hlen. lia.
Qed.

Lemma update_internal_state_snapshot w l :
  let w' := update_internal_state w l in
  let s' := stepperState_ (engine w') in
  tLast s' = current_time l
  /\ qLast s' = head (nq (model_ w')) (x s')
  /\ vLast s' = tail (nv (model_ w')) (x s')
  /\ aLast s' = tail (nv (model_ w')) (dxdt s').
Proof.
  unfold update_internal_state. destruct_lets. proj_simpl. repeat split.
Qed.

(** The loop head: the published snapshot is the state of the
    integrator. *)
Lemma loop_run_snapshot e p w l n w' l' :
  loop_run e p w l n w' l' ->
  let s := stepperState_ (engine w) in
  tLast s = current_time l ->
  qLast s = head (nq (model_ w)) (x s) ->
  vLast s = tail (nv (model_ w)) (x s) ->
  let s' := stepperState_ (engine w') in
  tLast s' = current_time l'
  /\ qLast s' = head (nq (model_ w')) (x s')
  /\ vLast s' = tail (nv (model_ w')) (x s')
  /\ exists rows row,
       telemetryRecorder_ (engine w') = rows ++ [row]
       /\ row_time row = tLast s'
       /\ row_energy row = energyLast s'
       /\ (forall q, row_q row = Some q -> q = qLast s')
       /\ (forall v, row_v row = Some v -> v = vLast s').
Proof.
  induction 1 as [w l Hstop | w l fb w1 l1 n w' l' Hstop Hb Hrun IH];
    intros s Ht Hq Hv.
  - cbv zeta. unfold flushDataSnapshot. proj_simpl.
    split; [exact Ht|]. split; [exact Hq|]. split; [exact Hv|].
    eexists _, _. split; [reflexivity|]. cbn [row_time row_energy row_q row_v].
    split; [reflexivity|]. split; [reflexivity|].
    split; intros a Ha;
      [destruct (logConfiguration _) | destruct (logVelocity _)];
      first [discriminate | now injection Ha as <-].
  - apply loop_body_stable in Hb as (w2 & _ & ->).
    destruct (update_internal_state_snapshot w2 l1) as (A1 & A2 & A3 & _).
    now apply IH.
Qed.

Lemma simulate_setup_snapshot w x_init :
  let w0 := simulate_setup w x_init in
  let s := stepperState_ (engine w0) in
  tLast s = 0
  /\ qLast s = head (nq (model_ w0)) (x s)
  /\ vLast s = tail (nv (model_ w0)) (x s)
  /\ x s = x_init.
Proof.
  unfold simulate_setup.
  match goal with
  | |- context [systemDynamics ?w1 ?t ?x0] =>
      assert (Hs : let s := stepperState_ (engine (fst (systemDynamics w1 t x0))) in
                   tLast s = 0
                   /\ qLast s = head (nq (model_ w)) x_init
                   /\ vLast s = tail (nv (model_ w)) x_init
                   /\ x s = x_init);
      [|pose proof (systemDynamics_unaltered w1 t x0) as Hu;
        destruct (systemDynamics w1 t x0) as [w2 d]]
  end.
  - unfold systemDynamics. destruct_lets; proj_simpl;
      unfold saturateCommand;
      repeat match goal with
             | |- context [fold_left (saturate_step ?m) (seq 0 ?k) ?s] =>
                 change (fold_left (saturate_step m) (seq 0 k) s)
                   with (saturate_prefix m k s);
                 destruct (saturate_prefix_frame m k s)
                   as (-> & -> & -> & _ & _ & _ & -> & _)
             end;
      proj_simpl; repeat split.
  - cbv zeta in Hs. cbn [fst] in Hs. proj_simpl.
    destruct Hs as (B1 & B2 & B3 & B4).
    destruct Hu as (_ & _ & _ & _ & _ & _ & Hsz & _). proj_simpl.
    injection Hsz as Hnq Hnv Hnx. unfold nq, nv.
    rewrite Hnq, Hnv, B4. repeat split; assumption.
Qed.

(** X17: where a run lands: when [simulate] returns [SUCCESS], the published
    time is within the machine epsilon of the end time, or the callback
    of the engine refuses the published time and state, or the iteration
    count has reached 100000; the last row of the recorder carries the
    published time, energy, and, where logged, configuration and
    velocity; and these are the configuration and the velocity of the
    state of the integrator. *)
Theorem simulate_landing (fuel : nat) (w : World) (x_init : vectorN_t)
    (end_time : R) (w' : World) :
  simulate fuel w x_init end_time = Returned (SUCCESS, w') ->
  let s' := stepperState_ (engine w') in
  (Rabs (end_time - tLast s') < epsilon
   \/ callbackFct_ (engine w) (tLast s') (x s') = false
   \/ (100000 <= iterLast s')%Z)
  /\ qLast s' = head (nq (model_ w)) (x s')
  /\ vLast s' = tail (nv (model_ w)) (x s')
  /\ exists rows row,
       telemetryRecorder_ (engine w') = rows ++ [row]
       /\ row_time row = tLast s'
       /\ row_energy row = energyLast s'
       /\ (forall q, row_q row = Some q -> q = qLast s')
       /\ (forall v, row_v row = Some v -> v = vLast s').
Proof.
  intros Hr s'.
  destruct (simulate_inv _ _ _ _ _ (or_introl Hr)) as [Hw' Hloop].
  destruct (Hloop Hr) as [l' Hl].
  pose proof (simulate_setup_iterLast w x_init) as H0.
  destruct (integration_loop_run _ _ _ _ _ _ _ Hl) as (n & Hrun & _); [lia|].
  destruct (loop_run_exit _ _ _ _ _ _ _ Hrun) as (Hstop & _); [lia|].
  destruct (simulate_setup_snapshot w x_init) as (S1 & S2 & S3 & _).
  destruct (loop_run_snapshot _ _ _ _ _ _ _ Hrun S1 S2 S3)
    as (T1 & T2 & T3 & Hrow).
  assert (Hun : unaltered w w').
  { eapply unaltered_trans; [apply simulate_setup_unaltered|].
    eapply integration_loop_unaltered. exact Hw'. }
  destruct Hun as (_ & _ & _ & _ & _ & _ & Hsz & _ & _ & _ & Hcb).
  injection Hsz as Hnq Hnv Hnx.
  apply stop_condition_iff in Hstop. fold s' in Hstop, T1, T2, T3, Hrow.
  rewrite <- T1, Hcb in Hstop.
  unfold nq, nv in *. rewrite Hnq in T2. rewrite Hnv in T3.
  split; [exact Hstop|]. split; [exact T2|]. split; [exact T3 | exact Hrow].
Qed.


(** ** Steps that fail *)

Lemma run_try_step_verdict P p w :
  verdicts P p -> P (fst (fst (fst (fst (snd (run_try_step p w)))))).
Proof.
  revert w. induction p as [res x' d' t' dt' | x0 t k IH]; intros w Hp.
  - exact Hp.
  - cbn [run_try_step]. destruct (systemDynamics w t x0) as [w1 d].
    apply IH. apply Hp.
Qed.

Lemma call_try_step_verdict res w t dt0 :
  stepper_always res -> fst (fst (snd (call_try_step w t dt0))) = res.
Proof.
  intros Hs. unfold call_try_step.
  match goal with
  | |- context [run_try_step ?p w] =>
      pose proof (run_try_step_verdict (eq res) p w (Hs _ _ _ _ _ _)) as Hv;
      destruct (run_try_step p w) as [w1 [[[[r x'] d'] t'] dt']]
  end.
  cbn [fst snd] in *. now symmetry.
Qed.

Lemma breakpoint_steps_accepting fuel w l w' :
  stepper_always success -> breakpoint_steps fuel w l <> Thrown w'.
Proof.
  intros Hs. revert w l. induction fuel as [|fuel IH]; intros w l;
    [discriminate|].
  cbn [breakpoint_steps].
  destruct (Rltb (current_time l) (next_time l)); [|discriminate].
  match goal with
  | |- context [call_try_step w ?t ?d] =>
      pose proof (call_try_step_verdict success w t d Hs) as Hv;
      destruct (call_try_step w t d) as [w1 [[res t'] dt']]
  end.
  cbn [fst snd] in Hv. subst res. apply IH.
Qed.

Lemma free_steps_accepting fuel w l :
  stepper_always success ->
  exists w1 l1, free_steps (S fuel) w l = Returned (w1, l1).
Proof.
  intros Hs. cbn [free_steps].
  pose proof (call_try_step_verdict success w (current_time l) (dt l) Hs) as Hv.
  destruct (call_try_step w (current_time l) (dt l)) as [w1 [[res t'] dt']].
  cbn [fst snd] in Hv. subst res. now eexists _, _.
Qed.

Lemma free_steps_refusing fuel w l :
  stepper_always fail ->
  (fail_checker l <= 500)%nat ->
  if (fuel + fail_checker l <=? 500)%nat
  then free_steps fuel w l = OutOfFuel
  else exists w', free_steps fuel w l = Thrown w'.
Proof.
  intros Hs. revert w l. induction fuel as [|fuel IH]; intros w l Hn.
  - destruct (Nat.leb_spec (0 + fail_checker l) 500); [reflexivity | lia].
  - cbn [free_steps].
    pose proof (call_try_step_verdict fail w (current_time l) (dt l) Hs) as Hv.
    destruct (call_try_step w (current_time l) (dt l)) as [w1 [[res t'] dt']].
    cbn [fst snd] in Hv. subst res. unfold fail_checker_call.
    destruct (Nat.leb_spec 500 (fail_checker l)) as [Hge | Hlt].
    + destruct (Nat.leb_spec (S fuel + fail_checker l) 500); [lia|].
      now exists w1.
    + specialize (IH w1 (mkLocals dt' t' (next_time l) (S (fail_checker l)))).
      cbn [fail_checker] in IH. specialize (IH ltac:(lia)).
      destruct (Nat.leb_spec (fuel + S (fail_checker l)) 500),
               (Nat.leb_spec (S fuel + fail_checker l) 500); try lia; exact IH.
Qed.

Lemma breakpoint_steps_count fuel w l w' l' :
  stepper_always success ->
  fail_checker l = 0%nat ->
  breakpoint_steps fuel w l = Returned (w', l') -> fail_checker l' = 0%nat.
Proof.
  intros Hs. revert w l. induction fuel as [|fuel IH]; intros w l Hl Hr;
    [discriminate|].
  cbn [breakpoint_steps] in Hr.
  destruct (Rltb (current_time l) (next_time l)).
  - match type of Hr with
    | context [call_try_step w ?t ?d] =>
        pose proof (call_try_step_verdict success w t d Hs) as Hv;
        destruct (call_try_step w t d) as [w1 [[res t'] dt']]
    end.
    cbn [fst snd] in Hv. subst res. apply IH in Hr; [exact Hr | reflexivity].
  - injection Hr as _ <-. exact Hl.
Qed.

Lemma free_steps_count fuel w l w' l' :
  free_steps fuel w l = Returned (w', l') -> fail_checker l' = 0%nat.
Proof.
  revert w l. induction fuel as [|fuel IH]; intros w l Hr; [discriminate|].
  cbn [free_steps] in Hr.
  destruct (call_try_step w (current_time l) (dt l)) as [w1 [[res t'] dt']].
  destruct res.
  - injection Hr as _ <-. reflexivity.
  - destruct (fail_checker_call (fail_checker l)); [|discriminate].
    apply IH in Hr. exact Hr.
Qed.

Lemma simulate_not_aborted (fuel : nat) (w : World) (x_init : vectorN_t)
    (end_time : R) (w' : World) :
  stepper_always success ->
  simulate fuel w x_init end_time <> Thrown w'.
Proof.
  intros Hs.
  assert (Hbody : forall f e p w0 l w1, loop_body f e p w0 l <> Thrown w1).
  { intros f e p w0 l w1. unfold loop_body.
    destruct (Rgtb p 0).
    - match goal with
      | |- context [breakpoint_steps f ?w2 ?l2] =>
          pose proof (breakpoint_steps_accepting f w2 l2 w1 Hs) as Hb;
          destruct (breakpoint_steps f w2 l2) as [[w3 l3]|w3|]
      end; try discriminate. congruence.
    - destruct f as [|f]; [discriminate|].
      match goal with
      | |- context [free_steps (S f) w0 ?l2] =>
          destruct (free_steps_accepting f w0 l2 Hs) as (w3 & l3 & ->)
      end.
      discriminate. }
  assert (Hloop : forall f e p w0 l w1,
            integration_loop f e p w0 l <> Thrown w1).
  { induction f as [|f IH]; intros e p w0 l w1; [discriminate|].
    cbn [integration_loop].
    destruct (stop_condition e (flushDataSnapshot w0) l); [discriminate|].
    pose proof (Hbody f e p (flushDataSnapshot w0) l) as Hb.
    destruct (loop_body f e p (flushDataSnapshot w0) l) as [[w2 l2]|w2|];
      [apply IH | now elim (Hb w2) | discriminate]. }
  unfold simulate.
  destruct (negb (isInitialized_ (engine w))); [discriminate|].
  destruct (negb (length x_init =? nx (model_ w))%nat); [discriminate|].
  destruct (Rltb end_time 5e-2); [discriminate|].
  match goal with
  | |- context [integration_loop fuel ?e ?p ?w0 ?l] =>
      pose proof (Hloop fuel e p w0 l) as Hl;
      destruct (integration_loop fuel e p w0 l) as [[w2 l2]|w2|]
  end; try discriminate.
  intros Heq. injection Heq as ->. now elim (Hl w').
Qed.

(** X18: a stepper that accepts every step never sets off the checker of
    failed steps: the count of consecutive failures stays at 0 through
    both inner loops, and neither these loops nor [simulate] end by the
    exception of the checker.  That exception is what [Thrown] stands for
    in the model of [simulate]; an exception that the controller, the
    callback or another collaborator raises is not part of the model. *)
Theorem accepting_stepper_checker_idle :
  stepper_always success ->
  (forall fuel w l w' l',
     fail_checker l = 0%nat ->
     breakpoint_steps fuel w l = Returned (w', l') -> fail_checker l' = 0%nat)
  /\ (forall fuel w l w' l',
        free_steps fuel w l = Returned (w', l') -> fail_checker l' = 0%nat)
  /\ (forall fuel w l w', breakpoint_steps fuel w l <> Thrown w')
  /\ (forall fuel w l w', free_steps fuel w l <> Thrown w')
  /\ (forall fuel w x_init end_time w',
        simulate fuel w x_init end_time <> Thrown w').
Proof.
  intros Hs. split; [|split; [|split; [|split]]].
  - intros fuel w l w' l'. now apply breakpoint_steps_count.
  - intros fuel w l w' l'. apply free_steps_count.
  - intros fuel w l w'. now apply breakpoint_steps_accepting.
  - intros fuel w l w'. destruct fuel as [|fuel]; [discriminate|].
    destruct (free_steps_accepting fuel w l Hs) as (w1 & l1 & ->).
    discriminate.
  - intros fuel w x_init end_time w'. now apply simulate_not_aborted.
Qed.

(** X19: the checker of failed steps tolerates 500 consecutive refusals and
    throws at the next one: with a stepper that refuses every step, the
    loop of free steps entered with the count at 0 is still running after
    500 calls of the stepper and has thrown after 501. *)
Theorem refusing_stepper_throws (fuel : nat) (w : World) (l : locals) :
  stepper_always fail ->
  fail_checker l = 0%nat ->
  ((fuel <= 500)%nat -> free_steps fuel w l = OutOfFuel)
  /\ ((500 < fuel)%nat -> exists w', free_steps fuel w l = Thrown w').
Proof.
  intros Hs Hl.
  pose proof (free_steps_refusing fuel w l Hs ltac:(lia)) as H.
  rewrite Hl, Nat.add_0_r in H.
  destruct (Nat.leb_spec fuel 500); split; intros; try lia; exact H.
Qed.


(** ** The sensors between two of their updates *)

Lemma systemDynamics_sensors_kept w t x0 :
  epsilon <= sensorsUpdatePeriod (stepper (engineOptions_ (engine w))) ->
  sensors_kept w (fst (systemDynamics w t x0)).
Proof.
  intros Hs. unfold systemDynamics, sensors_kept. cbv zeta.
  rewrite (Rltb_ge _ _ Hs).
  destruct_lets; proj_simpl; repeat split.
Qed.

(** X27: the data of the sensors are held between two of their updates:
    when the update period of the sensors is not below the machine
    epsilon, no evaluation of the dynamics, call of the stepper or
    sequence of integration steps of either inner loop changes them. *)
Theorem sensors_held (w : World) :
  epsilon <= sensorsUpdatePeriod (stepper (engineOptions_ (engine w))) ->
  (forall t x0, sensors_kept w (fst (systemDynamics w t x0)))
  /\ (forall t dt0, sensors_kept w (fst (call_try_step w t dt0)))
  /\ (forall fuel l w',
        outcome_world (breakpoint_steps fuel w l) = Some w' ->
        sensors_kept w w')
  /\ (forall fuel l w',
        outcome_world (free_steps fuel w l) = Some w' -> sensors_kept w w').
Proof.
  intros Hs.
  assert (Hdyn : forall w1 t x0,
            sensors_kept w w1 -> sensors_kept w (fst (systemDynamics w1 t x0))).
  { intros w1 t x0 [Ho Hk].
    destruct (systemDynamics_sensors_kept w1 t x0) as [Ho' Hk'];
      [now rewrite Ho|].
    split; congruence. }
  assert (Hstate : forall w1 x' d', sensors_kept w w1 ->
            sensors_kept w (with_stepperState w1
                      (with_dxdt (with_x (stepperState_ (engine w1)) x') d')))
    by (intros w1 x' d' Hw1; exact Hw1).
  assert (Hrefl : sensors_kept w w) by (split; reflexivity).
  split; [|split; [|split]].
  - intros t x0. now apply systemDynamics_sensors_kept.
  - intros t dt0.
    apply (call_try_step_preserves (sensors_kept w) Hdyn Hstate). exact Hrefl.
  - intros fuel l w' Hr.
    apply (breakpoint_steps_preserves (sensors_kept w) Hdyn Hstate fuel w l);
      [exact Hrefl | exact Hr].
  - intros fuel l w' Hr.
    apply (free_steps_preserves (sensors_kept w) Hdyn Hstate fuel w l);
      [exact Hrefl | exact Hr].
Qed.

(** ** The schedule of the break-points *)

Lemma breakpoint_steps_exit fuel w l w' l' :
  breakpoint_steps fuel w l = Returned (w', l') ->
  next_time l' = next_time l /\ next_time l' <= current_time l'.
Proof.
  revert w l. induction fuel as [|fuel IH]; intros w l Hr; [discriminate|].
  cbn [breakpoint_steps] in Hr.
  destruct (Rltb_spec (current_time l) (next_time l)) as [Hlt | Hge].
  - destruct (call_try_step w (current_time l) _) as [w1 [[res t'] dt']].
    destruct res.
    + apply IH in Hr. exact Hr.
    + destruct (fail_checker_call (fail_checker l)); [|discriminate].
      apply IH in Hr. exact Hr.
  - injection Hr as <- <-. split; [reflexivity | lra].
Qed.

Lemma loop_body_schedule fuel e p w l w' l' :
  p > 0 ->
  loop_body fuel e p w l = Returned (w', l') ->
  next_time l' = next_time l + Rmin p (e - next_time l)
  /\ next_time l' <= current_time l'.
Proof.
  intros Hp Hr. unfold loop_body in Hr. rewrite Rgtb_gt in Hr by exact Hp.
  match type of Hr with
  | context [breakpoint_steps fuel ?w0 ?l0] =>
      pose proof (breakpoint_steps_exit fuel w0 l0) as Hx;
      destruct (breakpoint_steps fuel w0 l0) as [[w1 l1]|w1|]; try discriminate
  end.
  injection Hr as <- <-. destruct (Hx w1 l1 eq_refl) as [Hn Hc].
  cbn [next_time] in Hn. split; [exact Hn | exact Hc].
Qed.

Lemma Rmin_schedule (k p e : R) :
  0 < p -> Rmin k e + Rmin p (e - Rmin k e) = Rmin (k + p) e.
Proof.
  intros Hp. unfold Rmin.
  repeat match goal with
         | |- context [Rle_dec ?a ?b] => destruct (Rle_dec a b)
         end; lra.
Qed.

Lemma loop_run_schedule e p w l n w' l' :
  p > 0 ->
  loop_run e p w l n w' l' ->
  forall k : R,
    next_time l = Rmin k e ->
    next_time l <= current_time l ->
    next_time l' = Rmin (k + INR n * p) e
    /\ next_time l' <= current_time l'.
Proof.
  intros Hp.
  induction 1 as [w l Hstop | w l fb w1 l1 n w' l' Hstop Hb Hrun IH];
    intros k Hk Hc.
  - cbn [INR]. rewrite Rmult_0_l, Rplus_0_r. now split.
  - destruct (loop_body_schedule _ _ _ _ _ _ _ Hp Hb) as [Hn1 Hc1].
    rewrite Hk, Rmin_schedule in Hn1 by exact Hp.
    destruct (IH (k + p) Hn1 Hc1) as [Hn Hc'].
    split; [|exact Hc'].
    rewrite Hn, S_INR. f_equal. ring.
Qed.

(** X28: the schedule of the break-points: with a positive break-point
    period [p], a run of the loop of [simulate] that leaves it after [n]
    iterations has set its last break-point at the smaller of [n * p] and
    the end time, and the time has reached that break-point; so when
    [simulate] returns [SUCCESS] the published time is not before the
    smaller of [iterLast * p] and the end time. *)
Theorem breakpoint_schedule (w : World) (x_init : vectorN_t) (end_time : R)
    (w' : World) :
  updatePeriod_of (stepper (engineOptions_ (engine w))) > 0 ->
  let p := updatePeriod_of (stepper (engineOptions_ (engine w))) in
  let l0 := mkLocals (initial_dt p) 0 0 0 in
  let s' := stepperState_ (engine w') in
  (forall n l',
     0 <= end_time ->
     loop_run end_time p (simulate_setup w x_init) l0 n w' l' ->
     next_time l' = Rmin (INR n * p) end_time
     /\ next_time l' <= current_time l'
     /\ tLast s' = current_time l')
  /\ (forall fuel,
        simulate fuel w x_init end_time = Returned (SUCCESS, w') ->
        Rmin (IZR (iterLast s') * p) end_time <= tLast s').
Proof.
  intros Hp p l0 s'.
  assert (Hrun : forall n l',
     0 <= end_time ->
     loop_run end_time p (simulate_setup w x_init) l0 n w' l' ->
     next_time l' = Rmin (INR n * p) end_time
     /\ next_time l' <= current_time l'
     /\ tLast s' = current_time l').
  { intros n l' He Hrun.
    destruct (simulate_setup_snapshot w x_init) as (S1 & S2 & S3 & _).
    destruct (loop_run_snapshot _ _ _ _ _ _ _ Hrun S1 S2 S3) as (T1 & _).
    destruct (loop_run_schedule _ _ _ _ _ _ _ Hp Hrun 0) as [Hnext Hcur].
    - unfold l0. cbn [next_time]. symmetry. apply Rmin_left. exact He.
    - unfold l0. cbn [next_time current_time]. lra.
    - rewrite Rplus_0_l in Hnext. split; [exact Hnext|].
      split; [exact Hcur | exact T1]. }
  split; [exact Hrun|].
  intros fuel Hr.
  destruct (simulate_inv _ _ _ _ _ (or_introl Hr)) as [_ Hloop].
  destruct (Hloop Hr) as [l' Hl]. fold p in Hl.
  pose proof (simulate_setup_iterLast w x_init) as H0.
  destruct (integration_loop_run _ _ _ _ _ _ _ Hl) as (n & Hrun' & Hn & _);
    [lia|].
  assert (He : 0 <= end_time).
  { unfold simulate in Hr.
    destruct (negb (isInitialized_ (engine w))); [discriminate|].
    destruct (negb (length x_init =? nx (model_ w))%nat); [discriminate|].
    destruct (Rltb_spec end_time 5e-2); [discriminate | lra]. }
  destruct (Hrun n l' He Hrun') as (Hnext & Hcur & T1).
  fold s' in Hn. rewrite T1. rewrite H0, Z.add_0_l in Hn.
  rewrite Hn, <- INR_IZR_INZ, <- Hnext. exact Hcur.
Qed.

End EngineMore.

(** * Further properties: [Engine::initialize] *)

Ltac init_simpl :=
  unfold with_engine, Engine_with_isInitialized, Engine_with_callbackFct in *;
  cbn [handed_state with_handed] in *;
  proj_simpl.

Section InitializeFacts.
Context `{Pin : Pinocchio} `{Sen : SensorRegistry} `{Ctl : !AbstractController}
        `{Stp : !ControlledStepper} `{Cfg : !ConfigHolder}
        `{Prb : !ControllerProbe} `{Tel : !SensorTelemetry}.

Lemma to_int32_id z : (- 2 ^ 31 <= z < 2 ^ 31)%Z -> to_int32 z = z.
Proof. intros Hz. unfold to_int32. rewrite Z.mod_small; lia. Qed.

(** X20: the two early returns of [initialize]: a model that is not
    initialised is refused before anything is touched; a controller that
    is not initialised is refused after the model has been bound and the
    stepper state reset on it, and before the logger is set up, so that
    the flag, the controller, the callback, the options and the recorded
    rows of the engine stay as they were. *)
Theorem initialize_early_returns (w : World) (model : Model)
    (controller : controller_t) (callbackFct : R -> vectorN_t -> bool) :
  (Model_isInitialized_ model = false ->
   initialize w model controller callbackFct = Returned (ERROR_INIT_FAILED, w))
  /\ (Model_isInitialized_ model = true ->
      controller_getIsInitialized controller = false ->
      exists w',
        initialize w model controller callbackFct
        = Returned (ERROR_INIT_FAILED, w')
        /\ model_ w' = model
        /\ controller_ w' = controller_ w
        /\ isInitialized_ (engine w') = isInitialized_ (engine w)
        /\ callbackFct_ (engine w') = callbackFct_ (engine w)
        /\ engineOptions_ (engine w') = engineOptions_ (engine w)
        /\ telemetryRecorder_ (engine w') = telemetryRecorder_ (engine w)
        /\ stepperState_ (engine w')
           = stepperState_initialize_x model (Zero (nx model))).
Proof.
  split.
  - intros Hm. unfold initialize, initialize_handed. now rewrite Hm.
  - intros Hm Hc. unfold initialize, initialize_handed. rewrite Hm.
    cbn [negb handed_state]. proj_simpl.
    rewrite Hc. cbn [negb]. eexists. split; [reflexivity|].
    proj_simpl. repeat split.
Qed.

Lemma probe_controller_code (model : Model) (controller : controller_t) :
  (Z.of_nat (length (jointsVelocityIdx_ model)) < 2 ^ 31)%Z ->
  let q := Zero (nq model) in
  let v := Zero (nv model) in
  let r1 := compute_command controller model 0 q v
              (Zero (length (jointsVelocityIdx_ model))) in
  let r2 := internalDynamics (fst r1) model 0 q v (Zero (nv model)) in
  let thrown :=
    compute_command_throws controller model 0 q v
      (Zero (length (jointsVelocityIdx_ model)))
    || internalDynamics_throws (fst r1) model 0 q v (Zero (nv model)) in
  let sized :=
    (length (snd r1) =? length (jointsVelocityIdx_ model))%nat
    && (length (snd r2) =? nv model)%nat in
  probe_controller model controller
  = (if thrown then ERROR_GENERIC
     else if sized then SUCCESS else ERROR_BAD_INPUT,
     if compute_command_throws controller model 0 q v
          (Zero (length (jointsVelocityIdx_ model)))
     then controller
     else if internalDynamics_throws (fst r1) model 0 q v (Zero (nv model))
          then fst r1 else fst r2).
Proof.
  intros Hn q v r1 r2 thrown sized.
  unfold probe_controller, thrown, sized, r2, r1. fold q. fold v.
  rewrite to_int32_id by lia.
  destruct (compute_command_throws _ _ _ _ _ _); [reflexivity|].
  destruct (compute_command controller model 0 q v _) as [c1 u]. cbn [fst snd].
  destruct (internalDynamics_throws _ _ _ _ _ _); [reflexivity|].
  destruct (internalDynamics c1 model 0 q v _) as [c2 uI]. cbn [fst snd orb].
  destruct (Nat.eqb_spec (length u) (length (jointsVelocityIdx_ model))),
           (Z.eqb_spec (Z.of_nat (length u))
              (Z.of_nat (length (jointsVelocityIdx_ model))));
    try lia; destruct (length uI =? nv model)%nat; reflexivity.
Qed.

(** The code of a call of [initialize] that returns past the two tests
    of the flags. *)
Lemma initialize_handed_code (w : World) (model : Model)
    (handed : handed_controller) (callbackFct : R -> vectorN_t -> bool)
    (r : result_t) (w' : World) :
  Model_isInitialized_ model = true ->
  controller_getIsInitialized (handed_state w handed) = true ->
  initialize_handed w model handed callbackFct = Returned (r, w') ->
  probe_escape model (handed_state w handed) = None
  /\ r = fst (probe_controller model (handed_state w handed)).
Proof.
  intros Hm Hc Hr. unfold initialize_handed in Hr. rewrite Hm in Hr.
  cbn [negb] in Hr.
  assert (Hh : forall s,
            handed_state (with_stepperState (with_model w model) s) handed
            = handed_state w handed) by (intros s; now destruct handed).
  rewrite Hh in Hr. proj_simpl. rewrite Hc in Hr. cbn [negb] in Hr.
  destruct (probe_escape model (handed_state w handed)); [discriminate|].
  split; [reflexivity|].
  destruct (probe_controller model (handed_state w handed)) as [rc c'].
  destruct (is_success rc).
  - destruct (setOptions _ _) as [w1|w1|]; try discriminate.
    now injection Hr as <- _.
  - now injection Hr as <- _.
Qed.

(** X21: the code that [initialize] returns once the model and the controller
    have passed the tests of their flags: [ERROR_GENERIC] exactly when
    one of the two calls of the controller throws, [SUCCESS] exactly when
    neither throws and both return a vector of the expected size, and
    never [ERROR_INIT_FAILED].  The internal dynamics is called even when
    the command has a wrong size, on the controller as the first call
    left it, and its exception overrides [ERROR_BAD_INPUT]. *)
Theorem initialize_code (w : World) (model : Model) (controller : controller_t)
    (callbackFct : R -> vectorN_t -> bool) (r : result_t) (w' : World) :
  Model_isInitialized_ model = true ->
  controller_getIsInitialized controller = true ->
  (Z.of_nat (length (jointsVelocityIdx_ model)) < 2 ^ 31)%Z ->
  initialize w model controller callbackFct = Returned (r, w') ->
  let q := Zero (nq model) in
  let v := Zero (nv model) in
  let r1 := compute_command controller model 0 q v
              (Zero (length (jointsVelocityIdx_ model))) in
  let r2 := internalDynamics (fst r1) model 0 q v (Zero (nv model)) in
  let thrown :=
    compute_command_throws controller model 0 q v
      (Zero (length (jointsVelocityIdx_ model))) = true
    \/ internalDynamics_throws (fst r1) model 0 q v (Zero (nv model)) = true in
  (r = ERROR_GENERIC <-> thrown)
  /\ (r = SUCCESS <->
      ~ thrown /\ length (snd r1) = length (jointsVelocityIdx_ model)
      /\ length (snd r2) = nv model)
  /\ (r = ERROR_BAD_INPUT <->
      ~ thrown /\ ~ (length (snd r1) = length (jointsVelocityIdx_ model)
                     /\ length (snd r2) = nv model))
  /\ r <> ERROR_INIT_FAILED.
Proof.
  intros Hm Hc Hn Hr. cbv zeta.
  assert (Hcode : r = fst (probe_controller model controller)).
  { unfold initialize in Hr.
    now destruct (initialize_handed_code w model (another_controller controller)
                    callbackFct r w' Hm Hc Hr). }
  rewrite probe_controller_code in Hcode by exact Hn.
  cbv zeta in Hcode. cbn [fst] in Hcode. clear Hr.
  destruct (compute_command_throws controller model 0 _ _ _);
    cbn [orb] in Hcode.
  { subst r. repeat split; try discriminate; try tauto;
      intros [Hno _]; elim Hno; now left. }
  destruct (internalDynamics_throws _ model 0 _ _ _).
  { subst r. repeat split; try discriminate; try tauto;
      intros [Hno _]; elim Hno; now right. }
  destruct (Nat.eqb_spec
              (length (snd (compute_command controller model 0
                              (Zero (nq model)) (Zero (nv model))
                              (Zero (length (jointsVelocityIdx_ model))))))
              (length (jointsVelocityIdx_ model))) as [H1 | H1];
    match type of Hcode with
    | context [(length ?a =? nv model)%nat] =>
        destruct (Nat.eqb_spec (length a) (nv model)) as [H2 | H2]
    end;
    cbn [andb] in Hcode; subst r;
    repeat split; try discriminate; try tauto;
    try (intros [? | ?]; discriminate);
    try (intros [? [? ?]]; tauto).
Qed.

Lemma setOptions_flag (w : World) (h : configHolder_t) :
  match setOptions w h with
  | Returned w' | Thrown w' =>
      isInitialized_ (engine w') = isInitialized_ (engine w)
      /\ controller_ w' = controller_ w
      /\ callbackFct_ (engine w') = callbackFct_ (engine w)
      /\ telemetryRecorder_ (engine w') = telemetryRecorder_ (engine w)
      /\ stepperState_ (engine w') = stepperState_ (engine w)
      /\ randGenerators w' = randGenerators w
      /\ engineOptionsHolder_ (engine w') = h
      /\ (nq_ (model_ w'), nv_ (model_ w'), nx_ (model_ w'))
         = (nq_ (model_ w), nv_ (model_ w), nx_ (model_ w))
      /\ jointsVelocityIdx_ (model_ w') = jointsVelocityIdx_ (model_ w)
      /\ jointsPositionIdx_ (model_ w') = jointsPositionIdx_ (model_ w)
      /\ contactFramesIdx_ (model_ w') = contactFramesIdx_ (model_ w)
      /\ effortLimit (pncModel_ (model_ w')) = effortLimit (pncModel_ (model_ w))
      /\ Model_isInitialized_ (model_ w') = Model_isInitialized_ (model_ w)
  | OutOfFuel => False
  end.
Proof.
  unfold setOptions. destruct (engineOptions_t_ctor h); proj_simpl.
  - destruct (isInitialized_ (engine w)); proj_simpl; repeat split.
  - repeat split.
Qed.

(** Once both flags are set, an exception that goes through the [try]
    block ends [initialize]; without one, and when the controller has
    answered well, the outcome is decided by the holder of the engine. *)
Lemma initialize_outcome (w : World) (model : Model)
    (handed : handed_controller) (callbackFct : R -> vectorN_t -> bool) :
  Model_isInitialized_ model = true ->
  controller_getIsInitialized (handed_state w handed) = true ->
  match probe_escape model (handed_state w handed) with
  | Some _ =>
      exists w', initialize_handed w model handed callbackFct = Thrown w'
  | None =>
      fst (probe_controller model (handed_state w handed)) = SUCCESS ->
      match engineOptions_t_ctor (engineOptionsHolder_ (engine w)) with
      | Some _ =>
          exists w', initialize_handed w model handed callbackFct
                     = Returned (SUCCESS, w')
      | None =>
          exists w', initialize_handed w model handed callbackFct = Thrown w'
      end
  end.
Proof.
  intros Hm Hc. unfold initialize_handed. rewrite Hm. cbn [negb].
  assert (Hh : forall s,
            handed_state (with_stepperState (with_model w model) s) handed
            = handed_state w handed) by (intros s; now destruct handed).
  rewrite Hh. proj_simpl. rewrite Hc. cbn [negb].
  destruct (probe_escape model (handed_state w handed));
    [eexists; reflexivity|].
  intros Hp.
  destruct (probe_controller model (handed_state w handed)) as [rc c'].
  cbn [fst] in Hp. subst rc. cbn [is_success]. unfold setOptions.
  destruct handed; init_simpl;
    destruct (engineOptions_t_ctor (engineOptionsHolder_ (engine w)));
    eexists; reflexivity.
Qed.

(** X22: [initialize] never clears the flag of the engine: on return the
    engine is initialised if it was so before or if the code is
    [SUCCESS]; once the model has passed its test the world holds the
    model that was handed in, with its sizes and index tables; and unless
    the code is [SUCCESS] the callback and the options are those the
    engine had.  The controller of the world is then the one it had when
    the controller handed in is another object; when it is the bound
    one, the two probing calls have been made on the controller of the
    world, whatever the code.  So a re-initialisation that fails on the
    controller leaves an engine that is flagged initialised and bound to
    the new model. *)
Theorem initialize_flag (w : World) (model : Model) (handed : handed_controller)
    (callbackFct : R -> vectorN_t -> bool) (r : result_t) (w' : World) :
  initialize_handed w model handed callbackFct = Returned (r, w') ->
  isInitialized_ (engine w') = isInitialized_ (engine w) || is_success r
  /\ (Model_isInitialized_ model = true ->
      nx (model_ w') = nx model
      /\ jointsVelocityIdx_ (model_ w') = jointsVelocityIdx_ model
      /\ effortLimit (pncModel_ (model_ w')) = effortLimit (pncModel_ model))
  /\ (r <> SUCCESS ->
      callbackFct_ (engine w') = callbackFct_ (engine w)
      /\ engineOptions_ (engine w') = engineOptions_ (engine w)
      /\ forall controller,
           handed = another_controller controller ->
           controller_ w' = controller_ w)
  /\ (handed = the_bound_controller ->
      Model_isInitialized_ model = true ->
      controller_getIsInitialized (controller_ w) = true ->
      controller_ w' = snd (probe_controller model (controller_ w))).
Proof.
  unfold initialize_handed. intros Hr.
  destruct (Model_isInitialized_ model) eqn:Hm; cbn [negb] in Hr.
  2:{ injection Hr as <- <-. cbn [is_success]. rewrite orb_false_r.
      split; [reflexivity|]. split; [discriminate|].
      split; [now intros _ | discriminate]. }
  assert (Hh : forall s,
            handed_state (with_stepperState (with_model w model) s) handed
            = handed_state w handed) by (intros s; now destruct handed).
  rewrite Hh in Hr. proj_simpl.
  destruct (controller_getIsInitialized (handed_state w handed)) eqn:Hc;
    cbn [negb] in Hr.
  2:{ injection Hr as <- <-. cbn [is_success]. rewrite orb_false_r.
      proj_simpl. split; [reflexivity|]. split; [now repeat split|].
      split; [now repeat split|].
      intros -> _ Hc'. cbn [handed_state] in Hc. congruence. }
  destruct (probe_escape model (handed_state w handed)); [discriminate|].
  destruct (probe_controller model (handed_state w handed)) as [rc c'] eqn:Hp.
  destruct (is_success rc) eqn:Hrc.
  - match type of Hr with
    | context [setOptions ?w1 ?h] =>
        pose proof (setOptions_flag w1 h) as Hset;
        destruct (setOptions w1 h) as [w2|w2|]; try discriminate
    end.
    injection Hr as <- <-.
    destruct Hset as (S1 & S2 & S3 & S4 & S5 & S6 & S7 & S8 & S9 & S10 & S11
                      & S12 & S13).
    destruct handed; init_simpl; rewrite Hrc, orb_true_r;
      injection S8 as Hq Hv Hx;
      (split; [exact S1|]); (split; [intros _; unfold nx; now repeat split|]);
      (split; [intros Hne; destruct rc; try discriminate; now elim Hne|]);
      try discriminate.
    intros _ _ _. rewrite S2, Hp. reflexivity.
  - injection Hr as <- <-.
    destruct handed; init_simpl; rewrite Hrc, orb_false_r;
      (split; [reflexivity|]); (split; [now repeat split|]).
    + split; [|intros _ _ _; now rewrite Hp].
      intros _. split; [reflexivity|]. split; [reflexivity|]. discriminate.
    + split; [|discriminate].
      intros _. split; [reflexivity|]. split; [reflexivity|]. reflexivity.
Qed.

(** X23: what a successful [initialize] establishes: the engine is flagged
    initialised, the callback and the controller handed in are bound,
    the options are those that the holder of the engine parses to, the
    gravity of the model is the gravity of these options, the stepper
    state is the zero state of the model with the iteration count 0 and
    the recorder is empty. *)
Theorem initialize_success (w : World) (model : Model)
    (controller : controller_t) (callbackFct : R -> vectorN_t -> bool)
    (w' : World) :
  initialize w model controller callbackFct = Returned (SUCCESS, w') ->
  isInitialized_ (engine w') = true
  /\ callbackFct_ (engine w') = callbackFct
  /\ controller_ w' = snd (probe_controller model controller)
  /\ engineOptionsHolder_ (engine w') = engineOptionsHolder_ (engine w)
  /\ engineOptions_t_ctor (engineOptionsHolder_ (engine w))
     = Some (engineOptions_ (engine w'))
  /\ pnc_gravity (pncModel_ (model_ w'))
     = gravity (world (engineOptions_ (engine w')))
  /\ stepperState_ (engine w') = stepperState_initialize model
  /\ telemetryRecorder_ (engine w') = []
  /\ randGenerators w' = randGenerators w.
Proof.
  unfold initialize, initialize_handed. intros Hr.
  destruct (Model_isInitialized_ model); cbn [negb] in Hr; [|discriminate].
  init_simpl.
  destruct (controller_getIsInitialized controller); cbn [negb] in Hr;
    [|discriminate].
  destruct (probe_escape model controller); [discriminate|].
  destruct (probe_controller model controller) as [rc c'].
  destruct (is_success rc) eqn:Hrc.
  - unfold setOptions in Hr. init_simpl.
    destruct (engineOptions_t_ctor (engineOptionsHolder_ (engine w))) as [o|];
      [|discriminate].
    injection Hr as -> <-. init_simpl.
    unfold stepperState_initialize, nq, nv, nx. proj_simpl. repeat split.
  - injection Hr as -> _. discriminate.
Qed.

(** X24: [initialize] throws in two ways, both past the tests of the two
    flags and both leaving the options as they were.  Either one of the
    two probing calls raises an exception that is not a [std::exception],
    which the handler of the [try] block lets through: the flag and the
    callback of the engine are then as they were.  Or there is no such
    exception, the controller has answered well and [setOptions] throws
    because the holder of the engine does not parse: the flag is then
    set already, and the callback handed in is bound. *)
Theorem initialize_throws (w : World) (model : Model)
    (handed : handed_controller) (callbackFct : R -> vectorN_t -> bool)
    (w' : World) :
  initialize_handed w model handed callbackFct = Thrown w' ->
  let controller := handed_state w handed in
  Model_isInitialized_ model = true
  /\ controller_getIsInitialized controller = true
  /\ engineOptions_ (engine w') = engineOptions_ (engine w)
  /\ ((probe_escape model controller <> None
       /\ isInitialized_ (engine w') = isInitialized_ (engine w)
       /\ callbackFct_ (engine w') = callbackFct_ (engine w))
      \/ (probe_escape model controller = None
          /\ fst (probe_controller model controller) = SUCCESS
          /\ engineOptions_t_ctor (engineOptionsHolder_ (engine w)) = None
          /\ isInitialized_ (engine w') = true
          /\ callbackFct_ (engine w') = callbackFct)).
Proof.
  intros Hr. cbv zeta. unfold initialize_handed in Hr.
  destruct (Model_isInitialized_ model); cbn [negb] in Hr; [|discriminate].
  assert (Hh : forall s,
            handed_state (with_stepperState (with_model w model) s) handed
            = handed_state w handed) by (intros s; now destruct handed).
  rewrite Hh in Hr. proj_simpl.
  destruct (controller_getIsInitialized (handed_state w handed));
    cbn [negb] in Hr; [|discriminate].
  split; [reflexivity|]. split; [reflexivity|].
  destruct (probe_escape model (handed_state w handed)) as [c|].
  - injection Hr as <-.
    destruct handed; init_simpl; (split; [reflexivity|]); left;
      (split; [discriminate|]); split; reflexivity.
  - destruct (probe_controller model (handed_state w handed)) as [rc c'].
    destruct (is_success rc) eqn:Hrc; [|discriminate].
    unfold setOptions in Hr.
    destruct handed; init_simpl;
      (destruct (engineOptions_t_ctor (engineOptionsHolder_ (engine w)))
         as [o|] eqn:Ho; [discriminate|]);
      injection Hr as <-; init_simpl; destruct rc; try discriminate;
      (split; [reflexivity|]); right; repeat split; exact Ho.
Qed.

(** X25: after a successful [initialize], [simulate] passes its test of the
    flag and, for a state of the size of the model and an end time of at
    least 50 ms, its two other tests: if it returns, it returns
    [SUCCESS].  On an engine that was not initialised, after an
    [initialize] that failed, [simulate] answers [ERROR_INIT_FAILED] and
    changes nothing. *)
Theorem initialize_then_simulate (w : World) (model : Model)
    (controller : controller_t) (callbackFct : R -> vectorN_t -> bool)
    (r : result_t) (w1 : World) (x_init : vectorN_t) (end_time : R)
    (fuel : nat) :
  initialize w model controller callbackFct = Returned (r, w1) ->
  (r = SUCCESS -> length x_init = nx model -> 0.05 <= end_time ->
   forall r2 w2,
     simulate fuel w1 x_init end_time = Returned (r2, w2) -> r2 = SUCCESS)
  /\ (r <> SUCCESS -> isInitialized_ (engine w) = false ->
      simulate fuel w1 x_init end_time = Returned (ERROR_INIT_FAILED, w1)).
Proof.
  intros Hi. unfold initialize in Hi. split.
  - intros -> Hlen He r2 w2 Hs.
    assert (Hflag : isInitialized_ (engine w1) = true
                    /\ nx (model_ w1) = nx model).
    { unfold initialize_handed in Hi.
      destruct (Model_isInitialized_ model); cbn [negb] in Hi; [|discriminate].
      init_simpl.
      destruct (controller_getIsInitialized controller); cbn [negb] in Hi;
        [|discriminate].
      destruct (probe_escape model controller); [discriminate|].
      destruct (probe_controller model controller) as [rc c'].
      destruct (is_success rc) eqn:Hrc.
      - match type of Hi with
        | context [setOptions ?w0 ?h] =>
            pose proof (setOptions_flag w0 h) as Hset;
            destruct (setOptions w0 h) as [w3|w3|]; try discriminate
        end.
        injection Hi as _ <-. init_simpl.
        destruct Hset as (S1 & _ & _ & _ & _ & _ & _ & S8 & _).
        injection S8 as _ _ Hx. unfold nx. now split.
      - injection Hi as -> _. discriminate. }
    destruct Hflag as [Hf Hx].
    unfold simulate in Hs. rewrite Hf, Hx, Hlen, Nat.eqb_refl in Hs.
    cbn [negb] in Hs. rewrite Rltb_ge in Hs by lra.
    destruct (integration_loop _ _ _ _ _) as [[w3 l3]|w3|]; try discriminate.
    now injection Hs as <- _.
  - intros Hne Hf0.
    assert (Hf : isInitialized_ (engine w1) = false).
    { unfold initialize_handed in Hi.
      destruct (Model_isInitialized_ model); cbn [negb] in Hi;
        [|now injection Hi as _ <-].
      init_simpl.
      destruct (controller_getIsInitialized controller); cbn [negb] in Hi;
        [|injection Hi as _ <-; exact Hf0].
      destruct (probe_escape model controller); [discriminate|].
      destruct (probe_controller model controller) as [rc c'].
      destruct (is_success rc) eqn:Hrc.
      - destruct (setOptions _ _) as [w3|w3|]; try discriminate.
        injection Hi as <- _. destruct rc; try discriminate. now elim Hne.
      - injection Hi as _ <-. init_simpl. exact Hf0. }
    unfold simulate. now rewrite Hf.
Qed.

End InitializeFacts.

(** * Further properties: [Engine::getLogData] *)

Section LogData.

(** The rows of [m] after the first [p] passes of a loop that writes
    [data[i]] at column [j] of row [i]. *)
Let written (j : nat) (data : list (list R)) (p : nat) (m : matrixN_t)
  : matrixN_t :=
  imap (fun i row =>
          if (i <? p)%nat
          then take j row ++ map Some (nth i data [])
               ++ drop (j + length (nth i data [])) row
          else row) m.

Lemma assign_rows_prefix (j : nat) (data : list (list R)) (m : matrixN_t)
    (p : nat) :
  (p <= length m)%nat ->
  (forall i row, (i < p)%nat -> m !! i = Some row ->
     (j + length (nth i data []) <= length row)%nat) ->
  fold_left
    (fun (acc : option matrixN_t) (i : nat) =>
       match acc with
       | Some m => block_assign m i j (nth i data [])
       | None => None
       end)
    (seq 0 p) (Some m)
  = Some (written j data p m).
Proof.
  induction p as [|p IH]; intros Hp Hfit.
  - cbn. f_equal. unfold written. apply list_eq. intros i.
    rewrite list_lookup_imap. destruct (m !! i); reflexivity.
  - rewrite seq_S, fold_left_app, IH by (try lia; intros; eapply Hfit; eauto).
    cbn [fold_left Nat.add]. unfold block_assign.
    destruct (lookup_lt_is_Some_2 m p ltac:(lia)) as [row Hrow].
    assert (Hw : written j data p m !! p = Some row).
    { unfold written. rewrite list_lookup_imap, Hrow.
      cbn [fmap option_fmap option_map].
      destruct (Nat.ltb_spec p p); [lia | reflexivity]. }
    rewrite Hw.
    destruct (Nat.leb_spec (j + length (nth p data [])) (length row)) as [_|Hbad];
      [|specialize (Hfit p row ltac:(lia) Hrow); lia].
    f_equal. apply list_eq. intros i. unfold written.
    destruct (Nat.eq_dec i p) as [-> | Hne].
    + rewrite list_lookup_insert_eq
        by (rewrite length_imap; lia).
      rewrite list_lookup_imap, Hrow. cbn [fmap option_fmap option_map].
      destruct (Nat.ltb_spec p (S p)); [reflexivity | lia].
    + rewrite list_lookup_insert_ne by congruence.
      rewrite !list_lookup_imap. destruct (m !! i); [|reflexivity].
      cbn [fmap option_fmap option_map].
      destruct (Nat.ltb_spec i p), (Nat.ltb_spec i (S p)); try lia; reflexivity.
Qed.

Lemma assign_rows_written (j : nat) (data : list (list R)) (m : matrixN_t) :
  (length data <= length m)%nat ->
  (forall i row, (i < length data)%nat -> m !! i = Some row ->
     (j + length (nth i data []) <= length row)%nat) ->
  assign_rows j data m = Some (written j data (length data) m).
Proof. intros Hl Hfit. now apply assign_rows_prefix. Qed.

(** X26: the layout of the log: when the recorder hands over as many rows of
    integers and of floating-point numbers as it has time stamps, at
    least one, the rows of each kind all of one size, [getLogData] is
    defined and row [i] of the matrix holds time stamp [i], then the
    integers of row [i], then its floating-point numbers, every
    coefficient being initialised. *)
Theorem getLogData_layout (timestamps : list R) (intData : list (list Z))
    (floatData : list (list R)) (ni nf : nat) :
  timestamps <> [] ->
  length intData = length timestamps ->
  length floatData = length timestamps ->
  (forall ints, In ints intData -> length ints = ni) ->
  (forall floats, In floats floatData -> length floats = nf) ->
  exists logData,
    getLogData timestamps intData floatData = Some logData
    /\ length logData = length timestamps
    /\ forall i t ints floats,
         timestamps !! i = Some t -> intData !! i = Some ints ->
         floatData !! i = Some floats ->
         logData !! i
         = Some (Some t :: map (fun z => Some (IZR z)) ints ++ map Some floats).
Proof.
  intros Hne Hli Hlf Hni Hnf.
  destruct intData as [|ints0 intData']; [destruct timestamps; [easy | discriminate]|].
  destruct floatData as [|floats0 floatData'];
    [destruct timestamps; [easy | discriminate]|].
  unfold getLogData. cbv beta iota zeta.
  set (intData := ints0 :: intData') in *.
  set (floatData := floats0 :: floatData') in *.
  assert (H0i : length ints0 = ni) by (apply Hni; now left).
  assert (H0f : length floats0 = nf) by (apply Hnf; now left).
  assert (Hnth_i : forall i, (i < length timestamps)%nat ->
                             length (nth i intData []) = ni).
  { intros i Hi. apply Hni. apply nth_In. lia. }
  assert (Hnth_f : forall i, (i < length timestamps)%nat ->
                             length (nth i floatData []) = nf).
  { intros i Hi. apply Hnf. apply nth_In. lia. }
  rewrite H0i, H0f.
  replace (1 + ni + nf - 1)%nat with (ni + nf)%nat by lia.
  set (m0 := map (fun t : R => Some t :: replicate (ni + nf) None) timestamps).
  assert (Hm0 : forall i row, m0 !! i = Some row ->
            exists t, timestamps !! i = Some t
                      /\ row = Some t :: replicate (ni + nf) None).
  { intros i row Hrow. unfold m0 in Hrow.
    change (map ?f ?l) with (f <$> l) in Hrow.
    rewrite list_lookup_fmap in Hrow.
    destruct (timestamps !! i) as [t|]; [|discriminate].
    injection Hrow as <-. now exists t. }
  assert (Hlen0 : length m0 = length timestamps) by apply length_map.
  rewrite assign_rows_written.
  2:{ rewrite length_map. lia. }
  2:{ intros i row Hi Hrow. rewrite length_map in Hi.
      destruct (Hm0 i row Hrow) as (t & _ & ->).
      change (map (map IZR) intData) with (map IZR <$> intData).
      rewrite nth_lookup, list_lookup_fmap.
      destruct (lookup_lt_is_Some_2 intData i ltac:(lia)) as [ints Hints].
      rewrite Hints. cbn [fmap option_fmap option_map default length].
      unfold Datatypes.id.
      rewrite length_map, length_replicate.
      pose proof (Hnth_i i ltac:(lia)) as Hk.
      rewrite nth_lookup, Hints in Hk. cbn in Hk. lia. }
  rewrite length_map.
  set (m1 := written 1 (map (map IZR) intData) (length intData) m0).
  assert (Hm1 : forall i row, m1 !! i = Some row ->
            exists t ints, timestamps !! i = Some t /\ intData !! i = Some ints
              /\ row = Some t :: map (fun z => Some (IZR z)) ints
                       ++ replicate nf None).
  { intros i row Hrow. unfold m1, written in Hrow.
    rewrite list_lookup_imap in Hrow.
    destruct (m0 !! i) as [row0|] eqn:Hrow0; [|discriminate].
    destruct (Hm0 i row0 Hrow0) as (t & Ht & ->).
    assert (Hi : (i < length timestamps)%nat)
      by (apply lookup_lt_Some in Ht; exact Ht).
    destruct (lookup_lt_is_Some_2 intData i ltac:(lia)) as [ints Hints].
    exists t, ints. split; [exact Ht|]. split; [exact Hints|].
    cbn [fmap option_fmap option_map] in Hrow.
    destruct (Nat.ltb_spec i (length intData)); [|lia].
    apply (inj Some) in Hrow. rewrite <- Hrow. clear Hrow.
    change (map (map IZR) intData) with (map IZR <$> intData).
    rewrite nth_lookup, list_lookup_fmap, Hints.
    cbn [fmap option_fmap option_map default]. unfold Datatypes.id.
    pose proof (Hnth_i i Hi) as Hk. rewrite nth_lookup, Hints in Hk.
    cbn in Hk. rewrite length_map, Hk.
    change (take 1 (Some t :: ?l)) with [Some t].
    change (drop (1 + ni) (Some t :: ?l)) with (drop ni l).
    rewrite map_map, drop_replicate.
    replace (ni + nf - ni)%nat with nf by lia. reflexivity. }
  assert (Hlen1 : length m1 = length timestamps).
  { unfold m1, written. now rewrite length_imap. }
  rewrite assign_rows_written.
  2:{ lia. }
  2:{ intros i row Hi Hrow.
      destruct (Hm1 i row Hrow) as (t & ints & Ht & Hints & ->).
      pose proof (Hnth_i i ltac:(lia)) as Hk. rewrite nth_lookup, Hints in Hk.
      cbn in Hk. rewrite Hnth_f by lia.
      cbn [length]. rewrite length_app, length_map, length_replicate. lia. }
  eexists. split; [reflexivity|]. split.
  - unfold written. rewrite length_imap. exact Hlen1.
  - intros i t ints floats Ht Hints Hfloats.
    assert (Hi : (i < length timestamps)%nat)
      by (apply lookup_lt_Some in Ht; exact Ht).
    unfold written at 1. rewrite list_lookup_imap.
    destruct (lookup_lt_is_Some_2 m1 i ltac:(lia)) as [row Hrow].
    rewrite Hrow. cbn [fmap option_fmap option_map].
    destruct (Hm1 i row Hrow) as (t' & ints' & Ht' & Hints' & ->).
    assert (t' = t) as -> by congruence.
    assert (ints' = ints) as -> by congruence.
    destruct (Nat.ltb_spec i (length floatData)); [|lia].
    rewrite nth_lookup, Hfloats. cbn [default]. unfold Datatypes.id.
    pose proof (Hnth_i i Hi) as Hk. rewrite nth_lookup, Hints in Hk.
    cbn in Hk.
    pose proof (Hnth_f i Hi) as Hk'. rewrite nth_lookup, Hfloats in Hk'.
    cbn in Hk'.
    f_equal.
    change (take (1 + ni) (Some t :: ?l)) with (Some t :: take ni l).
    change (drop (1 + ni + ?k) (Some t :: ?l)) with (drop (ni + k) l).
    rewrite take_app_length' by (rewrite length_map; lia).
    rewrite drop_app_add' by (rewrite length_map; lia).
    rewrite drop_ge by (rewrite length_replicate; lia).
    now rewrite app_nil_r.
Qed.

(** On an empty recorder [getLogData] reads the first row of an empty
    vector: it is undefined whenever there is no row of integers or no
    row of floating-point numbers, whatever the time stamps. *)
Lemma getLogData_empty (timestamps : list R) (intData : list (list Z))
    (floatData : list (list R)) :
  intData = [] \/ floatData = [] ->
  getLogData timestamps intData floatData = None.
Proof.
  intros [-> | ->]; [reflexivity|]. now destruct intData.
Qed.

End LogData.

(** * The further properties on the concrete system *)

Import ScenarioInit.

Lemma wf_invariant_witness :
  (0 <= 4 <= MemoryDevice.int64_max)%Z
  /\ MemoryDevice.wf (MemoryDevice.create 4).
Proof.
  assert (H : (0 <= 4 <= MemoryDevice.int64_max)%Z)
    by (unfold MemoryDevice.int64_max; lia).
  split; [exact H|].
  exact (proj1 MemoryDeviceMore.wf_invariant 4%Z H).
Defined.

Lemma wf_create_4 : MemoryDevice.wf (MemoryDevice.create 4).
Proof.
  apply MemoryDeviceFacts.create_wf. unfold MemoryDevice.int64_max. lia.
Qed.

Lemma write_seek_read_witness :
  MemoryDevice.wf (MemoryDevice.create 4)
  /\ (0 <= 2 <= Z.of_nat (length [x01; x02]))%Z
  /\ (MemoryDevice.currentPos_ (MemoryDevice.create 4)
      < Z.of_nat (length (MemoryDevice.buffer_ (MemoryDevice.create 4))))%Z
  /\ exists k d1,
       MemoryDevice.writeData (MemoryDevice.create 4) [x01; x02] 2 = Some (k, d1)
       /\ fst (MemoryDevice.seek d1 0) = SUCCESS
       /\ MemoryDevice.readData (snd (MemoryDevice.seek d1 0)) k
          = Some (k, take (Z.to_nat k) [x01; x02], d1).
Proof.
  assert (H1 : (0 <= 2 <= Z.of_nat (length [x01; x02]))%Z) by (cbn; lia).
  assert (H2 : (MemoryDevice.currentPos_ (MemoryDevice.create 4)
      < Z.of_nat (length (MemoryDevice.buffer_ (MemoryDevice.create 4))))%Z)
    by (vm_compute; reflexivity).
  split; [exact wf_create_4|]. split; [exact H1|]. split; [exact H2|].
  exact (MemoryDeviceMore.write_seek_read (MemoryDevice.create 4) [x01; x02] 2
           wf_create_4 H1 H2).
Defined.

Lemma writeData_frame_witness :
  MemoryDevice.wf (MemoryDevice.create 4)
  /\ (0 <= 2 <= Z.of_nat (length [x01; x02]))%Z
  /\ exists k d',
       MemoryDevice.writeData (MemoryDevice.create 4) [x01; x02] 2 = Some (k, d')
       /\ MemoryDevice.buffer_ d' !! 3%nat
          = MemoryDevice.buffer_ (MemoryDevice.create 4) !! 3%nat.
Proof.
  assert (H1 : (0 <= 2 <= Z.of_nat (length [x01; x02]))%Z) by (cbn; lia).
  split; [exact wf_create_4|]. split; [exact H1|].
  destruct (MemoryDeviceMore.writeData_frame (MemoryDevice.create 4) [x01; x02]
              2 3 wf_create_4 H1) as (k & d' & Hw & Hout & _).
  exists k, d'. split; [exact Hw|]. apply Hout. right.
  pose proof (MemoryDeviceFacts.writeData_eq (MemoryDevice.create 4)
                [x01; x02] 2 wf_create_4 H1) as He.
  cbv zeta in He. rewrite He in Hw. injection Hw as <- _.
  vm_compute. discriminate.
Defined.

Lemma readData_compose_witness :
  MemoryDevice.wf (MemoryDevice.create 4) /\ (0 <= 1)%Z /\ (0 <= 2)%Z
  /\ exists k1 b1 d1 k2 b2 d2,
       MemoryDevice.readData (MemoryDevice.create 4) 1 = Some (k1, b1, d1)
       /\ MemoryDevice.readData d1 2 = Some (k2, b2, d2)
       /\ MemoryDevice.readData (MemoryDevice.create 4) (1 + 2)
          = Some ((k1 + k2)%Z, b1 ++ b2, d2).
Proof.
  assert (H1 : (0 <= 1)%Z) by lia. assert (H2 : (0 <= 2)%Z) by lia.
  split; [exact wf_create_4|]. split; [exact H1|]. split; [exact H2|].
  exact (MemoryDeviceMore.readData_compose (MemoryDevice.create 4) 1 2
           wf_create_4 H1 H2).
Defined.

Lemma seek_end_refused_witness :
  MemoryDevice.buffer_ (MemoryDevice.create 0) = []
  /\ MemoryDevice.seek (MemoryDevice.create 0) 0
     = (ERROR_GENERIC, MemoryDevice.create 0).
Proof.
  split; [reflexivity|].
  exact (proj1 MemoryDeviceMore.seek_end_refused (MemoryDevice.create 0) 0%Z
           eq_refl).
Defined.

Lemma resize_spec_witness :
  (0 <= 2 <= MemoryDevice.int64_max)%Z
  /\ Z.of_nat (length (MemoryDevice.buffer_
                         (MemoryDevice.resize (MemoryDevice.create 4) 2))) = 2%Z.
Proof.
  assert (H : (0 <= 2 <= MemoryDevice.int64_max)%Z)
    by (unfold MemoryDevice.int64_max; lia).
  split; [exact H|].
  exact (proj1 (MemoryDeviceMore.resize_spec (MemoryDevice.create 4) 2 H)).
Defined.

Lemma negative_size_unguarded_witness :
  MemoryDevice.wf (MemoryDevice.create 4) /\ (- 2 ^ 63 <= -1 < 0)%Z
  /\ MemoryDevice.readData (MemoryDevice.create 4) (-1) = None.
Proof.
  assert (H : (- 2 ^ 63 <= -1 < 0)%Z) by lia.
  split; [exact wf_create_4|]. split; [exact H|].
  exact (proj1 (MemoryDeviceMore.negative_size_unguarded (MemoryDevice.create 4)
                  (-1) wf_create_4 H)).
Defined.

Lemma contact_force_bounds_witness :
  0 < stiffness contactOptions /\ 0 <= damping contactOptions
  /\ c2 (V3 0 0 (-1)) < 0
  /\ 0 < c2 (contact_fextInWorld contactOptions (V3 0 0 (-1)) (V3 2 0 0)).
Proof.
  assert (H1 : 0 < stiffness contactOptions) by (change (0 < 1); lra).
  assert (H2 : 0 <= damping contactOptions) by (change (0 <= 0); lra).
  assert (H3 : c2 (V3 0 0 (-1)) < 0) by (change (-1 < 0); lra).
  split; [exact H1|]. split; [exact H2|]. split; [exact H3|].
  exact (proj1 (contact_force_bounds contactOptions (V3 0 0 (-1)) (V3 2 0 0)
                  H1 H2 H3)).
Defined.

Lemma frictionCoeff_bounds_witness :
  0 < dryFrictionVelEps contactOptions
  /\ 0 <= frictionViscous contactOptions <= frictionDry contactOptions
  /\ 0 <= 2
  /\ 0 <= contact_frictionCoeff contactOptions 2 <= frictionDry contactOptions.
Proof.
  assert (H1 : 0 < dryFrictionVelEps contactOptions) by (change (0 < 1); lra).
  assert (H2 : 0 <= frictionViscous contactOptions <= frictionDry contactOptions)
    by (change (0 <= 1 <= 1); lra).
  assert (H3 : 0 <= 2) by lra.
  split; [exact H1|]. split; [exact H2|]. split; [exact H3|].
  exact (proj1 (frictionCoeff_bounds contactOptions 2 H1 H2 H3)).
Defined.

Lemma bounds_force_restoring_witness :
  0 <= boundStiffness (joints (options 0 0))
  /\ 0 <= boundDamping (joints (options 0 0))
  /\ 0 < boundTransitionEps (joints (options 0 0))
  /\ -1 <= 1
  /\ bounds_forceJoint (joints (options 0 0)) 2 0 (-1) 1 <= 0.
Proof.
  assert (H1 : 0 <= boundStiffness (joints (options 0 0)))
    by (change (0 <= 1); lra).
  assert (H2 : 0 <= boundDamping (joints (options 0 0)))
    by (change (0 <= 1); lra).
  assert (H3 : 0 < boundTransitionEps (joints (options 0 0)))
    by (change (0 < 1); lra).
  assert (H4 : -1 <= 1) by lra.
  split; [exact H1|]. split; [exact H2|]. split; [exact H3|].
  split; [exact H4|].
  refine (proj1 (bounds_force_restoring (joints (options 0 0)) 2 0 (-1) 1
                   H1 H2 H3 H4) _).
  lra.
Defined.

Lemma boundsDynamics_inside_witness :
  boundTransitionEps (joints (options 0 0)) <> 0
  /\ length (jointsVelocityIdx_ model) = length (jointsPositionIdx_ model)
  /\ (forall j, In j (jointsVelocityIdx_ model) ->
        (0 <= j < Z.of_nat (nv model))%Z)
  /\ (forall i, (i < length (jointsPositionIdx_ model))%nat ->
        coeff (boundsMin (mdlOptions_joints model)) (Z.of_nat i)
        <= coeff [0] (nth i (jointsPositionIdx_ model) 0%Z)
        <= coeff (boundsMax (mdlOptions_joints model)) (Z.of_nat i))
  /\ boundsDynamics (options 0 0) model [0] [0] = Zero (nv model).
Proof.
  assert (Heb : boundTransitionEps (joints (options 0 0)) <> 0)
    by (change (1 <> 0); lra).
  assert (Hlen : length (jointsVelocityIdx_ model)
                 = length (jointsPositionIdx_ model)) by reflexivity.
  assert (Hrange : forall j, In j (jointsVelocityIdx_ model) ->
                             (0 <= j < Z.of_nat (nv model))%Z).
  { intros j [<- | []]. cbn. lia. }
  assert (H : forall i, (i < length (jointsPositionIdx_ model))%nat ->
     coeff (boundsMin (mdlOptions_joints model)) (Z.of_nat i)
     <= coeff [0] (nth i (jointsPositionIdx_ model) 0%Z)
     <= coeff (boundsMax (mdlOptions_joints model)) (Z.of_nat i)).
  { intros i Hi. cbn in Hi. assert (i = 0%nat) as -> by lia.
    change (-1 <= 0 <= 1). lra. }
  split; [exact Heb|]. split; [exact Hlen|]. split; [exact Hrange|].
  split; [exact H|].
  exact (proj1 (boundsDynamics_inside (options 0 0) model [0] [0] Heb Hlen
                  Hrange H)).
Defined.

Lemma contact_off_when_airborne_witness :
  (forall i, (i < length (contactFramesIdx_ model_airborne))%nat ->
     c2 (translation (oMf (pncData_ model_airborne)
                          (nth i (contactFramesIdx_ model_airborne) 0%Z))) >= 0)
  /\ snd (contactForcesLoop (options 0 0) model_airborne)
     = replicate (njoints (pncModel_ model_airborne)) Force_Zero.
Proof.
  assert (H : forall i, (i < length (contactFramesIdx_ model_airborne))%nat ->
     c2 (translation (oMf (pncData_ model_airborne)
                          (nth i (contactFramesIdx_ model_airborne) 0%Z))) >= 0).
  { intros i Hi. change (1 >= 0). lra. }
  split; [exact H|].
  exact (proj1 (contact_off_when_airborne (options 0 0) model_airborne H)).
Defined.

Lemma saturateCommand_scatter_witness :
  let s := stepperState_initialize model in
  length (uCommandLast s) = length (jointsVelocityIdx_ model)
  /\ (forall i i', (i < length (jointsVelocityIdx_ model))%nat ->
        (i' < length (jointsVelocityIdx_ model))%nat ->
        jointId_of model i = jointId_of model i' -> i = i')
  /\ (forall i, (i < length (jointsVelocityIdx_ model))%nat ->
        (jointId_of model i < Z.of_nat (length (uControl s)))%Z)
  /\ length (uControl (saturateCommand model s)) = length (uControl s).
Proof.
  intros s.
  assert (H1 : length (uCommandLast s) = length (jointsVelocityIdx_ model))
    by reflexivity.
  assert (H2 : forall i i', (i < length (jointsVelocityIdx_ model))%nat ->
        (i' < length (jointsVelocityIdx_ model))%nat ->
        jointId_of model i = jointId_of model i' -> i = i').
  { intros i i' Hi Hi' _. cbn in Hi, Hi'. lia. }
  assert (H3 : forall i, (i < length (jointsVelocityIdx_ model))%nat ->
        (jointId_of model i < Z.of_nat (length (uControl s)))%Z).
  { intros i Hi. cbn in Hi. assert (i = 0%nat) as -> by lia.
    vm_compute. reflexivity. }
  split; [exact H1|]. split; [exact H2|]. split; [exact H3|].
  exact (proj1 (saturateCommand_scatter model s H1 H2 H3)).
Defined.

Lemma command_held_witness :
  epsilon
  <= controllerUpdatePeriod (stepper (engineOptions_ (engine (world_sampled (fun _ _ => true)))))
  /\ held (world_sampled (fun _ _ => true)) (fst (systemDynamics (world_sampled (fun _ _ => true)) 0 [0; 0])).
Proof.
  assert (H : epsilon
              <= controllerUpdatePeriod
                   (stepper (engineOptions_ (engine (world_sampled (fun _ _ => true)))))).
  { change (epsilon <= 1). unfold epsilon. lra. }
  split; [exact H|].
  exact (proj1 (command_held (world_sampled (fun _ _ => true)) H) 0 [0; 0]).
Defined.

(** The run of one iteration, as a call of [simulate]. *)
Lemma one_iteration_simulate :
  exists fuel w',
    simulate fuel (world0 true (fun t _ => Rltb t 2e-4)) [0; 0] 1
    = Returned (SUCCESS, w').
Proof.
  destruct one_iteration_run as (w' & l' & Hrun).
  destruct (loop_run_integration_loop _ _ _ _ _ _ _ Hrun) as [fuel Hloop].
  exists fuel, w'. unfold simulate.
  change (isInitialized_ (engine (world0 true (fun t _ => Rltb t 2e-4))))
    with true.
  change (length [0; 0] =? nx (model_ (world0 true (fun t _ => Rltb t 2e-4))))%nat
    with true.
  cbn [negb]. rewrite Rltb_ge by lra. rewrite Hloop. reflexivity.
Qed.

Lemma simulate_unaltered_witness :
  let w := world0 true (fun t _ => Rltb t 2e-4) in
  exists fuel w',
    ((exists r, simulate fuel w [0; 0] 1 = Returned (r, w'))
     \/ simulate fuel w [0; 0] 1 = Thrown w')
    /\ unaltered w w'.
Proof.
  intros w. destruct one_iteration_simulate as (fuel & w' & Hr).
  exists fuel, w'.
  assert (H : (exists r, simulate fuel w [0; 0] 1 = Returned (r, w'))
              \/ simulate fuel w [0; 0] 1 = Thrown w')
    by (left; exists SUCCESS; exact Hr).
  split; [exact H|].
  exact (simulate_unaltered fuel w [0; 0] 1 w' H).
Defined.

Lemma telemetry_row_count_witness :
  let w := world0 true (fun t _ => Rltb t 2e-4) in
  exists fuel w',
    simulate fuel w [0; 0] 1 = Returned (SUCCESS, w')
    /\ Z.of_nat (length (telemetryRecorder_ (engine w')))
       = (iterLast (stepperState_ (engine w')) + 1)%Z.
Proof.
  intros w. destruct one_iteration_simulate as (fuel & w' & Hr).
  exists fuel, w'. split; [exact Hr|].
  exact (proj1 (telemetry_row_count fuel w [0; 0] 1 w' Hr)).
Defined.

Lemma simulate_landing_witness :
  let w := world0 true (fun t _ => Rltb t 2e-4) in
  exists fuel w',
    simulate fuel w [0; 0] 1 = Returned (SUCCESS, w')
    /\ qLast (stepperState_ (engine w'))
       = head (nq (model_ w)) (x (stepperState_ (engine w'))).
Proof.
  intros w. destruct one_iteration_simulate as (fuel & w' & Hr).
  exists fuel, w'. split; [exact Hr|].
  exact (proj1 (proj2 (simulate_landing fuel w [0; 0] 1 w' Hr))).
Defined.

Lemma accepting_stepper_checker_idle_witness :
  stepper_always success
  /\ simulate 3 (world0 true (fun _ _ => true)) [0; 0] 1
     <> Thrown (world0 true (fun _ _ => true)).
Proof.
  assert (H : stepper_always success).
  { intros a r x0 d t dt0 d'. reflexivity. }
  split; [exact H|].
  exact (proj2 (proj2 (proj2 (proj2 (accepting_stepper_checker_idle H))))
           3%nat (world0 true (fun _ _ => true)) [0; 0] 1
           (world0 true (fun _ _ => true))).
Defined.

Lemma refusing_stepper_throws_witness :
  @stepper_always stubborn fail
  /\ fail_checker (mkLocals 5e-4 0 0 0) = 0%nat
  /\ @free_steps _ _ _ stubborn _ 500 (world0 true (fun _ _ => true))
       (mkLocals 5e-4 0 0 0) = OutOfFuel.
Proof.
  assert (H : @stepper_always stubborn fail).
  { intros a r x0 d t dt0. reflexivity. }
  split; [exact H|]. split; [reflexivity|].
  refine (proj1 (@refusing_stepper_throws _ _ _ stubborn _ 500
                   (world0 true (fun _ _ => true)) (mkLocals 5e-4 0 0 0)
                   H eq_refl) _).
  lia.
Defined.

Lemma getLogData_layout_witness :
  [0; 1] <> []
  /\ length [[1%Z]; [2%Z]] = length [0; 1]
  /\ length [[0.5]; [0.25]] = length [0; 1]
  /\ (forall ints, In ints [[1%Z]; [2%Z]] -> length ints = 1%nat)
  /\ (forall floats, In floats [[0.5]; [0.25]] -> length floats = 1%nat)
  /\ exists logData,
       getLogData [0; 1] [[1%Z]; [2%Z]] [[0.5]; [0.25]] = Some logData
       /\ length logData = 2%nat.
Proof.
  assert (H1 : [0; 1] <> []) by discriminate.
  assert (H2 : length [[1%Z]; [2%Z]] = length [0; 1]) by reflexivity.
  assert (H3 : length [[0.5]; [0.25]] = length [0; 1]) by reflexivity.
  assert (H4 : forall ints, In ints [[1%Z]; [2%Z]] -> length ints = 1%nat)
    by (intros ints [<- | [<- | []]]; reflexivity).
  assert (H5 : forall floats, In floats [[0.5]; [0.25]] -> length floats = 1%nat)
    by (intros floats [<- | [<- | []]]; reflexivity).
  split; [exact H1|]. split; [exact H2|]. split; [exact H3|].
  split; [exact H4|]. split; [exact H5|].
  destruct (getLogData_layout [0; 1] [[1%Z]; [2%Z]] [[0.5]; [0.25]] 1 1
              H1 H2 H3 H4 H5) as (logData & Hd & Hl & _).
  exists logData. split; [exact Hd | exact Hl].
Defined.

Lemma probe_scenario : fst (probe_controller model tt) = SUCCESS.
Proof.
  rewrite probe_controller_code by (vm_compute; reflexivity).
  reflexivity.
Qed.

(** The initialisation of the concrete system succeeds. *)
Lemma initialize_scenario :
  exists w',
    initialize (world0 false (fun _ _ => true)) model tt (fun t _ => Rltb t 2e-4)
    = Returned (SUCCESS, w').
Proof.
  exact (initialize_outcome (world0 false (fun _ _ => true)) model
           (another_controller tt) (fun t _ => Rltb t 2e-4) eq_refl eq_refl
           probe_scenario).
Qed.

(** So does its re-initialisation with the controller it has bound. *)
Lemma initialize_again_scenario :
  exists w',
    initialize_handed (world0 true (fun _ _ => true)) model the_bound_controller
      (fun t _ => Rltb t 2e-4)
    = Returned (SUCCESS, w').
Proof.
  exact (initialize_outcome (world0 true (fun _ _ => true)) model
           the_bound_controller (fun t _ => Rltb t 2e-4) eq_refl eq_refl
           probe_scenario).
Qed.

Lemma initialize_early_returns_witness :
  Model_isInitialized_ model_raw = false
  /\ initialize (world0 false (fun _ _ => true)) model_raw tt (fun _ _ => true)
     = Returned (ERROR_INIT_FAILED, world0 false (fun _ _ => true)).
Proof.
  split; [reflexivity|].
  exact (proj1 (initialize_early_returns (world0 false (fun _ _ => true))
                  model_raw tt (fun _ _ => true)) eq_refl).
Defined.

Lemma initialize_code_witness :
  Model_isInitialized_ model = true
  /\ controller_getIsInitialized tt = true
  /\ (Z.of_nat (length (jointsVelocityIdx_ model)) < 2 ^ 31)%Z
  /\ exists w',
       initialize (world0 false (fun _ _ => true)) model tt
         (fun t _ => Rltb t 2e-4) = Returned (SUCCESS, w')
       /\ SUCCESS <> ERROR_INIT_FAILED.
Proof.
  assert (Hn : (Z.of_nat (length (jointsVelocityIdx_ model)) < 2 ^ 31)%Z)
    by (vm_compute; reflexivity).
  split; [reflexivity|]. split; [reflexivity|]. split; [exact Hn|].
  destruct initialize_scenario as [w' Hi]. exists w'. split; [exact Hi|].
  exact (proj2 (proj2 (proj2
    (initialize_code (world0 false (fun _ _ => true)) model tt
       (fun t _ => Rltb t 2e-4) SUCCESS w' eq_refl eq_refl Hn Hi)))).
Defined.

Lemma initialize_flag_witness :
  exists w',
    initialize_handed (world0 true (fun _ _ => true)) model the_bound_controller
      (fun t _ => Rltb t 2e-4) = Returned (SUCCESS, w')
    /\ isInitialized_ (engine w') = true.
Proof.
  destruct initialize_again_scenario as [w' Hi]. exists w'. split; [exact Hi|].
  exact (proj1 (initialize_flag (world0 true (fun _ _ => true)) model
                  the_bound_controller (fun t _ => Rltb t 2e-4) SUCCESS w' Hi)).
Defined.

Lemma initialize_success_witness :
  exists w',
    initialize (world0 false (fun _ _ => true)) model tt
      (fun t _ => Rltb t 2e-4) = Returned (SUCCESS, w')
    /\ pnc_gravity (pncModel_ (model_ w'))
       = gravity (world (engineOptions_ (engine w'))).
Proof.
  destruct initialize_scenario as [w' Hi]. exists w'. split; [exact Hi|].
  exact (proj1 (proj2 (proj2 (proj2 (proj2 (proj2
    (initialize_success (world0 false (fun _ _ => true)) model tt
       (fun t _ => Rltb t 2e-4) w' Hi))))))).
Defined.

Lemma initialize_throws_witness :
  (exists w' : @World _ _ _ strict,
     initialize_handed world_strict model (@another_controller pinocchio sensors controller tt)
       (fun _ _ => true) = Thrown w'
     /\ isInitialized_ (engine w') = true)
  /\ (exists w' : World,
        @initialize_handed pinocchio sensors controller config probe_escaping
          sensorTelemetry (world0 false (fun _ _ => true)) model
          (@another_controller pinocchio sensors controller tt) (fun _ _ => true) = Thrown w'
        /\ Model_isInitialized_ model = true).
Proof.
  split.
  - destruct (@initialize_outcome pinocchio sensors controller strict probe
                sensorTelemetry world_strict model (@another_controller pinocchio sensors controller tt)
                (fun _ _ => true) eq_refl eq_refl probe_scenario) as [w' Hi].
    exists w'. split; [exact Hi|].
    destruct (@initialize_throws pinocchio sensors controller strict probe
                sensorTelemetry world_strict model (@another_controller pinocchio sensors controller tt)
                (fun _ _ => true) w' Hi) as (_ & _ & _ & [Hesc | Hset]).
    + destruct Hesc as [Hesc _]. now elim Hesc.
    + exact (proj1 (proj2 (proj2 (proj2 Hset)))).
  - destruct (@initialize_outcome pinocchio sensors controller config
                probe_escaping sensorTelemetry (world0 false (fun _ _ => true))
                model (@another_controller pinocchio sensors controller tt) (fun _ _ => true)
                eq_refl eq_refl) as [w' Hi].
    exists w'. split; [exact Hi|].
    exact (proj1 (@initialize_throws pinocchio sensors controller config
                    probe_escaping sensorTelemetry
                    (world0 false (fun _ _ => true)) model
                    (@another_controller pinocchio sensors controller tt) (fun _ _ => true) w' Hi)).
Defined.

Lemma initialize_then_simulate_witness :
  exists w1,
    initialize (world0 false (fun _ _ => true)) model tt
      (fun t _ => Rltb t 2e-4) = Returned (SUCCESS, w1)
    /\ length [0; 0] = nx model
    /\ 0.05 <= 1
    /\ forall r2 w2,
         simulate 3 w1 [0; 0] 1 = Returned (r2, w2) -> r2 = SUCCESS.
Proof.
  assert (He : 0.05 <= 1) by lra.
  destruct initialize_scenario as [w1 Hi]. exists w1. split; [exact Hi|].
  split; [reflexivity|]. split; [exact He|].
  exact (proj1 (initialize_then_simulate (world0 false (fun _ _ => true)) model
                  tt (fun t _ => Rltb t 2e-4) SUCCESS w1 [0; 0] 1 3 Hi)
           eq_refl eq_refl He).
Defined.

Lemma sensors_held_witness :
  epsilon
  <= sensorsUpdatePeriod
       (stepper (engineOptions_ (engine (world_sampled (fun _ _ => true)))))
  /\ sensors_kept (world_sampled (fun _ _ => true))
       (fst (systemDynamics (world_sampled (fun _ _ => true)) 0 [0; 0])).
Proof.
  assert (H : epsilon
              <= sensorsUpdatePeriod
                   (stepper (engineOptions_
                               (engine (world_sampled (fun _ _ => true)))))).
  { change (epsilon <= 1). unfold epsilon. lra. }
  split; [exact H|].
  exact (proj1 (sensors_held (world_sampled (fun _ _ => true)) H) 0 [0; 0]).
Defined.

(** A run of one iteration in break-point mode: with a period of one
    second and an end time of one second the Euler stepper goes from 0 to
    the break-point in one step, where the end time is reached. *)
Lemma one_breakpoint_from (w0 : World) :
  callbackFct_ (engine w0) = (fun _ _ => true) ->
  iterLast (stepperState_ (engine w0)) = 0%Z ->
  exists w' l', loop_run 1 1 w0 (mkLocals 1 0 0 0) 1 w' l'.
Proof.
  intros Hcb0 Hit0.
  set (l0 := mkLocals 1 0 0 0).
  assert (Hmin : Rmin 1 (1 - 0) = 1) by (apply Rmin_left; lra).
  assert (Hmin' : Rmin 1 (0 + 1 - 0) = 1) by (apply Rmin_left; lra).
  (* the first head: the loop goes on *)
  assert (Hstop0 : stop_condition 1 (flushDataSnapshot w0) l0 = false).
  { apply not_true_is_false. intros Hs.
    apply stop_condition_iff in Hs as [Hs | [Hs | Hs]].
    - unfold l0 in Hs. proj_simpl. unfold epsilon in Hs.
      rewrite Rabs_right in Hs by lra. lra.
    - unfold l0, flushDataSnapshot in Hs. proj_simpl.
      rewrite Hcb0 in Hs. discriminate.
    - unfold flushDataSnapshot in Hs. proj_simpl. lia. }
  (* the body: one accepted step to the break-point *)
  assert (Hb : exists w1,
             loop_body 2 1 1 (flushDataSnapshot w0) l0
             = Returned (w1, mkLocals (Rmax 1 1) (0 + 1) (0 + 1) 0)).
  { unfold loop_body. rewrite Rgtb_gt by lra.
    unfold l0. proj_simpl. rewrite Hmin.
    set (wb := breakpoint_updates _ _). clearbody wb.
    cbn [breakpoint_steps]. proj_simpl.
    rewrite (Rltb_lt 0 (0 + 1)) by lra. rewrite Hmin'.
    unfold call_try_step. proj_simpl.
    cbn [try_step euler run_try_step].
    destruct (systemDynamics _ _ _) as [w2 d]. cbv beta iota.
    proj_simpl. rewrite (Rltb_ge (0 + 1) (0 + 1)) by lra.
    eexists. reflexivity. }
  destruct Hb as [w1 Hb].
  exists (flushDataSnapshot w1), (mkLocals (Rmax 1 1) (0 + 1) (0 + 1) 0).
  eapply loop_run_iter; [exact Hstop0 | exact Hb |].
  constructor. apply stop_condition_iff. left.
  proj_simpl. replace (1 - (0 + 1)) with 0 by ring.
  rewrite Rabs_R0. unfold epsilon. lra.
Qed.

Lemma one_breakpoint_simulate :
  let w := world_sampled (fun _ _ => true) in
  let p := updatePeriod_of (stepper (engineOptions_ (engine w))) in
  p = 1
  /\ exists fuel w' l',
       loop_run 1 p (simulate_setup w [0; 0]) (mkLocals (initial_dt p) 0 0 0)
                1 w' l'
       /\ simulate fuel w [0; 0] 1 = Returned (SUCCESS, w')
       /\ iterLast (stepperState_ (engine w')) = 1%Z.
Proof.
  intros w p.
  assert (Hp : p = 1).
  { unfold p, updatePeriod_of. change (sensorsUpdatePeriod _) with 1.
    change (controllerUpdatePeriod _) with 1.
    rewrite !Rltb_ge by (unfold epsilon; lra).
    apply Rmin_left. lra. }
  assert (Hdt : initial_dt p = 1).
  { rewrite Hp. unfold initial_dt. now rewrite Rgtb_gt by lra. }
  split; [exact Hp|].
  destruct (one_breakpoint_from (simulate_setup w [0; 0])) as (w' & l' & Hrun).
  - apply simulate_setup_callbackFct.
  - apply simulate_setup_iterLast.
  - destruct (loop_run_integration_loop _ _ _ _ _ _ _ Hrun) as [fuel Hloop].
    destruct (loop_run_exit _ _ _ _ _ _ _ Hrun) as (_ & Hn & _).
    { rewrite simulate_setup_iterLast. lia. }
    rewrite simulate_setup_iterLast in Hn.
    exists fuel, w', l'. rewrite Hdt, Hp.
    split; [exact Hrun|]. split; [|exact Hn].
    unfold simulate. fold p. rewrite Hdt, Hp.
    change (isInitialized_ (engine w)) with true.
    change (length [0; 0] =? nx (model_ w))%nat with true.
    cbn [negb]. rewrite Rltb_ge by lra. rewrite Hloop. reflexivity.
Qed.

Lemma breakpoint_schedule_witness :
  let w := world_sampled (fun _ _ => true) in
  let p := updatePeriod_of (stepper (engineOptions_ (engine w))) in
  p > 0
  /\ exists fuel w' l',
       loop_run 1 p (simulate_setup w [0; 0]) (mkLocals (initial_dt p) 0 0 0)
                1 w' l'
       /\ simulate fuel w [0; 0] 1 = Returned (SUCCESS, w')
       /\ iterLast (stepperState_ (engine w')) = 1%Z
       /\ (next_time l' = Rmin (INR 1 * p) 1
           /\ next_time l' <= current_time l'
           /\ tLast (stepperState_ (engine w')) = current_time l')
       /\ Rmin (IZR (iterLast (stepperState_ (engine w'))) * p) 1
          <= tLast (stepperState_ (engine w')).
Proof.
  intros w p.
  destruct one_breakpoint_simulate as (Hp1 & fuel & w' & l' & Hrun & Hr & Hn).
  fold w in Hrun, Hr, Hp1. fold p in Hrun, Hp1.
  assert (Hp : p > 0) by (rewrite Hp1; lra).
  split; [exact Hp|].
  exists fuel, w', l'. split; [exact Hrun|]. split; [exact Hr|].
  split; [exact Hn|].
  split.
  - exact (proj1 (breakpoint_schedule w [0; 0] 1 w' Hp) 1%nat l'
             ltac:(lra) Hrun).
  - exact (proj2 (breakpoint_schedule w [0; 0] 1 w' Hp) fuel Hr).
Defined.
